(** * Release-report pipeline: commit retrieval, summary composition, orchestration

    A shallow embedding of the server side of the deploy-report route:
    - [fetchCommitsFromGitHub] (lib/github): paginated retrieval, merge filter;
    - [generateSummaryHtml] (lib/openai-summary): prompt, model call, fallback;
    - [GET] (the /deploy-report route handler): validation, deadline,
      assembly of the response and mapping of the failures to a status
      (a status that no response can carry makes the handler itself
      throw).

    The date validation of the page script that calls the route
    ([validateDates]) is embedded as well.

    JavaScript strings are represented by the bytes of their UTF-8 encoding.
    Every string test of the program looks for ASCII text, and an ASCII byte
    never occurs inside the encoding of another character, so the tests are
    computed on the bytes.

    The host, the model and the clock are inputs: an environment gives the
    answer of the host to each query and of the model to each prompt, with
    the time each takes.  Time is counted in milliseconds of waiting; the
    code between two waits takes none.  The retrieval loop of the program is
    unbounded; here it is run for at most a given number of pages, and a run
    cut short by that bound has the outcome [OutOfFuel]. *)

From Stdlib Require Import ZArith String Ascii List Lia Bool DecimalString.
From Stdlib Require Import Sorted Permutation.
Import ListNotations.

Local Open Scope string_scope.
Local Open Scope Z_scope.

(* ================================================================== *)
(** ** Strings as the program uses them *)
(* ================================================================== *)

Module JsString.

Definition chr (n : nat) : ascii := ascii_of_nat n.
Definition code (c : ascii) : nat := nat_of_ascii c.

Definition LF : ascii := chr 10.

Definition of_list (l : list ascii) : string := string_of_list_ascii l.
Definition to_list (s : string) : list ascii := list_ascii_of_string s.

(** [!s] on a string: the empty string is the only falsy one. *)
Definition is_empty (s : string) : bool :=
  match s with EmptyString => true | String _ _ => false end.

(** [a || b] on strings. *)
Definition or_else (a b : string) : string :=
  if is_empty a then b else a.

(** [s.split(sep)] for a one-character separator: never an empty array. *)
Fixpoint split (sep : ascii) (s : string) : list string :=
  match s with
  | EmptyString => [EmptyString]
  | String c rest =>
      if Ascii.eqb c sep then EmptyString :: split sep rest
      else match split sep rest with
           | [] => [String c EmptyString]
           | hd :: tl => String c hd :: tl
           end
  end.

(** [parts.join(sep)]. *)
Definition join (sep : string) (parts : list string) : string :=
  String.concat sep parts.

(** White space and line terminators of ECMAScript ([String.prototype.trim]),
    each given by the bytes of its encoding: TAB, LF, VT, FF, CR, SP, then
    U+00A0, U+1680, U+2000..U+200A, U+2028, U+2029, U+202F, U+205F, U+3000
    and U+FEFF. *)
Definition white_space : list (list ascii) :=
  map (map chr)
    (List.app
       [[9]; [10]; [11]; [12]; [13]; [32]; [194; 160]; [225; 154; 128]]
       (List.app
          (map (fun k => [226; 128; k])
             [128; 129; 130; 131; 132; 133; 134; 135; 136; 137; 138;
              168; 169; 175])
          [[226; 129; 159]; [227; 128; 128]; [239; 187; 191]]))%nat.

Fixpoint strip_prefix (p l : list ascii) : option (list ascii) :=
  match p, l with
  | [], _ => Some l
  | _ :: _, [] => None
  | a :: p', b :: l' => if Ascii.eqb a b then strip_prefix p' l' else None
  end.

Fixpoint strip_first (ps : list (list ascii)) (l : list ascii)
  : option (list ascii) :=
  match ps with
  | [] => None
  | p :: ps' =>
      match strip_prefix p l with
      | Some r => Some r
      | None => strip_first ps' l
      end
  end.

Fixpoint drop_leading (ps : list (list ascii)) (fuel : nat) (l : list ascii)
  : list ascii :=
  match fuel with
  | O => l
  | S fuel' =>
      match strip_first ps l with
      | Some r => drop_leading ps fuel' r
      | None => l
      end
  end.

Definition trimStart_list (l : list ascii) : list ascii :=
  drop_leading white_space (length l) l.

Definition trimEnd_list (l : list ascii) : list ascii :=
  rev (drop_leading (map (@rev ascii) white_space) (length l) (rev l)).

(** [s.trim()]. *)
Definition trim (s : string) : string :=
  of_list (trimEnd_list (trimStart_list (to_list s))).

(** [s.toLowerCase()].  Only A..Z are mapped.  The two places that
    lower-case a string then look for the ASCII words "merge" and
    "secondary rate limit"; the only characters outside A..Z whose lower
    case contains an ASCII letter are U+212A (to k) and U+0130 (to i
    followed by U+0307), and neither can complete one of those words. *)
Definition lower_char (c : ascii) : ascii :=
  let n := code c in
  if ((65 <=? n) && (n <=? 90))%nat then chr (n + 32) else c.

Fixpoint toLowerCase (s : string) : string :=
  match s with
  | EmptyString => EmptyString
  | String c rest => String (lower_char c) (toLowerCase rest)
  end.

(** [s.startsWith(p)]. *)
Fixpoint startsWith (s p : string) : bool :=
  match p with
  | EmptyString => true
  | String a p' =>
      match s with
      | EmptyString => false
      | String b s' => Ascii.eqb a b && startsWith s' p'
      end
  end.

(** [s.includes(needle)]. *)
Fixpoint includes (s needle : string) : bool :=
  startsWith s needle ||
  match s with
  | EmptyString => false
  | String _ s' => includes s' needle
  end.

(** [s.slice(0, n)]. *)
Definition slice0 (n : nat) (s : string) : string := substring 0 n s.

(** [String(n)] and [`${n}`] for an integer. *)
Definition of_Z (n : Z) : string := NilZero.string_of_int (Z.to_int n).

(** Left padding of a non-negative number with zeros to [width] digits. *)
Fixpoint digits (width : nat) (n : Z) : string :=
  match width with
  | O => EmptyString
  | S w => digits w (n / 10) ++ String (chr (48 + Z.to_nat (n mod 10))) EmptyString
  end.

(** Concatenation of a list of pieces: a template literal. *)
Definition cat (parts : list string) : string := String.concat "" parts.

End JsString.

Import JsString.

(* ================================================================== *)
(** ** Dates: the parts of [Date] the program relies on *)
(* ================================================================== *)

Module JsDate.

Definition msPerDay : Z := 1000 * 60 * 60 * 24.

(** Day number (days since 1970-01-01) of a proleptic Gregorian date. *)
Definition days_from_civil (y m d : Z) : Z :=
  let y' := if m <=? 2 then y - 1 else y in
  let era := y' / 400 in
  let yoe := y' - era * 400 in
  let mp := if 2 <? m then m - 3 else m + 9 in
  let doy := (153 * mp + 2) / 5 + d - 1 in
  let doe := yoe * 365 + yoe / 4 - yoe / 100 + doy in
  era * 146097 + doe - 719468.

(** The inverse: year, month and day of a day number. *)
Definition civil_from_days (z : Z) : Z * Z * Z :=
  let z' := z + 719468 in
  let era := z' / 146097 in
  let doe := z' - era * 146097 in
  let yoe := (doe - doe / 1460 + doe / 36524 - doe / 146096) / 365 in
  let doy := doe - (365 * yoe + yoe / 4 - yoe / 100) in
  let mp := (5 * doy + 2) / 153 in
  let d := doy - (153 * mp + 2) / 5 + 1 in
  let m := if mp <? 10 then mp + 3 else mp - 9 in
  let y := yoe + era * 400 in
  ((if m <=? 2 then y + 1 else y), m, d).

Definition is_leap (y : Z) : bool :=
  ((y mod 4 =? 0) && negb (y mod 100 =? 0)) || (y mod 400 =? 0).

Definition days_in_month (y m : Z) : Z :=
  if m =? 2 then (if is_leap y then 29 else 28)
  else if (m =? 4) || (m =? 6) || (m =? 9) || (m =? 11) then 30
  else 31.

(** A time value: milliseconds since the epoch, or [None] for NaN
    (an Invalid Date). *)
Definition Date := option Z.

Definition TimeClip (t : Z) : Date :=
  if Z.abs t <=? 8640000000000000 then Some t else None.

Definition is_digit (c : ascii) : bool :=
  ((48 <=? code c) && (code c <=? 57))%nat.

Definition digit_val (c : ascii) : Z := Z.of_nat (code c - 48).

(** Reads exactly [n] decimal digits. *)
Fixpoint read_digits (n : nat) (acc : Z) (l : list ascii)
  : option (Z * list ascii) :=
  match n with
  | O => Some (acc, l)
  | S n' =>
      match l with
      | c :: l' =>
          if is_digit c then read_digits n' (10 * acc + digit_val c) l'
          else None
      | [] => None
      end
  end.

Definition expect (c : string) (l : list ascii) : option (list ascii) :=
  strip_prefix (to_list c) l.

(** [YYYY-MM-DD] with a legal month and a legal day of that month. *)
Definition read_date (l : list ascii) : option (Z * list ascii) :=
  match read_digits 4 0 l with
  | Some (y, l1) =>
    match expect "-" l1 with
    | Some l2 =>
      match read_digits 2 0 l2 with
      | Some (m, l3) =>
        match expect "-" l3 with
        | Some l4 =>
          match read_digits 2 0 l4 with
          | Some (d, l5) =>
              if (1 <=? m) && (m <=? 12) && (1 <=? d) && (d <=? days_in_month y m)
              then Some (days_from_civil y m d, l5)
              else None
          | None => None
          end
        | None => None
        end
      | None => None
      end
    | None => None
    end
  | None => None
  end.

(** The fraction of a second: one or more digits, of which the first
    three count. *)
Fixpoint read_fraction (scale : Z) (l : list ascii) : Z * list ascii :=
  match l with
  | c :: l' =>
      if is_digit c
      then let (v, r) := read_fraction (scale / 10) l' in
           (scale * digit_val c + v, r)
      else (0, l)
  | [] => (0, l)
  end.

(** [HH:mm], [HH:mm:ss] or [HH:mm:ss.fff]: milliseconds into the day. *)
Definition read_time (l : list ascii) : option (Z * list ascii) :=
  match read_digits 2 0 l with
  | Some (h, l1) =>
    match expect ":" l1 with
    | Some l2 =>
      match read_digits 2 0 l2 with
      | Some (mi, l3) =>
          if (h <=? 23) && (mi <=? 59) then
            match expect ":" l3 with
            | Some l4 =>
              match read_digits 2 0 l4 with
              | Some (sec, l5) =>
                  if sec <=? 59 then
                    match l5 with
                    | c :: (d :: _) as l6 =>
                        if Ascii.eqb c "." && is_digit d
                        then let (f, r) := read_fraction 100 l6 in
                             Some (((h * 60 + mi) * 60 + sec) * 1000 + f, r)
                        else Some (((h * 60 + mi) * 60 + sec) * 1000, l5)
                    | _ => Some (((h * 60 + mi) * 60 + sec) * 1000, l5)
                    end
                  else None
              | None => None
              end
            | None => Some ((h * 60 + mi) * 60 * 1000, l3)
            end
          else None
      | None => None
      end
    | None => None
    end
  | None => None
  end.

(** [Z], [+HH:mm] or [-HH:mm] at the end of the string: the offset in
    milliseconds to subtract. *)
Definition read_offset (l : list ascii) : option Z :=
  match l with
  | [c] => if Ascii.eqb c "Z" then Some 0 else None
  | c :: l1 =>
      if Ascii.eqb c "+" || Ascii.eqb c "-" then
        match read_digits 2 0 l1 with
        | Some (h, l2) =>
          match expect ":" l2 with
          | Some l3 =>
            match read_digits 2 0 l3 with
            | Some (mi, []) =>
                if (h <=? 23) && (mi <=? 59)
                then Some ((if Ascii.eqb c "-" then -1 else 1)
                           * ((h * 60 + mi) * 60 * 1000))
                else None
            | _ => None
            end
          | None => None
          end
        | None => None
        end
      else None
  | [] => None
  end.

(** The forms of the ECMAScript date-time string format whose meaning does
    not depend on the engine or on the time zone of the process: a
    four-digit-year calendar date alone (UTC midnight), or followed by
    [T], a time and an explicit offset.  All fields must be legal. *)
Definition parse_utc_form (s : string) : option Z :=
  match read_date (to_list s) with
  | Some (day, []) => Some (day * msPerDay)
  | Some (day, c :: l1) =>
      if Ascii.eqb c "T" then
        match read_time l1 with
        | Some (t, l2) =>
            match read_offset l2 with
            | Some off => Some (day * msPerDay + t - off)
            | None => None
            end
        | None => None
        end
      else None
  | None => None
  end.

(** What the program takes from its JavaScript engine. *)
Record Platform := {
(** [new Date(s)] for a string outside the forms above (local times,
    expanded years, illegal fields, legacy formats): engines differ. *)
parse_other : string -> Date;
(** [d.toLocaleDateString("en-US", {year: "numeric", month: "long",
    day: "numeric"})], which depends on the time zone of the process
    and on the locale data of the engine. *)
toLocaleDateString : Date -> string
  }.

(** [new Date(s)]. *)
Definition Date_of_string (pf : Platform) (s : string) : Date :=
  match parse_utc_form s with
  | Some t => TimeClip t
  | None => parse_other pf s
  end.

(** [d.toISOString()] of a valid time value. *)
Definition iso_of_ms (t : Z) : string :=
  let day := t / msPerDay in
  let ms := t mod msPerDay in
  let '(y, m, d) := civil_from_days day in
  let year :=
    if (0 <=? y) && (y <=? 9999) then digits 4 y
    else (if y <? 0 then "-" else "+") ++ digits 6 (Z.abs y) in
  cat [year; "-"; digits 2 m; "-"; digits 2 d; "T";
       digits 2 (ms / 3600000); ":"; digits 2 (ms / 60000 mod 60); ":";
       digits 2 (ms / 1000 mod 60); "."; digits 3 (ms mod 1000); "Z"].

(** [d.toISOString()]: a RangeError on an Invalid Date. *)
Definition toISOString (d : Date) : option string :=
  match d with
  | Some t => Some (iso_of_ms t)
  | None => None
  end.

(** [DATE_ONLY_REGEX.test(s)] for [/^\d{4}-\d{2}-\d{2}$/]. *)
Definition matches_date_only (s : string) : bool :=
  match read_digits 4 0 (to_list s) with
  | Some (_, l1) =>
    match expect "-" l1 with
    | Some l2 =>
      match read_digits 2 0 l2 with
      | Some (_, l3) =>
        match expect "-" l3 with
        | Some l4 =>
          match read_digits 2 0 l4 with
          | Some (_, []) => true
          | _ => false
          end
        | None => false
        end
      | None => false
      end
    | None => false
    end
  | None => false
  end.

End JsDate.

Import JsDate.

(* ================================================================== *)
(** ** Errors (lib/errors) and thrown values *)
(* ================================================================== *)

Inductive Upstream := github | openai.

(** A value thrown by the platform or by a library: [fetch], [response.json],
    [Date], the model SDK.  It is never an instance of the two classes of
    lib/errors. *)
Inductive ForeignKind :=
| DOMException   (* an instance of DOMException, hence of Error *)
| OtherError     (* an instance of Error of some other class *)
| NotAnError.    (* a thrown object that is not an Error *)

Record Foreign := {
  f_kind : ForeignKind;
  f_name : string;            (* its [name] property *)
  f_status : option Z;        (* its [status] property, when a number *)
  f_message : string          (* its [message] property *)
}.

Inductive Thrown :=
| HttpError (status : Z) (message : string)
| UpstreamError (upstream : Upstream) (status : Z) (message : string)
| Native (f : Foreign).

Definition instanceof_Error (e : Thrown) : bool :=
  match e with
  | HttpError _ _ | UpstreamError _ _ _ => true
  | Native f => match f_kind f with NotAnError => false | _ => true end
  end.

Definition instanceof_HttpError (e : Thrown) : bool :=
  match e with HttpError _ _ => true | _ => false end.

Definition instanceof_DOMException (e : Thrown) : bool :=
  match e with
  | Native f => match f_kind f with DOMException => true | _ => false end
  | _ => false
  end.

Definition error_name (e : Thrown) : string :=
  match e with
  | HttpError _ _ => "HttpError"
  | UpstreamError _ _ _ => "UpstreamError"
  | Native f => f_name f
  end.

Definition error_message (e : Thrown) : string :=
  match e with
  | HttpError _ m | UpstreamError _ _ m => m
  | Native f => f_message f
  end.

(** [error.status] when [typeof error.status === "number"]. *)
Definition error_status (e : Thrown) : option Z :=
  match e with
  | HttpError s _ | UpstreamError _ s _ => Some s
  | Native f => f_status f
  end.

(** What [fetch] and a body read reject with once the signal has fired. *)
Definition AbortError : Thrown :=
  Native {| f_kind := DOMException; f_name := "AbortError";
            f_status := None; f_message := "This operation was aborted" |}.

(** What [toISOString] throws on an Invalid Date. *)
Definition RangeError_invalid_time : Thrown :=
  Native {| f_kind := OtherError; f_name := "RangeError";
            f_status := None; f_message := "Invalid time value" |}.

(** What iterating a JSON value that is not an array throws. *)
Definition TypeError_not_iterable : Thrown :=
  Native {| f_kind := OtherError; f_name := "TypeError";
            f_status := None; f_message := "pageCommits is not iterable" |}.

(** What the initialization of a [Response] throws for a status outside
    200..599 (the wording is Node's). *)
Definition RangeError_status : Thrown :=
  Native {| f_kind := OtherError; f_name := "RangeError";
            f_status := None;
            f_message :=
              "init[" ++ String (chr 34) "status"
              ++ String (chr 34) "] must be in the range of 200 to 599, inclusive."
         |}.

(** What it throws for a status that admits no body, when given a body. *)
Definition TypeError_null_body_status (status : Z) : Thrown :=
  Native {| f_kind := OtherError; f_name := "TypeError";
            f_status := None;
            f_message :=
              "Response constructor: Invalid response status code "
              ++ of_Z status |}.

(* ================================================================== *)
(** ** Data (types/report and the host's commit records) *)
(* ================================================================== *)

Record CommitAuthor := {
  login : option string;
  name : option string
}.

Record CommitSummary := {
  sha : string;
  date : string;
  author : CommitAuthor;
  message : string;
  summary_line : string;
  is_merge : bool
}.

Record ReportMeta := {
  commit_count : Z;
  model : string;
  generated_at : string;
  source : string
}.

Record DeployReportResponse := {
  repo : string;
  start : string;
  end_ : string;
  commits : list CommitSummary;
  summary_html : string;
  meta : ReportMeta
}.

(** [GitHubCommit]: a raw record of the host.  An absent or null property is
    [None]. *)
Record GitPerson := {
  p_name : option string;
  p_email : option string;
  p_date : option string
}.

Record GitCommitData := {
  c_author : option GitPerson;
  c_committer : option GitPerson;
  c_message : option string
}.

Record GitAccount := {
  a_login : option string
}.

Record GitHubCommit := {
  g_sha : string;
  g_commit : GitCommitData;
  g_author : option GitAccount;
  g_parents : option (list string)   (* one entry per recorded parent *)
}.

(* ================================================================== *)
(** ** The outside world: host, model, clock *)
(* ================================================================== *)

(** The query the retrieval sends for one page. *)
Record HostRequest := {
  q_repo : string;
  q_token : string;
  q_since : string;
  q_until : string;
  q_per_page : Z;
  q_page : Z
}.

(** A parsed JSON body, as far as the program looks at it: an array of commit
    records, or another value with its [message] property when that is a
    string.  The other value is an object, a number, a boolean or null,
    none of which the program can iterate.  A body that is a bare JSON
    string, which JavaScript iterates character by character, is outside
    the type the program declares for a page ([GitHubCommit[]]) and is not
    represented. *)
Inductive Json :=
| JsonCommits (records : list GitHubCommit)
| JsonOther (msg : option string).

Inductive Body :=
| Parses (j : Json)
| Unparseable (e : Foreign).

Record Response := {
  status : Z;
  body : Body;
  body_delay : N     (* milliseconds that reading the body takes *)
}.

Inductive FetchOutcome :=
| Responds (delay : N) (r : Response)
| Rejects (delay : N) (e : Foreign).

Record ModelRequest := {
  m_apiKey : string;
  m_model : string;
  m_system : string;
  m_prompt : string
}.

Inductive ModelOutcome :=
| Generates (delay : N) (text : string)
| Fails (delay : N) (e : Foreign).

(** Process-wide configuration and the collaborators of one request. *)
Record Env := {
  GITHUB_REPO : option string;
  GITHUB_TOKEN : option string;
  OPENAI_API_KEY : option string;
  OPENAI_MODEL : option string;
  OPENAI_REALTIME_MODEL : option string;
  github_api : HostRequest -> FetchOutcome;
  generateText : ModelRequest -> ModelOutcome;
  arrival : Z;             (* wall-clock time, in ms, when handling starts *)
  platform : Platform
}.

Inductive Call :=
| HostCall (q : HostRequest)
| ModelCall (q : ModelRequest).

(** The state one request handling threads through: time spent waiting since
    the handler started, the armed timer (the instant at which it fires),
    whether the abort signal has fired, and the network calls issued so far,
    oldest first. *)
Record World := {
  elapsed : Z;
  timer : option Z;
  aborted : bool;
  calls : list Call
}.

Definition boot : World :=
  {| elapsed := 0; timer := None; aborted := false; calls := [] |}.

(* ================================================================== *)
(** ** A monad for asynchronous code that may throw *)
(* ================================================================== *)

Inductive Outcome (A : Type) :=
| Returned (a : A)
| Threw (e : Thrown)
| OutOfFuel.

Arguments Returned {A} a.
Arguments Threw {A} e.
Arguments OutOfFuel {A}.

Definition M (A : Type) : Type := World -> Outcome A * World.

Definition ret {A} (a : A) : M A := fun w => (Returned a, w).

Definition throw {A} (e : Thrown) : M A := fun w => (Threw e, w).

Definition bind {A B} (m : M A) (k : A -> M B) : M B :=
  fun w =>
    match m w with
    | (Returned a, w') => k a w'
    | (Threw e, w') => (Threw e, w')
    | (OutOfFuel, w') => (OutOfFuel, w')
    end.

Notation "x <- m ;; k" := (bind m (fun x => k))
  (at level 61, m at next level, right associativity).
Notation "m ;;; k" := (bind m (fun _ => k))
  (at level 61, right associativity).

(** [try { m } catch (error) { handler error }]. *)
Definition try_catch {A} (m : M A) (handler : Thrown -> M A) : M A :=
  fun w =>
    match m w with
    | (Threw e, w') => handler e w'
    | r => r
    end.

(** [try { m } finally { cleanup }] for a cleanup that cannot throw. *)
Definition finally {A} (m : M A) (cleanup : World -> World) : M A :=
  fun w => let (r, w') := m w in (r, cleanup w').

Definition record_call (c : Call) : M unit :=
  fun w => (Returned tt,
            {| elapsed := elapsed w; timer := timer w; aborted := aborted w;
               calls := List.app (calls w) [c] |}).

(** Waiting [d] milliseconds for an operation that was given the abort
    signal.  If the signal has already fired the operation rejects at once;
    if the timer fires before the operation completes, the signal fires at
    that instant and the operation rejects; otherwise time passes.  The
    timer was armed before any operation started, so when both fall due at
    the same instant its callback runs first: the operation completes only
    strictly before the timer is due. *)
Definition await_abortable (d : N) : M unit :=
  fun w =>
    if aborted w then (Threw AbortError, w)
    else
      let done := elapsed w + Z.of_N d in
      match timer w with
      | Some t =>
          if t <=? done
          then (Threw AbortError,
                {| elapsed := t; timer := None; aborted := true;
                   calls := calls w |})
          else (Returned tt,
                {| elapsed := done; timer := timer w; aborted := aborted w;
                   calls := calls w |})
      | None =>
          (Returned tt,
           {| elapsed := done; timer := None; aborted := aborted w;
              calls := calls w |})
      end.

(** [setTimeout(() => abortController.abort(), ms)]. *)
Definition setTimeout_abort (ms : Z) : M unit :=
  fun w => (Returned tt,
            {| elapsed := elapsed w; timer := Some (elapsed w + ms);
               aborted := aborted w; calls := calls w |}).

(** [clearTimeout(timeout)]. *)
Definition clearTimeout (w : World) : World :=
  {| elapsed := elapsed w; timer := None; aborted := aborted w;
     calls := calls w |}.

(** [abortController.signal.aborted]. *)
Definition signal_aborted : M bool := fun w => (Returned (aborted w), w).

Inductive Step (S R : Type) :=
| Continue (s : S)
| Break (r : R).

Arguments Continue {S R} s.
Arguments Break {S R} r.

(** [while (true) { body }], at most [fuel] iterations. *)
Fixpoint while_true {S R} (fuel : nat) (body : S -> M (Step S R)) (s : S)
  : M R :=
  match fuel with
  | O => fun w => (OutOfFuel, w)
  | Datatypes.S fuel' =>
      step <- body s ;;
      match step with
      | Continue s' => while_true fuel' body s'
      | Break r => ret r
      end
  end.

(** [a ?? b]. *)
Definition nullish {A} (a : option A) (b : A) : A :=
  match a with Some x => x | None => b end.

(** [a?.f] for an optional property [f] of an optional object. *)
Definition opt_get {A B} (a : option A) (f : A -> option B) : option B :=
  match a with Some x => f x | None => None end.

(** [a ?? b] where both may be absent. *)
Definition nullish_opt {A} (a b : option A) : option A :=
  match a with Some x => Some x | None => b end.

(** [!s] for a string that may be null or undefined. *)
Definition falsy (s : option string) : bool :=
  match s with Some x => is_empty x | None => true end.

(** The current wall-clock time: [new Date()]. *)
Definition Date_now (env : Env) : M Z :=
  fun w => (Returned (arrival env + elapsed w), w).

(* ================================================================== *)
(** ** Commit retrieval (lib/github) *)
(* ================================================================== *)

Module Github.

Definition PER_PAGE : Z := 100.

(** [response.ok]. *)
Definition ok (r : Response) : bool :=
  (200 <=? status r) && (status r <=? 299).

(** [await fetch(url, {headers, signal})]. *)
Definition fetch (o : FetchOutcome) : M Response :=
  match o with
  | Responds d r => await_abortable d ;;; ret r
  | Rejects d e => await_abortable d ;;; throw (Native e)
  end.

(** [await response.json()]. *)
Definition json (r : Response) : M Json :=
  await_abortable (body_delay r) ;;;
  match body r with
  | Parses j => ret j
  | Unparseable e => throw (Native e)
  end.

(** [typeof body?.message === "string" ? body.message : fallback]. *)
Definition message_or (j : Json) (fallback : string) : string :=
  match j with
  | JsonOther (Some m) => m
  | _ => fallback
  end.

(** The message read from the body of a failed response:
    [await response.json().catch(() => ({}))] followed by the test above. *)
Definition body_message (b : Body) (fallback : string) : string :=
  match b with
  | Parses j => message_or j fallback
  | Unparseable _ => fallback
  end.

Definition rate_limit_fallback : string :=
  "GitHub API rate limit or permission error.".

Definition failure_fallback (status : Z) : string :=
  cat ["GitHub API request failed with status "; of_Z status; "."].

Definition raw_message (commit : GitHubCommit) : string :=
  nullish (c_message (g_commit commit)) "".

(** [message.split("\n")[0]?.trim() ?? ""]. *)
Definition summaryLine_of (message : string) : string :=
  match split LF message with
  | first :: _ => trim first
  | [] => ""
  end.

Definition parent_count (commit : GitHubCommit) : option Z :=
  option_map (fun ps => Z.of_nat (length ps)) (g_parents commit).

Definition isMerge (commit : GitHubCommit) : bool :=
  match g_parents commit with
  | Some ps => 1 <? Z.of_nat (length ps)
  | None => false
  end
  || startsWith (toLowerCase (summaryLine_of (raw_message commit))) "merge".

(** The record pushed for a commit that is kept; [now] is the value of
    [new Date().toISOString()] at that moment. *)
Definition normalize (now : string) (commit : GitHubCommit) : CommitSummary :=
  let message := raw_message commit in
  {| sha := g_sha commit;
     date :=
       nullish
         (nullish_opt (opt_get (c_author (g_commit commit)) p_date)
                      (opt_get (c_committer (g_commit commit)) p_date))
         now;
     author :=
       {| login := opt_get (g_author commit) a_login;
          name :=
            nullish_opt (opt_get (c_author (g_commit commit)) p_name)
                        (opt_get (c_committer (g_commit commit)) p_name) |};
     message := message;
     summary_line := summaryLine_of message;
     is_merge := false |}.

(** One turn of [for (const commit of pageCommits)]. *)
Definition push_commit (now : string) (normalized : list CommitSummary)
           (commit : GitHubCommit) : list CommitSummary :=
  if isMerge commit then normalized            (* continue *)
  else List.app normalized [normalize now commit].

Definition for_each_commit (now : string) (pageCommits : list GitHubCommit)
           (normalized : list CommitSummary) : list CommitSummary :=
  fold_left (push_commit now) pageCommits normalized.

Section Fetch.
Variable env : Env.
Variables repo token since until : string.

Definition page_request (page : Z) : HostRequest :=
  {| q_repo := repo; q_token := token; q_since := since;
     q_until := until; q_per_page := PER_PAGE; q_page := page |}.

(** The body of the [while (true)] loop, on the loop variables [page]
    and [normalized]. *)
Definition fetch_page (vars : Z * list CommitSummary)
  : M (Step (Z * list CommitSummary) (list CommitSummary)) :=
  let (page, normalized) := vars in
  record_call (HostCall (page_request page)) ;;;
  response <- fetch (github_api env (page_request page)) ;;
  if (status response =? 403) || (status response =? 429) then
    body <- try_catch (json response) (fun _ => ret (JsonOther None)) ;;
    let message := message_or body rate_limit_fallback in
    if includes (toLowerCase message) "secondary rate limit"
    then throw (HttpError 429 message)
    else throw (UpstreamError github (status response) message)
  else if negb (ok response) then
    body <- try_catch (json response) (fun _ => ret (JsonOther None)) ;;
    let message := message_or body (failure_fallback (status response)) in
    throw (UpstreamError github (status response) message)
  else
    parsed <- json response ;;
    match parsed with
    | JsonOther _ => throw TypeError_not_iterable
    | JsonCommits pageCommits =>
        now <- Date_now env ;;
        let normalized' :=
          for_each_commit (iso_of_ms now) pageCommits normalized in
        if Z.of_nat (length pageCommits) <? PER_PAGE
        then ret (Break normalized')
        else ret (Continue (page + 1, normalized'))
    end.

Definition fetchCommitsFromGitHub (fuel : nat) : M (list CommitSummary) :=
  while_true fuel fetch_page (1, []).

End Fetch.

(** The raw records a response carries, and those the host returned to the
    queries among a list of calls, in order. *)
Definition records_of (o : FetchOutcome) : list GitHubCommit :=
  match o with
  | Responds _ r =>
      match body r with
      | Parses (JsonCommits records) => records
      | _ => []
      end
  | Rejects _ _ => []
  end.

Definition served (env : Env) (cs : list Call) : list GitHubCommit :=
  flat_map (fun c => match c with
                     | HostCall q => records_of (github_api env q)
                     | ModelCall _ => []
                     end) cs.

Definition kept (records : list GitHubCommit) : list GitHubCommit :=
  filter (fun c => negb (isMerge c)) records.

End Github.

Import Github.

(* ================================================================== *)
(** ** Summary composition (lib/openai-summary) *)
(* ================================================================== *)

Module Summary.

Definition NL : string := String LF "".

Fixpoint spaces (n : nat) : string :=
  match n with O => "" | S n' => String " " (spaces n') end.

(** [const [title, ...rest] = message.split("\n")]. *)
Definition extractCommitDetails (message : string) : string * string :=
  match split LF message with
  | title :: rest =>
      (or_else (trim title) "Untitled commit", trim (join NL rest))
  | [] => ("Untitled commit", "")
  end.

(** [commit.date ? new Date(commit.date).toISOString().slice(0, 10)
    : unknown]; [None] when [toISOString] throws its RangeError. *)
Definition day_of (pf : Platform) (unknown : string) (commit : CommitSummary)
  : option string :=
  if is_empty (date commit) then Some unknown
  else option_map (slice0 10) (toISOString (Date_of_string pf (date commit))).

(** The separator between date and title, as the bytes in the source. *)
Definition bullet : string :=
  of_list (map chr [195; 162; 226; 130; 172; 194; 162]%nat).

Definition bullet_item (pf : Platform) (commit : CommitSummary)
  : option string :=
  let (title, description) := extractCommitDetails (message commit) in
  match day_of pf "????-??-??" commit with
  | Some day =>
      let detail := or_else description "No additional description provided." in
      Some (cat [day; " "; bullet; " "; title; NL; "Description: "; detail])
  | None => None
  end.

(** [xs.map(f)] for a callback that may throw: the first throw wins. *)
Fixpoint map_throwing {A B} (f : A -> option B) (xs : list A)
  : option (list B) :=
  match xs with
  | [] => Some []
  | x :: xs' =>
      match f x with
      | Some y => option_map (cons y) (map_throwing f xs')
      | None => None
      end
  end.

Definition buildBulletList (pf : Platform) (commits : list CommitSummary)
  : option string :=
  option_map (join NL) (map_throwing (bullet_item pf) commits).

Definition escape_char (c : ascii) : string :=
  if Ascii.eqb c "&" then "&amp;"
  else if Ascii.eqb c "<" then "&lt;"
  else if Ascii.eqb c ">" then "&gt;"
  else if Ascii.eqb c (chr 34) then "&quot;"
  else if Ascii.eqb c "'" then "&#39;"
  else String c "".

Fixpoint escapeHtml (input : string) : string :=
  match input with
  | EmptyString => EmptyString
  | String c rest => escape_char c ++ escapeHtml rest
  end.

(** The object [grouped]: its own string keys in insertion order. *)
Definition Grouped := list (string * list CommitSummary).

(** [acc[date] = acc[date] || []; acc[date].push(commit)]. *)
Fixpoint group_push (key : string) (commit : CommitSummary) (acc : Grouped)
  : Grouped :=
  match acc with
  | [] => [(key, [commit])]
  | (k, items) :: rest =>
      if String.eqb k key then (k, List.app items [commit]) :: rest
      else (k, items) :: group_push key commit rest
  end.

(** [commits.reduce(..., {})]; [None] when a date makes it throw. *)
Fixpoint group_by_day (pf : Platform) (commits : list CommitSummary)
         (acc : Grouped) : option Grouped :=
  match commits with
  | [] => Some acc
  | commit :: rest =>
      match day_of pf "Unknown date" commit with
      | Some key => group_by_day pf rest (group_push key commit acc)
      | None => None
      end
  end.

(** [entries.sort(([a], [b]) => (a <= b ? -1 : 1))].  The keys of an object
    are distinct, and on distinct keys the comparator is a strict total
    order, so every sorting algorithm produces the same array; insertion
    is one of them. *)
Fixpoint sort_insert (e : string * list CommitSummary) (sorted : Grouped)
  : Grouped :=
  match sorted with
  | [] => [e]
  | h :: t =>
      if String.leb (fst e) (fst h) then e :: sorted
      else h :: sort_insert e t
  end.

Definition sort_by_key (entries : Grouped) : Grouped :=
  fold_right sort_insert [] entries.

(** [commit.summary_line || commit.message.split("\n")[0] || commit.sha]. *)
Definition item_text (commit : CommitSummary) : string :=
  or_else (summary_line commit)
    (or_else (hd "" (split LF (message commit))) (sha commit)).

Definition render_item (commit : CommitSummary) : string :=
  cat ["<li><strong>"; escapeHtml (item_text commit); "</strong></li>"].

Definition render_article (entry : string * list CommitSummary) : string :=
  let (day, items) := entry in
  cat [NL; spaces 8; "<article>"; NL;
       spaces 10; "<h3>"; day; "</h3>"; NL;
       spaces 10; "<ul>"; NL;
       spaces 12; join "" (map render_item items); NL;
       spaces 10; "</ul>"; NL;
       spaces 8; "</article>"; NL;
       spaces 6].

Definition buildFallbackSummary (pf : Platform) (repo start end_ : string)
           (commits : list CommitSummary) : option string :=
  match group_by_day pf commits [] with
  | Some grouped =>
      let sections := join "" (map render_article (sort_by_key grouped)) in
      let startDate := toLocaleDateString pf (Date_of_string pf start) in
      let endDate := toLocaleDateString pf (Date_of_string pf end_) in
      Some (cat [NL; spaces 4; "<section>"; NL;
                 spaces 6; "<p>Activity covering "; escapeHtml startDate;
                 " to "; escapeHtml endDate; ".</p>"; NL;
                 spaces 6;
                 or_else sections "<p>No non-merge commits were available.</p>";
                 NL; spaces 4; "</section>"; NL;
                 spaces 2])
  | None => None
  end.

(** A synchronous computation that throws a RangeError when [None]. *)
Definition or_RangeError {A} (o : option A) : M A :=
  match o with
  | Some a => ret a
  | None => throw RangeError_invalid_time
  end.

Definition systemPrompt (repo : string) : string :=
  join " "
    [cat ["You are an internal release reporter for the GitHub repository ";
          repo; "."];
     "For each commit bullet you receive, render an <article> with:";
     "- An <h3> showing the commit title.";
     "- A paragraph or short list immediately below that explains what shipped, using both the title and the description text (but do not repeat the full description verbatim).";
     "Feel free to group related commits under shared sections if it improves readability, but keep the per-commit headings intact.";
     "Highlight impact, avoid assumptions, and never invent work that is not grounded in the provided bullet.";
     "Respond with semantic HTML only (section, article, h2-h4, p, ul, li). No inline styles, scripts, or markdown."].

Section Generate.
Variable env : Env.

(** [await generateText({model, system, prompt, abortSignal: signal})]. *)
Definition call_model (q : ModelRequest) : M string :=
  record_call (ModelCall q) ;;;
  match generateText env q with
  | Generates d text => await_abortable d ;;; ret text
  | Fails d e => await_abortable d ;;; throw (Native e)
  end.

(** The [catch] clause around the model call. *)
Definition rethrow_model_error (error : Thrown) : M string :=
  if instanceof_HttpError error
     || (instanceof_Error error && String.eqb (error_name error) "AbortError")
  then throw error
  else
    let status := nullish (error_status error) 502 in
    throw (UpstreamError openai status
             (if instanceof_Error error then error_message error
              else "OpenAI text completion failed.")).

Definition generateSummaryHtml (model apiKey repo start end_ : string)
           (commits : list CommitSummary) : M string :=
  if is_empty apiKey then
    throw (HttpError 500 "OPENAI_API_KEY is not configured.")
  else if is_empty model then
    throw (HttpError 500 "OpenAI model is not configured.")
  else if Z.of_nat (length commits) =? 0 then
    ret (cat ["<section><p>No commits found between "; start; " and ";
              end_; " for "; repo; ".</p></section>"])
  else
    bulletList <- or_RangeError (buildBulletList (platform env) commits) ;;
    let userPrompt :=
      join NL [cat ["Date range: "; start; " to "; end_; "."];
               "Commits (chronological):"; bulletList] in
    try_catch
      (text <- call_model {| m_apiKey := apiKey; m_model := model;
                             m_system := systemPrompt repo;
                             m_prompt := userPrompt |} ;;
       let raw := trim text in
       if is_empty raw then
         or_RangeError
           (buildFallbackSummary (platform env) repo start end_ commits)
       else
         ret (if startsWith raw "<" then raw
              else cat ["<section><p>"; escapeHtml raw; "</p></section>"]))
      rethrow_model_error.

End Generate.

(** The day key under which the fallback files a commit. *)
Definition day_key (pf : Platform) (commit : CommitSummary) : string :=
  match day_of pf "Unknown date" commit with
  | Some key => key
  | None => EmptyString
  end.

(** [grouped[key]], or the empty array when the key is absent. *)
Fixpoint group_items (key : string) (grouped : Grouped) : list CommitSummary :=
  match grouped with
  | [] => []
  | (k, items) :: rest =>
      if String.eqb k key then items else group_items key rest
  end.

(** The commits of a list filed under a day key, in order. *)
Definition of_day (pf : Platform) (key : string)
           (commits : list CommitSummary) : list CommitSummary :=
  filter (fun c => String.eqb (day_key pf c) key) commits.

(** The fallback markup around the rendered groups. *)
Definition fallback_page (pf : Platform) (start end_ : string)
           (groups : Grouped) : string :=
  cat [NL; spaces 4; "<section>"; NL;
       spaces 6; "<p>Activity covering ";
       escapeHtml (toLocaleDateString pf (Date_of_string pf start));
       " to ";
       escapeHtml (toLocaleDateString pf (Date_of_string pf end_));
       ".</p>"; NL;
       spaces 6; join EmptyString (map render_article groups);
       NL; spaces 4; "</section>"; NL;
       spaces 2].

End Summary.

Import Summary.

(* ================================================================== *)
(** ** The route handler (GET /deploy-report) *)
(* ================================================================== *)

Module Route.

Inductive Payload :=
| ErrorBody (message : string)
| ReportBody (report : DeployReportResponse).

Record NextResponse := {
  http_status : Z;
  payload : Payload
}.

Definition MAX_WINDOW_DAYS : Z := 30.
Definition TOTAL_TIMEOUT_MS : Z := 120000.

Definition toIsoRange (start end_ : string) : string * string :=
  (start ++ "T00:00:00Z", end_ ++ "T23:59:59Z").

(** [NextResponse.json(body, { status })] initializes a [Response] with the
    status it is given.  The status is first converted to the type
    [unsigned short] of the platform: the remainder of its division by 2^16
    (with the sign of the status, as Node computes it). *)
Definition unsigned_short (n : Z) : Z := Z.rem n 65536.

(** The initialization then throws a RangeError for a status outside
    200..599 and, the body being present, a TypeError for a status that
    admits no body (204, 205, 304); otherwise the response carries the
    converted status. *)
Definition init_status (status : Z) : Thrown + Z :=
  let s := unsigned_short status in
  if (s <? 200) || (599 <? s) then inl RangeError_status
  else if (s =? 204) || (s =? 205) || (s =? 304)
       then inl (TypeError_null_body_status s)
       else inr s.

(** What [buildErrorResponse(message, status)] asks [NextResponse.json]
    for: the body [{ message }] and the status.  It is the response
    returned whenever the initialization takes the status as it is, as for
    every status the handler writes itself (400, 413, 500, 502, 504); where
    the handler passes on the status of an error, in its [catch] clause,
    the initialization is run ([on_error]). *)
Definition buildErrorResponse (message : string) (status : Z) : NextResponse :=
  {| http_status := status; payload := ErrorBody message |}.

(** [NextResponse.json(responseBody)]. *)
Definition NextResponse_json (report : DeployReportResponse) : NextResponse :=
  {| http_status := 200; payload := ReportBody report |}.

Definition normalizeModelName (input : option string) : option string :=
  if falsy input then None
  else
    let trimmed := trim (nullish input EmptyString) in
    if is_empty trimmed then None
    else
      let segments := split "/" trimmed in
      Some (or_else (last segments EmptyString) trimmed).

Definition timeout_message : string := "Processing exceeded the 120s timeout.".

Section Handler.
Variable env : Env.
Variable fuel : nat.

(** The object [responseBody]; [now] is the value of [new Date()]. *)
Definition responseBody (repo : string) (model : option string)
           (start end_ : string) (commits : list CommitSummary)
           (summaryHtml : string) (now : Z) : DeployReportResponse :=
  {| repo := repo;
     start := start;
     end_ := end_;
     commits := commits;
     summary_html := summaryHtml;
     meta := {| commit_count := Z.of_nat (length commits);
                model := nullish model "unknown";
                generated_at := iso_of_ms now;
                source := "github_live" |} |}.

Definition empty_range_sentence (start end_ : string) : string :=
  cat ["<section><p>No commits found between "; start; " and "; end_;
       ".</p></section>"].

(** The body of the outer [try].  Nothing in the assembly of the response
    throws ([new Date()] is always a valid date), so the inner [try/catch]
    around it has no effect and is not represented. *)
Definition stages (repo token : string) (model apiKey : option string)
           (start end_ : string) : M NextResponse :=
  let (startIso, endIso) := toIsoRange start end_ in
  commits <- fetchCommitsFromGitHub env repo token startIso endIso fuel ;;
  summaryHtml <-
    (if 0 <? Z.of_nat (length commits)
     then generateSummaryHtml env (nullish model EmptyString)
            (nullish apiKey EmptyString) repo start end_ commits
     else ret (empty_range_sentence start end_)) ;;
  now <- Date_now env ;;
  ret (NextResponse_json
         (responseBody repo model start end_ commits summaryHtml now)).

(** The outer [catch (error)]: the response each branch asks
    [buildErrorResponse] for; [fired] is [abortController.signal.aborted] at
    that moment. *)
Definition error_response (fired : bool) (error : Thrown) : NextResponse :=
  if fired then buildErrorResponse timeout_message 504
  else
    match error with
    | HttpError status message => buildErrorResponse message status
    | UpstreamError _ status message =>
        buildErrorResponse message (if 400 <=? status then status else 502)
    | Native f =>
        if instanceof_DOMException error && String.eqb (f_name f) "AbortError"
        then buildErrorResponse timeout_message 504
        else
          buildErrorResponse
            (if instanceof_Error error then f_message f
             else "Unexpected error while generating deploy report.")
            502
    end.

(** The [catch] clause as it runs: the response asked for is returned, with
    the status its initialization gives it; when the initialization throws,
    the clause itself throws, and the handler rejects with that error
    (after its [finally]). *)
Definition on_error (error : Thrown) : M NextResponse :=
  fired <- signal_aborted ;;
  let asked := error_response fired error in
  match init_status (http_status asked) with
  | inl thrown => throw thrown
  | inr s => ret {| http_status := s; payload := payload asked |}
  end.

(** What the handler has in hand once every check before the [try] has
    passed: the two dates and the configuration it read. *)
Record Accepted := {
  ok_start : string;
  ok_end : string;
  ok_repo : string;
  ok_token : string;
  ok_model : option string;
  ok_apiKey : option string
}.

(** The handler up to the [try]: each early [return] is a response on the
    left. *)
Definition preflight (start_param end_param : option string)
  : NextResponse + Accepted :=
  if falsy start_param || falsy end_param then
    inl (buildErrorResponse "Both start and end dates are required." 400)
  else
    let start := nullish start_param EmptyString in
    let end_ := nullish end_param EmptyString in
    if negb (matches_date_only start) || negb (matches_date_only end_) then
      inl (buildErrorResponse "Dates must be formatted as YYYY-MM-DD." 400)
    else
      match Date_of_string (platform env) (start ++ "T00:00:00Z"),
            Date_of_string (platform env) (end_ ++ "T00:00:00Z") with
      | Some startDate, Some endDate =>
          if endDate <? startDate then
            inl (buildErrorResponse "Start date cannot be after end date." 400)
          else
            let daySpan := (endDate - startDate) / msPerDay + 1 in
            if MAX_WINDOW_DAYS <? daySpan then
              inl (buildErrorResponse
                     (cat ["Date span cannot exceed "; of_Z MAX_WINDOW_DAYS;
                           " days."]) 413)
            else
              let repo := GITHUB_REPO env in
              let token := GITHUB_TOKEN env in
              let apiKey := OPENAI_API_KEY env in
              let model :=
                normalizeModelName
                  (nullish_opt (OPENAI_MODEL env) (OPENAI_REALTIME_MODEL env)) in
              if falsy repo then
                inl (buildErrorResponse "GITHUB_REPO is not configured." 500)
              else if falsy token then
                inl (buildErrorResponse "GITHUB_TOKEN is not configured." 500)
              else
                inr {| ok_start := start; ok_end := end_;
                       ok_repo := nullish repo EmptyString;
                       ok_token := nullish token EmptyString;
                       ok_model := model; ok_apiKey := apiKey |}
      | _, _ =>
          inl (buildErrorResponse "Start and end dates must be valid." 400)
      end.

Definition GET (start_param end_param : option string) : M NextResponse :=
  match preflight start_param end_param with
  | inl response => ret response
  | inr a =>
      setTimeout_abort TOTAL_TIMEOUT_MS ;;;
      finally
        (try_catch
           (stages (ok_repo a) (ok_token a) (ok_model a) (ok_apiKey a)
                   (ok_start a) (ok_end a))
           on_error)
        clearTimeout
  end.

(** One request, handled from a fresh state. *)
Definition handle (start_param end_param : option string)
  : Outcome NextResponse * World :=
  GET start_param end_param boot.

End Handler.

(** The state in which the two stages start: the timer has just been armed. *)
Definition armed : World :=
  {| elapsed := 0; timer := Some TOTAL_TIMEOUT_MS; aborted := false;
     calls := [] |}.

End Route.

Import Route.

(* ================================================================== *)
(** ** The page script that calls the route (its date validation) *)
(* ================================================================== *)

Module Page.

Definition MAX_DATE_RANGE_DAYS : Z := 30.

(** What [validateDates] leaves on the page: the texts under the two date
    inputs, the range message when it is displayed, and whether the button
    is disabled. *)
Record Form := {
  startDateError : string;
  endDateError : string;
  rangeError : option string;
  generateBtn_disabled : bool
}.

(** [Math.ceil(a / b)] for integers, [b] positive. *)
Definition ceil_div (a b : Z) : Z := - ((- a) / b).

(** [validateDates()], on the values of the two date inputs.  A comparison
    or a difference with an Invalid Date is false or NaN, and NaN is not
    greater than 30. *)
Definition validateDates (pf : Platform) (start_value end_value : string)
  : Form :=
  let startDate := Date_of_string pf start_value in
  let endDate := Date_of_string pf end_value in
  if is_empty start_value || is_empty end_value then
    {| startDateError :=
         if is_empty start_value then "Start date is required" else EmptyString;
       endDateError :=
         if is_empty end_value then "End date is required" else EmptyString;
       rangeError := None;
       generateBtn_disabled := true |}
  else
    let inverted :=
      match startDate, endDate with
      | Some s, Some e => e <? s
      | _, _ => false
      end in
    let daysDiff :=
      match startDate, endDate with
      | Some s, Some e => Some (ceil_div (e - s) (1000 * 60 * 60 * 24) + 1)
      | _, _ => None
      end in
    let over :=
      match daysDiff with
      | Some n => MAX_DATE_RANGE_DAYS <? n
      | None => false
      end in
    let isValid := negb inverted && negb over in
    {| startDateError := EmptyString;
       endDateError :=
         if inverted then "End date must be after start date" else EmptyString;
       rangeError :=
         match daysDiff with
         | Some n =>
             if MAX_DATE_RANGE_DAYS <? n
             then Some (cat ["Date range cannot exceed ";
                             of_Z MAX_DATE_RANGE_DAYS;
                             " days. You selected "; of_Z n; " days."])
             else None
         | None => None
         end;
       generateBtn_disabled := negb isValid |}.

End Page.

(* ================================================================== *)
(** ** Concrete environments used to exercise the program *)
(* ================================================================== *)

Module Scenario.

Definition month_name (m : Z) : string :=
  nth (Z.to_nat (m - 1))
    ["January"; "February"; "March"; "April"; "May"; "June"; "July";
     "August"; "September"; "October"; "November"; "December"] "?".

(** An engine whose process runs in UTC and which rejects every string
    outside the engine-independent forms. *)
Definition utc_platform : Platform :=
  {| parse_other := fun _ => None;
     toLocaleDateString := fun d =>
       match d with
       | Some t =>
           let '(y, m, dd) := civil_from_days (t / msPerDay) in
           cat [month_name m; " "; of_Z dd; ", "; of_Z y]
       | None => "Invalid Date"
       end |}.

Definition person (n : string) (d : option string) : GitPerson :=
  {| p_name := Some n; p_email := None; p_date := d |}.

Definition raw_commit (id : string) (msg : option string)
           (when : option string) (parents : list string) : GitHubCommit :=
  {| g_sha := id;
     g_commit := {| c_author := Some (person "Ada" when);
                    c_committer := Some (person "Ada" when);
                    c_message := msg |};
     g_author := Some {| a_login := Some "ada" |};
     g_parents := Some parents |}.

Definition page_of (records : list GitHubCommit) : FetchOutcome :=
  Responds 200 {| status := 200; body := Parses (JsonCommits records);
                  body_delay := 50 |}.

Definition failure (code : Z) (msg : option string) : FetchOutcome :=
  Responds 200 {| status := code; body := Parses (JsonOther msg);
                  body_delay := 50 |}.

Definition env_with (host : HostRequest -> FetchOutcome)
           (llm : ModelRequest -> ModelOutcome) (key model : option string)
           (t0 : Z) : Env :=
  {| GITHUB_REPO := Some "acme/widgets";
     GITHUB_TOKEN := Some "ghp_token";
     OPENAI_API_KEY := key;
     OPENAI_MODEL := model;
     OPENAI_REALTIME_MODEL := None;
     github_api := host;
     generateText := llm;
     arrival := t0;
     platform := utc_platform |}.

Definition model_says (text : string) : ModelRequest -> ModelOutcome :=
  fun _ => Generates 3000 text.

(** 2025-01-08T09:00:00Z and one hour later. *)
Definition t_morning : Z := 1736326800000.
Definition t_later : Z := 1736330400000.

(** A week with five ordinary commits and two merges (one by its parents,
    one by its title), on a single page. *)
Definition week_records : list GitHubCommit :=
  [raw_commit "c7" (Some "Fix <b> tag in footer") (Some "2025-01-06T10:00:00Z") ["c6"];
   raw_commit "c6" (Some "Sync branches") (Some "2025-01-05T09:00:00Z") ["c5"; "x1"];
   raw_commit "c5" (Some "Add export button") (Some "2025-01-04T23:30:00-05:00") ["c4"];
   raw_commit "c4" (Some "  MERGE pull request 12") (Some "2025-01-04T08:00:00Z") ["c3"];
   raw_commit "c3" (Some "Refactor parser") (Some "2025-01-03T08:00:00Z") ["c2"];
   raw_commit "c2" None (Some "2025-01-03T07:00:00Z") ["c1"];
   raw_commit "c1" (Some "Initial import") (Some "2025-01-02T12:00:00Z") []].

Definition week_host : HostRequest -> FetchOutcome :=
  fun q => if q_page q =? 1 then page_of week_records else page_of [].

Definition week_env (llm : ModelRequest -> ModelOutcome) : Env :=
  env_with week_host llm (Some "sk-key") (Some "openai/gpt-5") t_morning.

Definition week_fetch : Outcome (list CommitSummary) * World :=
  fetchCommitsFromGitHub (week_env (model_says "<section></section>"))
    "acme/widgets" "ghp_token" "2025-01-01T00:00:00Z" "2025-01-07T23:59:59Z"
    3 boot.

Definition returned_or {A} (o : Outcome A) (default : A) : A :=
  match o with Returned a => a | _ => default end.

Definition first_page (repo token start end_ : string) : HostRequest :=
  page_request repo token (start ++ "T00:00:00Z") (end_ ++ "T23:59:59Z") 1.

Definition week_query : HostRequest :=
  first_page "acme/widgets" "ghp_token" "2025-01-01" "2025-01-07".

(** The host answers 429 and names its secondary rate limit. *)
Definition throttled : Response :=
  {| status := 429;
     body := Parses (JsonOther (Some "You have exceeded a secondary rate limit"));
     body_delay := 50 |}.

Definition throttled_env : Env :=
  env_with (fun _ => Responds 200 throttled)
    (model_says "<section></section>") (Some "sk-key") (Some "gpt-5") t_morning.

Definition throttled_run : Outcome NextResponse * World :=
  handle throttled_env 3 (Some "2025-01-01") (Some "2025-01-07").

(** The host does not know the repository. *)
Definition not_found : Response :=
  {| status := 404; body := Parses (JsonOther (Some "Not Found"));
     body_delay := 50 |}.

Definition not_found_env : Env :=
  env_with (fun _ => Responds 200 not_found)
    (model_says "<section></section>") (Some "sk-key") (Some "gpt-5") t_morning.

Definition not_found_run : Outcome NextResponse * World :=
  handle not_found_env 3 (Some "2025-01-01") (Some "2025-01-07").

(** A quiet week: the host has no commit in the window. *)
Definition quiet_env (key model : option string) : Env :=
  env_with (fun _ => page_of []) (model_says "<section></section>")
    key model t_morning.

Definition quiet_run (key model : option string)
  : Outcome NextResponse * World :=
  handle (quiet_env key model) 3 (Some "2025-01-01") (Some "2025-01-07").

Definition week_accepted (model apiKey : option string) : Accepted :=
  {| ok_start := "2025-01-01"; ok_end := "2025-01-07";
     ok_repo := "acme/widgets"; ok_token := "ghp_token";
     ok_model := model; ok_apiKey := apiKey |}.

(** The busy week, with the model credential left out. *)
Definition keyless_env : Env :=
  env_with week_host (model_says "<section></section>") None
    (Some "openai/gpt-5") t_morning.

Definition keyless_run : Outcome NextResponse * World :=
  handle keyless_env 3 (Some "2025-01-01") (Some "2025-01-07").

Definition week_run : Outcome NextResponse * World :=
  handle (week_env (model_says "<section><h2>Week</h2></section>")) 3
    (Some "2025-01-01") (Some "2025-01-07").

(** A host whose only record carries no date, handled at two moments. *)
Definition undated_host : HostRequest -> FetchOutcome :=
  fun _ => page_of [raw_commit "u1" (Some "Tidy build scripts") None ["u0"]].

Definition undated_env (t0 : Z) : Env :=
  env_with undated_host (model_says "<section></section>") (Some "sk-key")
    (Some "gpt-5") t0.

Definition undated_run (t0 : Z) : Outcome NextResponse * World :=
  handle (undated_env t0) 3 (Some "2025-01-01") (Some "2025-01-07").

(** The busy week handled at a given moment, by a model that answers in a
    given time. *)
Definition week_env_at (t0 : Z) (think : N) : Env :=
  env_with week_host (fun _ => Generates think "<section></section>")
    (Some "sk-key") (Some "gpt-5") t0.

Definition week_run_at (t0 : Z) (think : N) : Outcome NextResponse * World :=
  handle (week_env_at t0 think) 3 (Some "2025-01-01") (Some "2025-01-07").

(** The busy week summarized by a model that answers with white space only. *)
Definition blank_env : Env := week_env (model_says (String " " (String LF " "))).

Definition blank_run : Outcome NextResponse * World :=
  handle blank_env 3 (Some "2025-01-01") (Some "2025-01-07").

(** The call to the model among the calls of a state, if any. *)
Definition model_query (w : World) : ModelRequest :=
  match filter (fun c => match c with ModelCall _ => true | _ => false end)
               (calls w) with
  | ModelCall q :: _ => q
  | _ => {| m_apiKey := EmptyString; m_model := EmptyString;
            m_system := EmptyString; m_prompt := EmptyString |}
  end.

(** A host serving a commit with an empty message and a commit whose author
    date is the empty string, summarized by a silent model. *)
Definition odd_records : list GitHubCommit :=
  [raw_commit "d2" None (Some "2025-01-03T07:00:00Z") ["d1"];
   raw_commit "d1" (Some "Bump version") (Some EmptyString) ["d0"]].

Definition odd_env : Env :=
  env_with (fun _ => page_of odd_records) (model_says " ") (Some "sk-key")
    (Some "gpt-5") t_morning.

Definition odd_run : Outcome NextResponse * World :=
  handle odd_env 3 (Some "2025-01-01") (Some "2025-01-07").

(** The two stages of the busy week with no timer armed, the model taking
    130 seconds to answer. *)
Definition slow_model_work : Outcome NextResponse * World :=
  stages (week_env_at t_morning 130000) 3 "acme/widgets" "ghp_token"
    (Some "gpt-5") (Some "sk-key") "2025-01-01" "2025-01-07" boot.

(** A model SDK that fails with an error carrying a status, or none. *)
Definition sdk_error (code : option Z) : Foreign :=
  {| f_kind := OtherError; f_name := "AI_APICallError"; f_status := code;
     f_message := "The model provider refused the request" |}.

Definition failing_model_run (code : option Z) : Outcome NextResponse * World :=
  handle (week_env (fun _ => Fails 800 (sdk_error code))) 3
    (Some "2025-01-01") (Some "2025-01-07").

(** A host that takes 121 seconds to answer the first query. *)
Definition slow_host_env : Env :=
  env_with (fun _ => Responds 121000
                       {| status := 200; body := Parses (JsonCommits week_records);
                          body_delay := 50 |})
    (model_says "<section></section>") (Some "sk-key") (Some "gpt-5") t_morning.

Definition report_of (o : Outcome NextResponse) : option DeployReportResponse :=
  match o with
  | Returned {| payload := ReportBody report |} => Some report
  | _ => None
  end.

Definition response_of (o : Outcome NextResponse) : NextResponse :=
  returned_or o (buildErrorResponse EmptyString 0).

Definition commits_of (o : Outcome NextResponse) : list CommitSummary :=
  match report_of o with Some report => commits report | None => [] end.

Definition blank_report : DeployReportResponse :=
  responseBody EmptyString None EmptyString EmptyString [] EmptyString 0.

Definition report_or_blank (o : Outcome NextResponse) : DeployReportResponse :=
  match report_of o with Some report => report | None => blank_report end.

End Scenario.

(** Further cases: a host with more than one page, a host that cannot be
    reached or answers with a body that is no JSON, a record with a date that
    is no date, a model that answers in plain text, a model call that is
    cancelled. *)
Module Cases.

Definition plain_commit (id : string) : GitHubCommit :=
  Scenario.raw_commit id (Some "Polish the docs") (Some "2025-01-03T08:00:00Z")
    ["p0"].

(** A host with 101 commits in the window: a full page, then one more. *)
Definition busy_host : HostRequest -> FetchOutcome :=
  fun q =>
    if q_page q =? 1 then Scenario.page_of (repeat (plain_commit "b1") 100)
    else Scenario.page_of [plain_commit "b2"].

Definition busy_env : Env :=
  Scenario.env_with busy_host (Scenario.model_says "<section></section>")
    (Some "sk-key") (Some "gpt-5") Scenario.t_morning.

(** A host that cannot be reached. *)
Definition network_down : Foreign :=
  {| f_kind := OtherError; f_name := "TypeError"; f_status := None;
     f_message := "fetch failed" |}.

Definition unreachable_env : Env :=
  Scenario.env_with (fun _ => Rejects 30 network_down)
    (Scenario.model_says "<section></section>") (Some "sk-key") (Some "gpt-5")
    Scenario.t_morning.

Definition unreachable_run : Outcome NextResponse * World :=
  handle unreachable_env 3 (Some "2025-01-01") (Some "2025-01-07").

(** A host that answers with a status no response of the handler can
    carry. *)
Definition out_of_range_env : Env :=
  Scenario.env_with (fun _ => Scenario.failure 600 (Some "Upstream is unwell"))
    (Scenario.model_says "<section></section>") (Some "sk-key") (Some "gpt-5")
    Scenario.t_morning.

Definition out_of_range_run : Outcome NextResponse * World :=
  handle out_of_range_env 3 (Some "2025-01-01") (Some "2025-01-07").

(** A host that answers 200 with a body that is not JSON. *)
Definition bad_json : Foreign :=
  {| f_kind := OtherError; f_name := "SyntaxError"; f_status := None;
     f_message := "Unexpected token < in JSON at position 0" |}.

Definition garbled : Response :=
  {| status := 200; body := Unparseable bad_json; body_delay := 50 |}.

Definition garbled_env : Env :=
  Scenario.env_with (fun _ => Responds 200 garbled)
    (Scenario.model_says "<section></section>") (Some "sk-key") (Some "gpt-5")
    Scenario.t_morning.

Definition garbled_run : Outcome NextResponse * World :=
  handle garbled_env 3 (Some "2025-01-01") (Some "2025-01-07").

(** A host whose only record carries a date that is no date. *)
Definition misdated_env : Env :=
  Scenario.env_with
    (fun _ => Scenario.page_of
                [Scenario.raw_commit "m1" (Some "Ship it") (Some "yesterday")
                   ["m0"]])
    (Scenario.model_says "<section></section>") (Some "sk-key") (Some "gpt-5")
    Scenario.t_morning.

Definition misdated_fetch : Outcome (list CommitSummary) * World :=
  fetchCommitsFromGitHub misdated_env "acme/widgets" "ghp_token"
    "2025-01-01T00:00:00Z" "2025-01-07T23:59:59Z" 3 armed.

(** The busy week summarized by a model that answers in plain text. *)
Definition plain_env : Env :=
  Scenario.week_env (Scenario.model_says " Fixes & <polish> ").

Definition plain_run : Outcome NextResponse * World :=
  handle plain_env 3 (Some "2025-01-01") (Some "2025-01-07").

(** A model SDK that gives up on its own, with an error named AbortError
    that is no DOMException. *)
Definition sdk_abort : Foreign :=
  {| f_kind := OtherError; f_name := "AbortError"; f_status := None;
     f_message := "The request was cancelled" |}.

Definition cancelled_run : Outcome NextResponse * World :=
  handle (Scenario.week_env (fun _ => Fails 800 sdk_abort)) 3
    (Some "2025-01-01") (Some "2025-01-07").

(** The two stages of the busy week with no timer armed, the model taking
    three seconds to answer. *)
Definition quick_work : Outcome NextResponse * World :=
  stages (Scenario.week_env_at Scenario.t_morning 3000) 3 "acme/widgets"
    "ghp_token" (Some "gpt-5") (Some "sk-key") "2025-01-01" "2025-01-07" boot.

End Cases.

(* ================================================================== *)
(** ** Notions used to state the properties *)
(* ================================================================== *)

(** A returned record is the normalized form of a raw record, for some
    reading of the clock. *)
Definition normalized_from (r : CommitSummary) (c : GitHubCommit) : Prop :=
  exists now, r = normalize now c.

(** What holds of the loop variables after any number of turns started in
    state [w0]: the accumulated records are, in order, the normalized forms of
    the kept records served so far. *)
Definition accumulates (env : Env) (w0 : World)
           (vars : Z * list CommitSummary) (w : World) : Prop :=
  exists new,
    calls w = List.app (calls w0) new /\
    Forall2 normalized_from (snd vars) (kept (served env new)).

(** A query answered by a successful response. *)
Definition answered_ok (env : Env) (c : Call) : Prop :=
  exists q d r,
    c = HostCall q /\ github_api env q = Responds d r /\ ok r = true.

(** What every turn of the retrieval preserves: the signal has not fired and
    every query so far was answered by a successful response. *)
Definition sound_so_far (env : Env) (vars : Z * list CommitSummary)
           (w : World) : Prop :=
  aborted w = false /\ Forall (answered_ok env) (calls w).

(** What the [catch] clause around the model call throws for an error of the
    model SDK. *)
Definition model_error_rethrown (e : Foreign) : Thrown :=
  if instanceof_Error (Native e) && String.eqb (f_name e) "AbortError"
  then Native e
  else UpstreamError openai (nullish (f_status e) 502)
         (if instanceof_Error (Native e) then f_message e
          else "OpenAI text completion failed.").

(** The text the retrieval reports for a failed response: the message of the
    host, or the fixed text of the branch taken when the body has none. *)
Definition reported_message (r : Response) : string :=
  body_message (body r)
    (if (status r =? 403) || (status r =? 429) then rate_limit_fallback
     else failure_fallback (status r)).

(** The status the client receives for an upstream error carrying status
    [s]. *)
Definition surfaced_status (s : Z) : Z := if 400 <=? s then s else 502.

(** The text of the configuration error for a missing credential or model
    identifier. *)
Definition unconfigured_message (apiKey : string) : string :=
  if is_empty apiKey then "OPENAI_API_KEY is not configured."
  else "OpenAI model is not configured.".

(** The date the program gives a kept record does not depend on the clock:
    the host supplied an author date or a committer date. *)
Definition dated (c : GitHubCommit) : Prop :=
  nullish_opt (opt_get (c_author (g_commit c)) p_date)
              (opt_get (c_committer (g_commit c)) p_date) <> None.

(** Every record the host serves and the program keeps is dated. *)
Definition serves_dated (host : HostRequest -> FetchOutcome) : Prop :=
  forall q d r records c,
    host q = Responds d r ->
    body r = Parses (JsonCommits records) ->
    In c records ->
    isMerge c = false ->
    dated c.

(** Two answers carrying the same data: the time they take may differ. *)
Definition same_data (a b : FetchOutcome) : Prop :=
  match a, b with
  | Responds _ r, Responds _ r' => status r = status r' /\ body r = body r'
  | Rejects _ e, Rejects _ e' => e = e'
  | _, _ => False
  end.

(** The shape of the object [grouped]: distinct keys, no empty group. *)
Definition well_grouped (G : Grouped) : Prop :=
  NoDup (map fst G) /\ forall k items, In (k, items) G -> items <> [].

(** The order the comparator of the fallback puts on entries, and its strict
    part. *)
Definition key_le (a b : string * list CommitSummary) : Prop :=
  String.leb (fst a) (fst b) = true.

Definition key_lt (a b : string * list CommitSummary) : Prop :=
  String.ltb (fst a) (fst b) = true.

(** The characters with a meaning in markup that [escapeHtml] replaces. *)
Definition markup_char (c : ascii) : bool :=
  Ascii.eqb c "<" || Ascii.eqb c ">" || Ascii.eqb c (chr 34) || Ascii.eqb c "'".

(** What becomes of a response the [catch] clause asks for: it is returned
    with the status its initialization gives it, or the initialization
    throws. *)
Definition delivered (asked : NextResponse) : Outcome NextResponse :=
  match init_status (http_status asked) with
  | inl thrown => Threw thrown
  | inr s => Returned {| http_status := s; payload := payload asked |}
  end.

(** An upstream of a request gave the status [s]: the host answered one of
    its queries with it, or its call to the model failed with an error that
    carries it. *)
Definition upstream_status (env : Env) (w : World) (s : Z) : Prop :=
  (exists q d r,
      In (HostCall q) (calls w) /\ github_api env q = Responds d r /\
      status r = s)
  \/ (exists q d f,
         In (ModelCall q) (calls w) /\ generateText env q = Fails d f /\
         f_status f = Some s).

(** A state of a run with no timer armed, and the state of the run of the
    same code under the deadline, as long as the two agree. *)
Definition untimed (w : World) : Prop :=
  timer w = None /\ aborted w = false.

Definition in_step (wf wt : World) : Prop :=
  untimed wf /\
  timer wt = Some TOTAL_TIMEOUT_MS /\ aborted wt = false /\
  elapsed wf = elapsed wt /\ calls wf = calls wt /\
  elapsed wt < TOTAL_TIMEOUT_MS.

(** A computation respects the deadline when: once the signal has fired it
    leaves it fired and lets no more time pass; with no timer it never loses
    time; and run under the deadline from a state in step with an untimed
    run, it either stays in step with that run to the end, or ends with the
    signal fired at the deadline while the untimed run needs at least the
    time the deadline allows. *)
Definition respects_deadline {A} (m : M A) : Prop :=
  (forall w o w',
      aborted w = true -> m w = (o, w') ->
      aborted w' = true /\ elapsed w' = elapsed w) /\
  (forall w o w',
      untimed w -> m w = (o, w') -> untimed w' /\ elapsed w <= elapsed w') /\
  (forall wf wt o wf',
      in_step wf wt -> m wf = (o, wf') ->
      (exists wt', m wt = (o, wt') /\ in_step wf' wt') \/
      (exists o' wt',
          m wt = (o', wt') /\ aborted wt' = true /\
          elapsed wt' = TOTAL_TIMEOUT_MS /\ TOTAL_TIMEOUT_MS <= elapsed wf')).

(** The queries of the first [n] pages of a window, in order. *)
Definition pages_queried (repo token since until : string) (n : nat)
  : list Call :=
  map (fun p => HostCall (page_request repo token since until (Z.of_nat p)))
      (seq 1 n).

(** The number of records the host returns to a query. *)
Definition page_size (env : Env) (q : HostRequest) : Z :=
  Z.of_nat (length (records_of (github_api env q))).

(** A computation keeps a property of the state. *)
Definition preserves (I : World -> Prop) {A} (m : M A) : Prop :=
  forall w o w', I w -> m w = (o, w') -> I w'.

(** A computation throws only errors with a given property. *)
Definition throws_only (P : Thrown -> Prop) {A} (m : M A) : Prop :=
  forall w e w', m w = (Threw e, w') -> P e.

(** The state of a handling under its deadline: no more than the deadline has
    been spent waiting, the timer stays armed until the signal fires, and
    the signal fires at the deadline. *)
Definition within_deadline (w : World) : Prop :=
  0 <= elapsed w <= TOTAL_TIMEOUT_MS /\
  (aborted w = false -> timer w = Some TOTAL_TIMEOUT_MS) /\
  (aborted w = true -> elapsed w = TOTAL_TIMEOUT_MS).

(** The errors of lib/errors as the two stages throw them: an [HttpError]
    carries 429 or 500. *)
Definition stage_error (e : Thrown) : Prop :=
  match e with
  | HttpError s _ => s = 429 \/ s = 500
  | _ => True
  end.

(** The errors of the platform and of the model SDK. *)
Definition foreign_error (e : Thrown) : Prop :=
  match e with Native _ => True | _ => False end.

(** The queries of pages [from], [from + 1], ... ([n] of them), in order. *)
Definition pages_from (repo token since until : string) (from n : nat)
  : list Call :=
  map (fun p => HostCall (page_request repo token since until (Z.of_nat p)))
      (seq from n).

(** A host that serves a page of records, in full, to a query. *)
Definition serves_page (env : Env) (q : HostRequest)
           (records : list GitHubCommit) : Prop :=
  exists d r,
    github_api env q = Responds d r /\ ok r = true /\
    body r = Parses (JsonCommits records).

(** The prompt sent to the model for a window and a bullet list. *)
Definition prompt_for (start end_ bullets : string) : string :=
  join NL [cat ["Date range: "; start; " to "; end_; "."];
           "Commits (chronological):"; bullets].

(** A query to which the host served a page in full. *)
Definition served_in_full (env : Env) (c : Call) : Prop :=
  exists q records, c = HostCall q /\ serves_page env q records.

(** What the handler answers when a platform error [e] reaches its [catch]
    clause with the signal not fired. *)
Definition platform_error_response (e : Foreign) : NextResponse :=
  match f_kind e with
  | DOMException =>
      if String.eqb (f_name e) "AbortError"
      then buildErrorResponse timeout_message 504
      else buildErrorResponse (f_message e) 502
  | OtherError => buildErrorResponse (f_message e) 502
  | NotAnError =>
      buildErrorResponse "Unexpected error while generating deploy report." 502
  end.

(** What every turn of the retrieval preserves, more precisely: the signal
    has not fired and every query so far was served a page in full. *)
Definition all_served (env : Env) (vars : Z * list CommitSummary)
           (w : World) : Prop :=
  aborted w = false /\ Forall (served_in_full env) (calls w).

(** What the retrieval guarantees of the summary line of a record it
    returns. *)
Definition tidy_summary_line (r : CommitSummary) : Prop :=
  summary_line r = summaryLine_of (message r) /\
  trim (summary_line r) = summary_line r /\
  ~ In LF (to_list (summary_line r)) /\
  startsWith (toLowerCase (summary_line r)) "merge" = false.

(** The first instant of the year 10000: [toISOString] prints a year of
    four digits for the instants from 1970 up to it. *)
Definition year_10000 : Z := 253402300800000.

(** What the handler makes of the outcome of its two stages when the signal
    has not fired: a response is passed on, an error goes through the
    [catch] clause, which answers with the response it builds or throws
    what the initialization of that response throws. *)
Definition settled (o : Outcome NextResponse) : Outcome NextResponse :=
  match o with
  | Threw e => delivered (error_response false e)
  | _ => o
  end.

(* ================================================================== *)
(** * Properties *)
(* ================================================================== *)

(** ** The string and date primitives on sample inputs *)

Example split_lines :
  split LF ("Fix bug" ++ String LF (String LF "body"))
  = ["Fix bug"; EmptyString; "body"].
Proof. reflexivity. Qed.

Example trim_unicode_space :
  trim (of_list (map chr [32; 194; 160; 9]%nat) ++ "Merge x "
        ++ of_list (map chr [239; 187; 191; 10]%nat))
  = "Merge x".
Proof. reflexivity. Qed.

Example merge_title_any_case :
  startsWith (toLowerCase (summaryLine_of "  MeRgE branch 'dev'")) "merge" = true
  /\ startsWith (toLowerCase (summaryLine_of "Emerge from beta")) "merge" = false.
Proof. split; reflexivity. Qed.

Example escape_script :
  escapeHtml "<script>alert('x' & 1)</script>"
  = "&lt;script&gt;alert(&#39;x&#39; &amp; 1)&lt;/script&gt;".
Proof. reflexivity. Qed.

Example parse_and_print :
  option_map iso_of_ms (parse_utc_form "2025-01-01T23:59:59.123+05:30")
  = Some "2025-01-01T18:29:59.123Z"
  /\ parse_utc_form "2025-02-30" = None
  /\ parse_utc_form "2024-02-29" = Some 1709164800000
  /\ iso_of_ms (-1) = "1969-12-31T23:59:59.999Z".
Proof. repeat split; reflexivity. Qed.

Example date_shape :
  matches_date_only "2025-13-99" = true
  /\ matches_date_only "2025-1-01" = false
  /\ matches_date_only ("2025-01-01" ++ String LF EmptyString) = false.
Proof. repeat split; reflexivity. Qed.

Example model_names :
  normalizeModelName (Some " openai/gpt-5 ") = Some "gpt-5"
  /\ normalizeModelName (Some "gpt-5/") = Some "gpt-5/"
  /\ normalizeModelName (Some "   ") = None
  /\ normalizeModelName None = None.
Proof. repeat split; reflexivity. Qed.

(** ** Waiting, and the loop *)

Lemma await_returned (d : N) (w w' : World) (u : unit) :
  await_abortable d w = (Returned u, w') ->
  aborted w = false /\
  w' = {| elapsed := elapsed w + Z.of_N d; timer := timer w;
          aborted := false; calls := calls w |}.
Proof.
  unfold await_abortable.
  destruct (aborted w) eqn:Ea; [discriminate|].
  destruct (timer w) as [t|] eqn:Et.
  - destruct (t <=? elapsed w + Z.of_N d); [discriminate|].
    intros H; inversion H; auto.
  - intros H; inversion H; auto.
Qed.

Lemma await_threw (d : N) (w w' : World) (e : Thrown) :
  await_abortable d w = (Threw e, w') ->
  e = AbortError /\ aborted w' = true /\ calls w' = calls w.
Proof.
  unfold await_abortable.
  destruct (aborted w) eqn:Ea.
  - intros H; inversion H; subst; auto.
  - destruct (timer w) as [t|].
    + destruct (t <=? elapsed w + Z.of_N d); intros H; inversion H; auto.
    + discriminate.
Qed.

Lemma await_no_fuel (d : N) (w w' : World) :
  await_abortable d w <> (@OutOfFuel unit, w').
Proof.
  unfold await_abortable.
  destruct (aborted w); [discriminate|].
  destruct (timer w) as [t|]; [|discriminate].
  destruct (t <=? elapsed w + Z.of_N d); discriminate.
Qed.

(** Case analysis on one wait. *)
Ltac wait_cases d w :=
  let u := fresh "u" in
  let e := fresh "e" in
  let w1 := fresh "w" in
  let E := fresh "Ew" in
  destruct (await_abortable d w) as [[u|e|] w1] eqn:E;
  [ apply await_returned in E; destruct E as [? ?]
  | apply await_threw in E; destruct E as (? & ? & ?)
  | exfalso; exact (await_no_fuel _ _ _ E) ].

Lemma while_true_turn {S R : Type} (body : S -> M (Step S R)) fuel s w :
  while_true (Datatypes.S fuel) body s w
  = match body s w with
    | (Returned (Continue s'), w') => while_true fuel body s' w'
    | (Returned (Break r), w') => (Returned r, w')
    | (Threw e, w') => (Threw e, w')
    | (OutOfFuel, w') => (OutOfFuel, w')
    end.
Proof.
  simpl. unfold bind. destruct (body s w) as [[[s'|r]|e|] w']; reflexivity.
Qed.

(** The anatomy of a run of the loop: every turn but the last continued and
    preserved the invariant; the last turn, entered in a state satisfying
    it, produced the outcome (or the fuel ran out in such a state). *)
Lemma while_true_last {S R : Type} (body : S -> M (Step S R))
      (Inv : S -> World -> Prop) :
  (forall s w s' w',
      Inv s w -> body s w = (Returned (Continue s'), w') -> Inv s' w') ->
  forall fuel s w o w',
    Inv s w ->
    while_true fuel body s w = (o, w') ->
    (o = OutOfFuel /\ exists s1, Inv s1 w') \/
    exists s1 w1,
      Inv s1 w1 /\
      ((exists r, body s1 w1 = (Returned (Break r), w') /\ o = Returned r) \/
       (exists e, body s1 w1 = (Threw e, w') /\ o = Threw e) \/
       (body s1 w1 = (OutOfFuel, w') /\ o = OutOfFuel)).
Proof.
  intros Hstep fuel; induction fuel as [|fuel IH]; intros s w o w' Hinv Hrun.
  - inversion Hrun; subst; eauto.
  - simpl in Hrun. unfold bind in Hrun.
    destruct (body s w) as [[[s'|r]|e|] w1] eqn:Eb.
    + apply (IH s' w1); [eapply Hstep; eauto | exact Hrun].
    + inversion Hrun; subst. right. exists s, w. split; eauto.
    + inversion Hrun; subst. right. exists s, w. split; eauto.
    + inversion Hrun; subst. right. exists s, w. split; eauto.
Qed.

(** ** One page of the retrieval *)

Section PageFacts.
Variable env : Env.
Variables repo token since until : string.

Abbreviation turn := (fetch_page env repo token since until).
Abbreviation query := (page_request repo token since until).

Ltac open_page H :=
  cbv beta iota zeta delta
    [fetch_page bind record_call fetch json try_catch ret throw Date_now] in H.

Ltac step_run H :=
  match type of H with
  | context [match github_api ?e ?q with _ => _ end] =>
      let Eh := fresh "Ehost" in
      destruct (github_api e q) eqn:Eh
  | context [await_abortable ?d ?w0] => wait_cases d w0
  | context [match body ?r with _ => _ end] =>
      let Eb := fresh "Ebody" in destruct (body r) eqn:Eb
  | context [if ?b then _ else _] =>
      let Eb := fresh "Eif" in destruct b eqn:Eb
  | context [match ?j with JsonCommits _ => _ | JsonOther _ => _ end] =>
      destruct j
  end; cbv beta iota zeta in H.

Ltac run_page H := open_page H; repeat (step_run H; try discriminate).

(** Every turn issues exactly one query, whatever its outcome. *)
Lemma fetch_page_calls page acc w o w' :
  turn (page, acc) w = (o, w') ->
  calls w' = List.app (calls w) [HostCall (query page)].
Proof.
  intros H. run_page H; subst; simpl in *; inversion H; subst; simpl;
    congruence.
Qed.

(** A turn never runs out of fuel, and once the signal has fired it can only
    throw. *)
Lemma fetch_page_aborted page acc w o w' :
  turn (page, acc) w = (o, w') ->
  o <> OutOfFuel /\ (aborted w' = true -> exists e, o = Threw e).
Proof.
  intros H. run_page H; subst; simpl in *; inversion H; subst; simpl;
    (split; [discriminate | intros; try discriminate; eauto]).
Qed.

(** A turn that returns received a successful response carrying an array,
    in time; the state after it and the loop variables are determined. *)
Lemma fetch_page_returned page acc w step w' :
  turn (page, acc) w = (Returned step, w') ->
  exists d r records,
    github_api env (query page) = Responds d r /\
    body r = Parses (JsonCommits records) /\
    ok r = true /\
    aborted w = false /\
    w' = {| elapsed := elapsed w + Z.of_N d + Z.of_N (body_delay r);
            timer := timer w; aborted := false;
            calls := List.app (calls w) [HostCall (query page)] |} /\
    step =
      (let acc' :=
         for_each_commit (iso_of_ms (arrival env + elapsed w')) records acc in
       if Z.of_nat (length records) <? PER_PAGE then Break acc'
       else Continue (page + 1, acc')).
Proof.
  intros H. run_page H.
  all: match goal with
       | Hh : github_api _ _ = Responds ?d ?r,
         Hb : body ?r = Parses (JsonCommits ?l) |- _ => exists d, r, l
       end.
  all: apply negb_false_iff in Eif0.
  all: subst; simpl in *; inversion H; subst; simpl;
    rewrite ?Eif1; repeat split; auto.
Qed.

(** A turn on a 403 or 429 response that ends with the signal not fired
    throws the retry-later error when the message names the secondary rate
    limit, and an upstream error with the status of the host otherwise. *)
Lemma fetch_page_limited page acc w o w' d r :
  turn (page, acc) w = (o, w') ->
  github_api env (query page) = Responds d r ->
  status r = 403 \/ status r = 429 ->
  aborted w' = false ->
  let m := body_message (body r) rate_limit_fallback in
  o = Threw (if includes (toLowerCase m) "secondary rate limit"
             then HttpError 429 m
             else UpstreamError github (status r) m).
Proof.
  intros H Hhost Hst Hab m; subst m.
  assert (Est : (status r =? 403) || (status r =? 429) = true).
  { apply orb_true_iff; destruct Hst as [-> | ->]; auto. }
  open_page H. rewrite Hhost in H. cbv beta iota zeta in H.
  repeat (step_run H; try discriminate).
  all: try (rewrite Eif in Est; discriminate).
  all: subst; simpl in *; inversion H; subst; simpl in *; try congruence.
  all: unfold rate_limit_fallback in *; rewrite ?Eif0; reflexivity.
Qed.

(** A turn on any other unsuccessful response that ends with the signal not
    fired throws an upstream error with the status and message of the host. *)
Lemma fetch_page_failed page acc w o w' d r :
  turn (page, acc) w = (o, w') ->
  github_api env (query page) = Responds d r ->
  ok r = false ->
  status r <> 403 -> status r <> 429 ->
  aborted w' = false ->
  o = Threw (UpstreamError github (status r)
               (body_message (body r) (failure_fallback (status r)))).
Proof.
  intros H Hhost Hok H403 H429 Hab.
  assert (Est : (status r =? 403) || (status r =? 429) = false).
  { apply orb_false_iff; split; apply Z.eqb_neq; auto. }
  open_page H. rewrite Hhost in H. cbv beta iota zeta in H.
  repeat (step_run H; try discriminate).
  all: try (rewrite Eif in Est; discriminate).
  all: try (rewrite Hok in *; simpl in *; discriminate).
  all: subst; simpl in *; inversion H; subst; simpl in *; try congruence.
  all: reflexivity.
Qed.

End PageFacts.

(** ** The merge filter *)

Lemma for_each_commit_spec now records acc :
  for_each_commit now records acc
  = List.app acc (map (normalize now) (kept records)).
Proof.
  unfold for_each_commit, kept.
  revert acc; induction records as [|c records IH]; intros acc; simpl.
  - now rewrite app_nil_r.
  - rewrite IH. unfold push_commit.
    destruct (isMerge c); simpl; [reflexivity|].
    now rewrite <- app_assoc.
Qed.

Lemma served_app env cs1 cs2 :
  served env (List.app cs1 cs2) = List.app (served env cs1) (served env cs2).
Proof. unfold served. apply flat_map_app. Qed.

Lemma kept_app l1 l2 : kept (List.app l1 l2) = List.app (kept l1) (kept l2).
Proof. unfold kept. apply filter_app. Qed.

Lemma normalize_not_merge now c : is_merge (normalize now c) = false.
Proof. reflexivity. Qed.

Section MergeFilter.
Variable env : Env.
Variables repo token since until : string.

Abbreviation turn := (fetch_page env repo token since until).

Lemma page_extends w0 page acc w d r records w' :
  accumulates env w0 (page, acc) w ->
  github_api env (page_request repo token since until page) = Responds d r ->
  body r = Parses (JsonCommits records) ->
  calls w' = List.app (calls w)
               [HostCall (page_request repo token since until page)] ->
  forall now page',
    accumulates env w0 (page', for_each_commit now records acc) w'.
Proof.
  intros (new & Hc & Hacc) Hhost Hbody Hcalls now page'.
  exists (List.app new [HostCall (page_request repo token since until page)]).
  split.
  - rewrite Hcalls, Hc. now rewrite app_assoc.
  - simpl. rewrite for_each_commit_spec, served_app, kept_app.
    apply Forall2_app; [exact Hacc|].
    simpl. unfold records_of. rewrite Hhost, Hbody, app_nil_r.
    clear. induction (kept records) as [|c l IH]; simpl; constructor; auto.
    now exists now.
Qed.

Lemma accumulates_step w0 vars w vars' w' :
  accumulates env w0 vars w ->
  turn vars w = (Returned (Continue vars'), w') ->
  accumulates env w0 vars' w'.
Proof.
  destruct vars as [page acc]. intros Hinv Hrun.
  destruct (fetch_page_returned _ _ _ _ _ _ _ _ _ _ Hrun)
    as (d & r & records & Hhost & Hbody & _ & _ & Hw & Hstep).
  simpl in Hstep.
  destruct (Z.of_nat (length records) <? PER_PAGE); inversion Hstep; subst vars'.
  eapply page_extends; eauto. rewrite Hw; reflexivity.
Qed.

Lemma fetch_accumulates fuel w batch w' :
  fetchCommitsFromGitHub env repo token since until fuel w
  = (Returned batch, w') ->
  exists new,
    calls w' = List.app (calls w) new /\
    Forall2 normalized_from batch (kept (served env new)).
Proof.
  intros Hrun. unfold fetchCommitsFromGitHub in Hrun.
  assert (Hinit : accumulates env w (1, []) w).
  { exists []. split; [now rewrite app_nil_r | constructor]. }
  destruct (while_true_last turn (accumulates env w) (accumulates_step w)
              fuel (1, []) w _ _ Hinit Hrun)
    as [[Hfuel _] | (vars & w1 & Hinv & Hlast)].
  - discriminate.
  - destruct vars as [page acc].
    destruct Hlast as [(r & Hturn & Hr) | [(e & _ & He) | (_ & He)]];
      try discriminate.
    inversion Hr; subst r.
    destruct (fetch_page_returned _ _ _ _ _ _ _ _ _ _ Hturn)
      as (d & resp & records & Hhost & Hbody & _ & _ & Hw & Hstep).
    simpl in Hstep.
    destruct (Z.of_nat (length records) <? PER_PAGE); inversion Hstep.
    clear Hstep.
    change (accumulates env w
              (page, for_each_commit (iso_of_ms (arrival env + elapsed w'))
                       records acc) w').
    eapply page_extends; eauto. rewrite Hw; reflexivity.
Qed.

End MergeFilter.

(** C1.  Whenever the commit fetch returns a batch, the batch is, record for
    record and in order, the normalized form of the records the host served
    that are not merges.  A served record with more than one recorded parent,
    or whose trimmed first message line starts with "merge" in any letter
    case, is not among them; and every returned record has [is_merge] false. *)
Theorem merge_records_absent_from_batch
        env repo token since until fuel w batch w' :
  fetchCommitsFromGitHub env repo token since until fuel w
  = (Returned batch, w') ->
  exists new,
    calls w' = List.app (calls w) new /\
    Forall2 normalized_from batch (kept (served env new)) /\
    (forall c,
        In c (served env new) ->
        (exists n, parent_count c = Some n /\ 1 < n) \/
        startsWith (toLowerCase (summaryLine_of (raw_message c))) "merge" = true ->
        ~ In c (kept (served env new))) /\
    Forall (fun r => is_merge r = false) batch.
Proof.
  intros Hrun.
  destruct (fetch_accumulates _ _ _ _ _ _ _ _ _ Hrun) as (new & Hcalls & Hall).
  exists new. split; [exact Hcalls|]. split; [exact Hall|]. split.
  - intros c _ Hmerge Hin.
    apply filter_In in Hin. destruct Hin as [_ Hkeep].
    apply negb_true_iff in Hkeep. unfold isMerge in Hkeep.
    apply orb_false_iff in Hkeep. destruct Hkeep as [Hparents Htitle].
    destruct Hmerge as [(n & Hn & Hgt) | Hm]; [|congruence].
    unfold parent_count in Hn.
    destruct (g_parents c) as [ps|]; [|discriminate].
    inversion Hn; subst n. apply Z.ltb_ge in Hparents. lia.
  - clear Hcalls Hrun. induction Hall as [|r c l l' (now & ->) _ IH];
      constructor; auto.
Qed.

Lemma merge_records_absent_witness :
  exists new,
    calls (snd Scenario.week_fetch) = List.app (calls boot) new /\
    Forall2 normalized_from
      (Scenario.returned_or (fst Scenario.week_fetch) [])
      (kept (served (Scenario.week_env (Scenario.model_says "<section></section>")) new)) /\
    (forall c,
        In c (served (Scenario.week_env (Scenario.model_says "<section></section>")) new) ->
        (exists n, parent_count c = Some n /\ 1 < n) \/
        startsWith (toLowerCase (summaryLine_of (raw_message c))) "merge" = true ->
        ~ In c (kept (served (Scenario.week_env (Scenario.model_says "<section></section>")) new))) /\
    Forall (fun r => is_merge r = false)
      (Scenario.returned_or (fst Scenario.week_fetch) []).
Proof.
  apply (merge_records_absent_from_batch
           (Scenario.week_env (Scenario.model_says "<section></section>"))
           "acme/widgets" "ghp_token"
           "2025-01-01T00:00:00Z" "2025-01-07T23:59:59Z" 3 boot).
  vm_compute. reflexivity.
Defined.

(** The scenario of the specification: five ordinary commits and two merges
    give a batch of five. *)
Example week_batch_has_five :
  map sha (Scenario.returned_or (fst Scenario.week_fetch) [])
  = ["c7"; "c5"; "c3"; "c2"; "c1"].
Proof. vm_compute. reflexivity. Qed.

(** ** The anatomy of one request *)

Section RetrievalFacts.
Variable env : Env.
Variables repo token since until : string.

Abbreviation turn := (fetch_page env repo token since until).

Lemma sound_so_far_step vars w vars' w' :
  sound_so_far env vars w ->
  turn vars w = (Returned (Continue vars'), w') ->
  sound_so_far env vars' w'.
Proof.
  destruct vars as [page acc]. intros [Hab Hall] Hrun.
  destruct (fetch_page_returned _ _ _ _ _ _ _ _ _ _ Hrun)
    as (d & r & records & Hhost & _ & Hok & _ & Hw & _).
  subst w'. split; simpl; auto.
  apply Forall_app; split; auto.
  constructor; [|constructor]. now exists (page_request repo token since until page), d, r.
Qed.

(** How a retrieval can end.  If it returns or runs out of fuel, every query
    it issued was answered by a successful response.  If it throws, the
    error comes from its last turn, entered with the signal not fired and
    after successful responses only. *)
Lemma fetch_anatomy fuel w o w' :
  aborted w = false ->
  Forall (answered_ok env) (calls w) ->
  fetchCommitsFromGitHub env repo token since until fuel w = (o, w') ->
  match o with
  | Returned _ => aborted w' = false /\ Forall (answered_ok env) (calls w')
  | OutOfFuel => aborted w' = false /\ Forall (answered_ok env) (calls w')
  | Threw e =>
      exists page acc w1,
        aborted w1 = false /\
        Forall (answered_ok env) (calls w1) /\
        turn (page, acc) w1 = (Threw e, w')
  end.
Proof.
  intros Hab Hall Hrun. unfold fetchCommitsFromGitHub in Hrun.
  assert (Hinit : sound_so_far env (1, []) w) by (split; auto).
  destruct (while_true_last turn (sound_so_far env) sound_so_far_step
              fuel (1, []) w _ _ Hinit Hrun)
    as [[-> (s1 & Hs)] | ([page acc] & w1 & [Hab1 Hall1] & Hlast)].
  - exact Hs.
  - destruct Hlast as [(r & Hturn & ->) | [(e & Hturn & ->) | (Hturn & ->)]].
    + destruct (fetch_page_returned _ _ _ _ _ _ _ _ _ _ Hturn)
        as (d & resp & records & Hhost & _ & Hok & _ & Hw & _).
      subst w'. split; simpl; auto.
      apply Forall_app; split; auto.
      constructor; [|constructor].
      now exists (page_request repo token since until page), d, resp.
    + exists page, acc, w1. auto.
    + exfalso. apply (fetch_page_aborted _ _ _ _ _ _ _ _ _ _ Hturn). reflexivity.
Qed.

End RetrievalFacts.

(** The [catch] clause changes nothing in the state. *)
Lemma on_error_delivered e w :
  on_error e w = (delivered (error_response (aborted w) e), w).
Proof.
  unfold on_error, bind, signal_aborted, delivered, throw, ret.
  destruct (init_status _); reflexivity.
Qed.

(** A status from 0 to 65535 is converted to itself. *)
Lemma unsigned_short_small s :
  0 <= s < 65536 -> unsigned_short s = s.
Proof. intros H. unfold unsigned_short. now apply Z.rem_small. Qed.

(** A status from 400 to 599 is kept. *)
Lemma init_status_in_range s :
  400 <= s <= 599 -> init_status s = inr s.
Proof.
  intros [Hlo Hhi]. unfold init_status.
  rewrite unsigned_short_small by lia. cbv zeta.
  replace (s <? 200) with false by (symmetry; apply Z.ltb_ge; lia).
  replace (599 <? s) with false by (symmetry; apply Z.ltb_ge; lia).
  replace (s =? 204) with false by (symmetry; apply Z.eqb_neq; lia).
  replace (s =? 205) with false by (symmetry; apply Z.eqb_neq; lia).
  replace (s =? 304) with false by (symmetry; apply Z.eqb_neq; lia).
  reflexivity.
Qed.

(** A status from 600 to 65535 is refused. *)
Lemma init_status_out_of_range s :
  599 < s < 65536 -> init_status s = inl RangeError_status.
Proof.
  intros H. unfold init_status.
  rewrite unsigned_short_small by lia. cbv zeta.
  replace (599 <? s) with true by (symmetry; apply Z.ltb_lt; lia).
  rewrite orb_true_r. reflexivity.
Qed.

(** A status that is kept is from 200 to 599 after conversion. *)
Lemma init_status_kept s s' :
  init_status s = inr s' -> s' = unsigned_short s /\ 200 <= s' <= 599.
Proof.
  unfold init_status. cbv zeta.
  destruct (unsigned_short s <? 200) eqn:Elo;
    destruct (599 <? unsigned_short s) eqn:Ehi; try discriminate.
  cbn [orb]. destruct (_ || _); [discriminate|].
  intros H; inversion H; subst s'.
  apply Z.ltb_ge in Elo, Ehi. split; [reflexivity | lia].
Qed.

(** What the initialization throws. *)
Lemma init_status_thrown s thrown :
  init_status s = inl thrown ->
  thrown = RangeError_status
  \/ thrown = TypeError_null_body_status (unsigned_short s).
Proof.
  unfold init_status. cbv zeta.
  destruct (_ || _); [intros H; inversion H; auto|].
  destruct (_ || _); [intros H; inversion H; auto | discriminate].
Qed.

(** A response with a status from 400 to 599 is returned as it is. *)
Lemma delivered_error response :
  400 <= http_status response <= 599 ->
  delivered response = Returned response.
Proof.
  intros H. unfold delivered. rewrite (init_status_in_range _ H).
  destruct response; reflexivity.
Qed.

(** A response with a status from 600 to 65535 is not returned. *)
Lemma delivered_out_of_range response :
  599 < http_status response < 65536 ->
  delivered response = Threw RangeError_status.
Proof.
  intros H. unfold delivered. now rewrite (init_status_out_of_range _ H).
Qed.

(** A response that is returned has the body asked for. *)
Lemma delivered_payload asked response :
  delivered asked = Returned response -> payload response = payload asked.
Proof.
  unfold delivered. destruct (init_status _); [discriminate|].
  intros H; inversion H; reflexivity.
Qed.

Section HandleFacts.
Variable env : Env.
Variable fuel : nat.

(** Once the checks have passed, the response is computed from the outcomes
    of the two stages as follows. *)
Lemma handle_accepted sp ep a :
  preflight env sp ep = inr a ->
  handle env fuel sp ep =
  match fetchCommitsFromGitHub env (ok_repo a) (ok_token a)
          (ok_start a ++ "T00:00:00Z") (ok_end a ++ "T23:59:59Z") fuel armed
  with
  | (Returned commits, w1) =>
      match (if 0 <? Z.of_nat (length commits)
             then generateSummaryHtml env (nullish (ok_model a) EmptyString)
                    (nullish (ok_apiKey a) EmptyString) (ok_repo a)
                    (ok_start a) (ok_end a) commits
             else ret (empty_range_sentence (ok_start a) (ok_end a))) w1
      with
      | (Returned html, w2) =>
          (Returned
             (NextResponse_json
                (responseBody (ok_repo a) (ok_model a) (ok_start a) (ok_end a)
                   commits html (arrival env + elapsed w2))),
           clearTimeout w2)
      | (Threw e, w2) =>
          (delivered (error_response (aborted w2) e), clearTimeout w2)
      | (OutOfFuel, w2) => (OutOfFuel, clearTimeout w2)
      end
  | (Threw e, w1) =>
      (delivered (error_response (aborted w1) e), clearTimeout w1)
  | (OutOfFuel, w1) => (OutOfFuel, clearTimeout w1)
  end.
Proof.
  intros Hpre. unfold handle, GET. rewrite Hpre.
  unfold bind at 1. unfold setTimeout_abort. simpl.
  change {| elapsed := 0; timer := Some TOTAL_TIMEOUT_MS; aborted := false;
            calls := [] |} with armed.
  unfold finally, try_catch, stages, toIsoRange, bind, Date_now, ret.
  destruct (fetchCommitsFromGitHub _ _ _ _ _ _ armed) as [[commits|e|] w1];
    rewrite ?on_error_delivered; try reflexivity.
  match goal with
  | |- context [(if ?b then ?x else ?y) w1] =>
      destruct ((if b then x else y) w1) as [[html|e|] w2]
  end; rewrite ?on_error_delivered; reflexivity.
Qed.

(** A request refused by the checks is answered at once, in the initial
    state. *)
Lemma handle_refused sp ep response :
  preflight env sp ep = inl response ->
  handle env fuel sp ep = (Returned response, boot).
Proof.
  intros Hpre. unfold handle, GET. rewrite Hpre. reflexivity.
Qed.

End HandleFacts.

(** ** The window checks *)

Lemma matches_date_only_nonempty s :
  matches_date_only s = true -> is_empty s = false.
Proof. destruct s; [discriminate | reflexivity]. Qed.

Lemma preflight_oversized env start end_ s e :
  matches_date_only start = true ->
  matches_date_only end_ = true ->
  Date_of_string (platform env) (start ++ "T00:00:00Z") = Some s ->
  Date_of_string (platform env) (end_ ++ "T00:00:00Z") = Some e ->
  MAX_WINDOW_DAYS < (e - s) / msPerDay + 1 ->
  preflight env (Some start) (Some end_)
  = inl (buildErrorResponse "Date span cannot exceed 30 days." 413).
Proof.
  intros Hs He Ds De Hspan. unfold preflight. simpl.
  rewrite (matches_date_only_nonempty _ Hs), (matches_date_only_nonempty _ He).
  rewrite Hs, He. simpl. rewrite Ds, De.
  unfold MAX_WINDOW_DAYS, msPerDay in *.
  change (1000 * 60 * 60 * 24) with 86400000 in *.
  assert (Hord : (e <? s) = false).
  { apply Z.ltb_ge. destruct (Z.lt_ge_cases e s) as [Hlt|]; [|lia].
    assert ((e - s) / 86400000 < 0) by (apply Z.div_lt_upper_bound; lia).
    lia. }
  rewrite Hord.
  assert (Hbig : (30 <? (e - s) / 86400000 + 1) = true)
    by (apply Z.ltb_lt; lia).
  rewrite Hbig. reflexivity.
Qed.

(** C2.  A request whose two dates are well formed and valid, and whose
    inclusive day span exceeds 30, is answered 413 with the oversized-request
    message, in the initial state: no call to the host or to the model has
    been issued. *)
Theorem oversized_window_rejected env fuel start end_ s e :
  matches_date_only start = true ->
  matches_date_only end_ = true ->
  Date_of_string (platform env) (start ++ "T00:00:00Z") = Some s ->
  Date_of_string (platform env) (end_ ++ "T00:00:00Z") = Some e ->
  MAX_WINDOW_DAYS < (e - s) / msPerDay + 1 ->
  handle env fuel (Some start) (Some end_)
  = (Returned (buildErrorResponse "Date span cannot exceed 30 days." 413), boot)
  /\ calls boot = [].
Proof.
  intros Hs He Ds De Hspan. split; [|reflexivity].
  apply handle_refused. eapply preflight_oversized; eauto.
Qed.

Lemma oversized_window_witness :
  handle (Scenario.week_env (Scenario.model_says "<section></section>")) 3
    (Some "2025-01-01") (Some "2025-01-31")
  = (Returned (buildErrorResponse "Date span cannot exceed 30 days." 413), boot)
  /\ calls boot = [].
Proof.
  apply (oversized_window_rejected
           (Scenario.week_env (Scenario.model_says "<section></section>")) 3
           "2025-01-01" "2025-01-31" 1735689600000 1738281600000).
  - reflexivity.
  - reflexivity.
  - reflexivity.
  - reflexivity.
  - vm_compute. reflexivity.
Defined.

(** A span of exactly 30 days passes the checks. *)
Example thirty_days_accepted :
  exists a,
    preflight (Scenario.week_env (Scenario.model_says "<section></section>"))
      (Some "2025-01-01") (Some "2025-01-30") = inr a.
Proof. eexists. vm_compute. reflexivity. Qed.

(** ** The summary stage *)

Section SummaryFacts.
Variable env : Env.
Variables model apiKey repo start end_ : string.
Variable commits : list CommitSummary.

Abbreviation compose :=
  (generateSummaryHtml env model apiKey repo start end_ commits).

Ltac open_summary H :=
  cbv beta iota zeta delta
    [generateSummaryHtml bind try_catch call_model record_call or_RangeError
     rethrow_model_error ret throw] in H.

Ltac step_summary H :=
  match type of H with
  | context [if is_empty apiKey then _ else _] =>
      let E := fresh "Ekey" in destruct (is_empty apiKey) eqn:E
  | context [if is_empty model then _ else _] =>
      let E := fresh "Emodel" in destruct (is_empty model) eqn:E
  | context [if Z.of_nat (length commits) =? 0 then _ else _] =>
      let E := fresh "Elen" in destruct (Z.of_nat (length commits) =? 0) eqn:E
  | context [match buildBulletList ?p ?c with _ => _ end] =>
      let E := fresh "Ebullets" in destruct (buildBulletList p c) eqn:E
  | context [match generateText ?e ?q with _ => _ end] =>
      let E := fresh "Eanswer" in destruct (generateText e q) eqn:E
  | context [await_abortable ?d ?w0] => wait_cases d w0
  | context [if is_empty (trim ?t) then _ else _] =>
      let E := fresh "Eblank" in destruct (is_empty (trim t)) eqn:E
  | context [match buildFallbackSummary ?p ?a ?b ?c ?d with _ => _ end] =>
      let E := fresh "Efallback" in
      destruct (buildFallbackSummary p a b c d) eqn:E
  | context [if ?b then _ else _] =>
      let E := fresh "Eif" in destruct b eqn:E
  end; cbv beta iota zeta in H.

Ltac tidy := subst; cbn [elapsed timer aborted calls] in *.

Ltac name_query H :=
  match type of H with
  | context [ModelCall (Build_ModelRequest ?a ?b ?c ?d)] =>
      let sent := fresh "sent" in
      let Es := fresh "Esent" in
      remember (Build_ModelRequest a b c d) as sent eqn:Es; clear Es
  end.

Ltac run_summary H :=
  open_summary H;
  repeat (step_summary H; try discriminate; try name_query H); tidy.

Ltac no_call Hcalls :=
  exfalso; symmetry in Hcalls; revert Hcalls;
  match goal with
  | |- List.app ?l _ = _ -> _ => rewrite <- (app_nil_r l) at 2
  end;
  intros Hcalls; apply app_inv_head in Hcalls; discriminate.

(** The stage issues at most one call, to the model. *)
Lemma summary_calls w o w' :
  compose w = (o, w') ->
  calls w' = calls w \/ exists q, calls w' = List.app (calls w) [ModelCall q].
Proof.
  intros H. run_summary H.
  all: inversion H; subst; cbn [calls]; eauto.
Qed.

(** The stage never runs out of fuel, and if the signal fires during it, it
    throws. *)
Lemma summary_aborted w o w' :
  compose w = (o, w') ->
  o <> OutOfFuel /\
  (aborted w = false -> aborted w' = true -> exists e, o = Threw e).
Proof.
  intros H. run_summary H.
  all: inversion H; subst; cbn [aborted] in *.
  all: split; [discriminate | intros; try congruence; eauto].
Qed.

(** Without a credential or a model identifier, the stage throws the
    configuration error at once: the state is unchanged. *)
Lemma summary_unconfigured w :
  is_empty apiKey = true \/ is_empty model = true ->
  compose w
  = (Threw (HttpError 500 (if is_empty apiKey
                           then "OPENAI_API_KEY is not configured."
                           else "OpenAI model is not configured.")), w).
Proof.
  intros Hcfg. unfold generateSummaryHtml.
  destruct (is_empty apiKey); [reflexivity|].
  destruct Hcfg as [Hk|Hm]; [discriminate|]. rewrite Hm. reflexivity.
Qed.

(** If the model call fails and the signal has not fired, the stage throws
    what its [catch] clause makes of the error. *)
Lemma summary_model_failed w o w' q d e :
  compose w = (o, w') ->
  calls w' = List.app (calls w) [ModelCall q] ->
  generateText env q = Fails d e ->
  aborted w' = false ->
  o = Threw (model_error_rethrown e).
Proof.
  intros H Hcalls Hfail Hab. run_summary H.
  all: inversion H; subst; cbn [aborted calls] in *.
  all: try congruence.
  all: try (no_call Hcalls).
  all: apply app_inv_head in Hcalls; inversion Hcalls; subst q.
  all: try congruence.
  all: rewrite Hfail in *; inversion Eanswer; subst.
  all: unfold model_error_rethrown.
  all: cbn [instanceof_HttpError error_name error_message error_status orb]
         in *.
  all: match goal with
       | |- context [f_name ?x] =>
           destruct (instanceof_Error (Native x)) eqn:Hi,
             (String.eqb (f_name x) "AbortError") eqn:Hn
       end; cbn [andb] in *; congruence.
Qed.

(** If the model answers with nothing but white space and the stage returns,
    it returns the fallback summary. *)
Lemma summary_blank_text w html w' q d text :
  compose w = (Returned html, w') ->
  calls w' = List.app (calls w) [ModelCall q] ->
  generateText env q = Generates d text ->
  is_empty (trim text) = true ->
  buildFallbackSummary (platform env) repo start end_ commits = Some html.
Proof.
  intros H Hcalls Hgen Hblank. run_summary H.
  all: inversion H; subst; cbn [aborted calls] in *.
  all: try (no_call Hcalls).
  all: apply app_inv_head in Hcalls; inversion Hcalls; subst q.
  all: rewrite Hgen in *; inversion Eanswer; subst; congruence.
Qed.

End SummaryFacts.

(** ** Failures of the host *)

Lemma answered_ok_not_failed env q d r :
  answered_ok env (HostCall q) ->
  github_api env q = Responds d r ->
  ok r = false ->
  False.
Proof.
  intros (q' & d' & r' & Hq & Hhost & Hok) Hr Hbad.
  inversion Hq; subst q'. rewrite Hr in Hhost. inversion Hhost; subst.
  congruence.
Qed.

(** If some query of a request was answered by an unsuccessful response, the
    retrieval threw on the turn that issued this query, and the response to
    the client is what the [catch] clause makes of that error. *)
Lemma handle_host_failure env fuel sp ep out w q d r :
  handle env fuel sp ep = (out, w) ->
  In (HostCall q) (calls w) ->
  github_api env q = Responds d r ->
  ok r = false ->
  exists a page acc w1 e w2,
    preflight env sp ep = inr a /\
    fetch_page env (ok_repo a) (ok_token a) (ok_start a ++ "T00:00:00Z")
      (ok_end a ++ "T23:59:59Z") (page, acc) w1 = (Threw e, w2) /\
    q = page_request (ok_repo a) (ok_token a) (ok_start a ++ "T00:00:00Z")
          (ok_end a ++ "T23:59:59Z") page /\
    aborted w = aborted w2 /\
    out = delivered (error_response (aborted w2) e).
Proof.
  intros Hrun Hin Hhost Hbad.
  destruct (preflight env sp ep) as [resp|a] eqn:Hpre.
  { rewrite (handle_refused _ _ _ _ _ Hpre) in Hrun.
    inversion Hrun; subst. contradiction. }
  rewrite (handle_accepted _ _ _ _ _ Hpre) in Hrun.
  destruct (fetchCommitsFromGitHub env (ok_repo a) (ok_token a)
              (ok_start a ++ "T00:00:00Z") (ok_end a ++ "T23:59:59Z")
              fuel armed) as [o1 w1] eqn:Hfetch.
  assert (Hgood : forall w', Forall (answered_ok env) (calls w') ->
                             In (HostCall q) (calls w') -> False).
  { intros w' Hall Hq. rewrite Forall_forall in Hall.
    eapply answered_ok_not_failed; eauto. }
  pose proof (fetch_anatomy env _ _ _ _ fuel armed o1 w1 eq_refl
                (Forall_nil _) Hfetch) as Hana.
  destruct o1 as [commits|e|].
  - exfalso. destruct Hana as [_ Hall].
    destruct (0 <? Z.of_nat (length commits)).
    + destruct (generateSummaryHtml _ _ _ _ _ _ _ w1) as [o2 w2] eqn:Hsum.
      assert (Hq : In (HostCall q) (calls w2))
        by (destruct o2; inversion Hrun; subst; exact Hin).
      destruct (summary_calls _ _ _ _ _ _ _ _ _ _ Hsum) as [Hc | (q2 & Hc)];
        rewrite Hc in Hq.
      * eauto.
      * apply in_app_or in Hq. destruct Hq as [Hq | [Hq | []]];
          [eauto | discriminate].
    + unfold ret in Hrun. inversion Hrun; subst. eauto.
  - destruct Hana as (page & acc & w0 & Hab0 & Hall0 & Hturn).
    inversion Hrun; subst.
    pose proof (fetch_page_calls _ _ _ _ _ _ _ _ _ _ Hturn) as Hc.
    cbn [clearTimeout calls] in Hin. rewrite Hc in Hin.
    apply in_app_or in Hin. destruct Hin as [Hin | [Hin | []]].
    + exfalso; eauto.
    + inversion Hin; subst q.
      exists a, page, acc, w0, e, w1. repeat split; auto.
  - exfalso. destruct Hana as [_ Hall].
    inversion Hrun; subst. eauto.
Qed.

(** The message of the host, when the body carries one, is read verbatim. *)
Lemma body_message_verbatim msg fallback :
  body_message (Parses (JsonOther (Some msg))) fallback = msg.
Proof. reflexivity. Qed.

(** C3.  If a request ends with the deadline not fired and one of its queries
    was answered 403 or 429, then, [m] being the message of the host (or the
    fixed text when the body carries none): when [m] contains "secondary rate
    limit" in any letter case the client receives status 429 with [m]
    verbatim; otherwise the client receives the status of the host with
    [m]. *)
Theorem rate_limit_responses_surfaced env fuel sp ep out w q d r :
  handle env fuel sp ep = (out, w) ->
  aborted w = false ->
  In (HostCall q) (calls w) ->
  github_api env q = Responds d r ->
  status r = 403 \/ status r = 429 ->
  let m := body_message (body r) rate_limit_fallback in
  out = Returned
          (if includes (toLowerCase m) "secondary rate limit"
           then buildErrorResponse m 429
           else buildErrorResponse m (status r)).
Proof.
  intros Hrun Hab Hin Hhost Hst m.
  assert (Hbad : ok r = false).
  { unfold ok. destruct Hst as [-> | ->]; reflexivity. }
  destruct (handle_host_failure _ _ _ _ _ _ _ _ _ Hrun Hin Hhost Hbad)
    as (a & page & acc & w1 & e & w2 & _ & Hturn & -> & Hw & ->).
  rewrite Hw in Hab.
  pose proof (fetch_page_limited _ _ _ _ _ _ _ _ _ _ _ _ Hturn Hhost Hst Hab)
    as He.
  cbv zeta in He. fold m in He. inversion He; subst e. rewrite Hab.
  destruct (includes (toLowerCase m) "secondary rate limit"); simpl.
  - reflexivity.
  - destruct Hst as [-> | ->]; reflexivity.
Qed.

Lemma rate_limit_responses_witness :
  fst Scenario.throttled_run
  = Returned (buildErrorResponse "You have exceeded a secondary rate limit" 429).
Proof.
  exact (rate_limit_responses_surfaced Scenario.throttled_env 3
           (Some "2025-01-01") (Some "2025-01-07")
           (fst Scenario.throttled_run) (snd Scenario.throttled_run)
           Scenario.week_query 200%N Scenario.throttled
           eq_refl eq_refl (or_introl eq_refl) eq_refl (or_intror eq_refl)).
Defined.

(** ** Failures of the model *)

Lemma answered_ok_not_model env q :
  answered_ok env (ModelCall q) -> False.
Proof. intros (q' & d & r & Hq & _). discriminate. Qed.

(** If a request called the model, its retrieval returned a batch and the
    summary stage, entered with the signal not fired, issued that call; the
    response to the client is computed from the outcome of the stage. *)
Lemma handle_model_call env fuel sp ep out w q :
  handle env fuel sp ep = (out, w) ->
  In (ModelCall q) (calls w) ->
  exists a commits w1 o2 w2,
    preflight env sp ep = inr a /\
    fetchCommitsFromGitHub env (ok_repo a) (ok_token a)
      (ok_start a ++ "T00:00:00Z") (ok_end a ++ "T23:59:59Z") fuel armed
    = (Returned commits, w1) /\
    generateSummaryHtml env (nullish (ok_model a) EmptyString)
      (nullish (ok_apiKey a) EmptyString) (ok_repo a) (ok_start a) (ok_end a)
      commits w1 = (o2, w2) /\
    calls w2 = List.app (calls w1) [ModelCall q] /\
    aborted w1 = false /\
    w = clearTimeout w2 /\
    out = match o2 with
          | Returned html =>
              Returned
                (NextResponse_json
                   (responseBody (ok_repo a) (ok_model a) (ok_start a)
                      (ok_end a) commits html (arrival env + elapsed w2)))
          | Threw e => delivered (error_response (aborted w2) e)
          | OutOfFuel => OutOfFuel
          end.
Proof.
  intros Hrun Hin.
  destruct (preflight env sp ep) as [resp|a] eqn:Hpre.
  { rewrite (handle_refused _ _ _ _ _ Hpre) in Hrun.
    inversion Hrun; subst. contradiction. }
  rewrite (handle_accepted _ _ _ _ _ Hpre) in Hrun.
  destruct (fetchCommitsFromGitHub env (ok_repo a) (ok_token a)
              (ok_start a ++ "T00:00:00Z") (ok_end a ++ "T23:59:59Z")
              fuel armed) as [o1 w1] eqn:Hfetch.
  assert (Hhost : forall w', Forall (answered_ok env) (calls w') ->
                             In (ModelCall q) (calls w') -> False).
  { intros w' Hall Hq. rewrite Forall_forall in Hall.
    eapply answered_ok_not_model; eauto. }
  pose proof (fetch_anatomy env _ _ _ _ fuel armed o1 w1 eq_refl
                (Forall_nil _) Hfetch) as Hana.
  destruct o1 as [commits|e|].
  - destruct Hana as [Hab1 Hall].
    destruct (0 <? Z.of_nat (length commits)).
    + destruct (generateSummaryHtml _ _ _ _ _ _ _ w1) as [o2 w2] eqn:Hsum.
      assert (Hw : w = clearTimeout w2) by (destruct o2; inversion Hrun; auto).
      assert (Hq : In (ModelCall q) (calls w2)) by (subst w; exact Hin).
      destruct (summary_calls _ _ _ _ _ _ _ _ _ _ Hsum) as [Hc | (q2 & Hc)].
      * exfalso. rewrite Hc in Hq. eauto.
      * rewrite Hc in Hq. apply in_app_or in Hq.
        destruct Hq as [Hq | [Hq | []]]; [exfalso; eauto|].
        inversion Hq; subst q2.
        exists a, commits, w1, o2, w2. repeat split; auto.
        destruct o2; inversion Hrun; reflexivity.
    + exfalso. unfold ret in Hrun. inversion Hrun; subst. eauto.
  - exfalso. destruct Hana as (page & acc & w0 & Hab0 & Hall0 & Hturn).
    inversion Hrun; subst.
    pose proof (fetch_page_calls _ _ _ _ _ _ _ _ _ _ Hturn) as Hc.
    cbn [clearTimeout calls] in Hin. rewrite Hc in Hin.
    apply in_app_or in Hin. destruct Hin as [Hin | [Hin | []]];
      [eauto | discriminate].
  - exfalso. destruct Hana as [_ Hall]. inversion Hrun; subst. eauto.
Qed.

(** What the [catch] clause makes of an upstream error: a response with the
    status of the error when it is from 400 to 599, with 502 when it is
    below 400, and no response when it is from 600 to 65535. *)
Lemma delivered_surfaced m s :
  s <= 599 ->
  delivered (buildErrorResponse m (surfaced_status s))
  = Returned (buildErrorResponse m (surfaced_status s)).
Proof.
  intros Hs. apply delivered_error. unfold surfaced_status. simpl.
  destruct (400 <=? s) eqn:Elo; [apply Z.leb_le in Elo|]; lia.
Qed.

Lemma delivered_not_surfaced m s :
  599 < s < 65536 ->
  delivered (buildErrorResponse m (surfaced_status s))
  = Threw RangeError_status.
Proof.
  intros Hs. apply delivered_out_of_range. unfold surfaced_status. simpl.
  replace (400 <=? s) with true by (symmetry; apply Z.leb_le; lia). lia.
Qed.

Lemma upstream_error_delivered out m s :
  out = delivered (buildErrorResponse m (surfaced_status s)) ->
  (s <= 599 -> out = Returned (buildErrorResponse m (surfaced_status s)))
  /\ (599 < s < 65536 -> out = Threw RangeError_status).
Proof.
  intros ->. split; intros Hs.
  - now apply delivered_surfaced.
  - now apply delivered_not_surfaced.
Qed.

(** C4, as the program has it.  If a request ends with the deadline not
    fired, then (1) for every query answered by an unsuccessful response
    that is not the secondary-rate-limit case: when the status of the host
    is at most 599, the client receives the message reported for it with
    that status when it is at least 400, and with 502 otherwise; when the
    status of the host is from 600 to 65535, the client receives no
    response, the handler throws the RangeError of the response it could
    not build; (2) for every failed model call whose error is not an abort,
    the same holds with the message of the error and the status the error
    carries (502 standing for an error that carries no number). *)
Theorem upstream_failures_surfaced env fuel sp ep out w :
  handle env fuel sp ep = (out, w) ->
  aborted w = false ->
  (forall q d r,
      In (HostCall q) (calls w) ->
      github_api env q = Responds d r ->
      ok r = false ->
      ((status r =? 403) || (status r =? 429))
      && includes (toLowerCase (reported_message r)) "secondary rate limit"
      = false ->
      (status r <= 599 ->
       out = Returned (buildErrorResponse (reported_message r)
                         (surfaced_status (status r))))
      /\ (599 < status r < 65536 -> out = Threw RangeError_status))
  /\
  (forall q d e,
      In (ModelCall q) (calls w) ->
      generateText env q = Fails d e ->
      instanceof_Error (Native e) && String.eqb (f_name e) "AbortError" = false ->
      (nullish (f_status e) 502 <= 599 ->
       out = Returned (buildErrorResponse
                         (if instanceof_Error (Native e) then f_message e
                          else "OpenAI text completion failed.")
                         (surfaced_status (nullish (f_status e) 502))))
      /\ (599 < nullish (f_status e) 502 < 65536 ->
          out = Threw RangeError_status)).
Proof.
  intros Hrun Hab. split.
  - intros q d r Hin Hhost Hbad Hnot.
    destruct (handle_host_failure _ _ _ _ _ _ _ _ _ Hrun Hin Hhost Hbad)
      as (a & page & acc & w1 & e & w2 & _ & Hturn & -> & Hw & ->).
    rewrite Hw in Hab. rewrite Hab. unfold reported_message in *.
    apply upstream_error_delivered.
    destruct ((status r =? 403) || (status r =? 429)) eqn:Hlim.
    + assert (Hst : status r = 403 \/ status r = 429).
      { apply orb_true_iff in Hlim.
        destruct Hlim as [H|H]; apply Z.eqb_eq in H; auto. }
      pose proof (fetch_page_limited _ _ _ _ _ _ _ _ _ _ _ _
                    Hturn Hhost Hst Hab) as He.
      cbv zeta in He. simpl in Hnot. rewrite Hnot in He.
      inversion He; subst e. reflexivity.
    + apply orb_false_iff in Hlim. destruct Hlim as [H3 H9].
      apply Z.eqb_neq in H3. apply Z.eqb_neq in H9.
      pose proof (fetch_page_failed _ _ _ _ _ _ _ _ _ _ _ _
                    Hturn Hhost Hbad H3 H9 Hab) as He.
      inversion He; subst e. reflexivity.
  - intros q d e Hin Hfail Hnot.
    destruct (handle_model_call _ _ _ _ _ _ _ Hrun Hin)
      as (a & commits & w1 & o2 & w2 & _ & _ & Hsum & Hc & _ & Hw & ->).
    subst w. cbn [clearTimeout aborted] in Hab.
    rewrite (summary_model_failed _ _ _ _ _ _ _ _ _ _ _ _ _ Hsum Hc Hfail Hab).
    rewrite Hab. unfold model_error_rethrown. rewrite Hnot.
    apply upstream_error_delivered. reflexivity.
Qed.

Lemma upstream_failures_witness :
  fst Scenario.not_found_run = Returned (buildErrorResponse "Not Found" 404).
Proof.
  apply (proj1 (upstream_failures_surfaced Scenario.not_found_env 3
                  (Some "2025-01-01") (Some "2025-01-07")
                  (fst Scenario.not_found_run) (snd Scenario.not_found_run)
                  eq_refl eq_refl)
           Scenario.week_query 200%N Scenario.not_found
           (or_introl eq_refl) eq_refl eq_refl eq_refl).
  simpl. lia.
Defined.

(** A failed model call: the status of the error when it has one of at
    least 400, and 502 otherwise. *)
Example model_failure_statuses :
  fst (Scenario.failing_model_run (Some 401))
  = Returned (buildErrorResponse "The model provider refused the request" 401)
  /\ fst (Scenario.failing_model_run None)
     = Returned (buildErrorResponse "The model provider refused the request" 502)
  /\ fst (Scenario.failing_model_run (Some 302))
     = Returned (buildErrorResponse "The model provider refused the request" 502).
Proof. repeat split; vm_compute; reflexivity. Qed.

(** An upstream status above 599: the response cannot be built, and the
    handler throws instead of answering; its timer is cleared all the
    same.  A status of 65536 or more is taken modulo 65536: 65936 gives a
    response with status 400, and 65740 the TypeError of status 204. *)
Example upstream_status_out_of_range :
  fst Cases.out_of_range_run = Threw RangeError_status
  /\ timer (snd Cases.out_of_range_run) = None
  /\ fst (Scenario.failing_model_run (Some 600)) = Threw RangeError_status
  /\ fst (Scenario.failing_model_run (Some 599))
     = Returned (buildErrorResponse "The model provider refused the request" 599)
  /\ fst (Scenario.failing_model_run (Some 65936))
     = Returned (buildErrorResponse "The model provider refused the request" 400)
  /\ fst (Scenario.failing_model_run (Some 65740))
     = Threw (TypeError_null_body_status 204).
Proof. repeat split; vm_compute; reflexivity. Qed.

(** C4 as stated fails: the host answers 404, the client receives 404. *)
Lemma upstream_failure_not_502 :
  exists q d r,
    In (HostCall q) (calls (snd Scenario.not_found_run)) /\
    github_api Scenario.not_found_env q = Responds d r /\
    ok r = false /\
    includes (toLowerCase (reported_message r)) "secondary rate limit" = false /\
    aborted (snd Scenario.not_found_run) = false /\
    exists response,
      fst Scenario.not_found_run = Returned response /\
      http_status response = 404 /\
      http_status response <> 502.
Proof.
  exists Scenario.week_query, 200%N, Scenario.not_found.
  split; [left; reflexivity|].
  repeat (split; [reflexivity|]).
  exists (buildErrorResponse "Not Found" 404).
  split; [reflexivity|]. split; [reflexivity|].
  simpl. discriminate.
Qed.

(** ** Responses *)

Lemma preflight_accepted env sp ep a :
  preflight env sp ep = inr a ->
  sp = Some (ok_start a) /\ ep = Some (ok_end a) /\
  ok_repo a = nullish (GITHUB_REPO env) EmptyString /\
  ok_token a = nullish (GITHUB_TOKEN env) EmptyString /\
  ok_apiKey a = OPENAI_API_KEY env /\
  ok_model a = normalizeModelName
                 (nullish_opt (OPENAI_MODEL env) (OPENAI_REALTIME_MODEL env)).
Proof.
  unfold preflight.
  destruct sp as [start|], ep as [end_|]; simpl; try discriminate.
  2:{ destruct (is_empty start); discriminate. }
  destruct (is_empty start || is_empty end_); [discriminate|].
  destruct (negb (matches_date_only start) || negb (matches_date_only end_));
    [discriminate|].
  destruct (Date_of_string _ _) as [s|]; [|discriminate].
  destruct (Date_of_string _ _) as [e|]; [|discriminate].
  destruct (e <? s); [discriminate|].
  destruct (MAX_WINDOW_DAYS <? _); [discriminate|].
  destruct (falsy (GITHUB_REPO env)); [discriminate|].
  destruct (falsy (GITHUB_TOKEN env)); [discriminate|].
  intros H; inversion H; subst; simpl; repeat split; auto.
Qed.

Lemma preflight_refusal_is_error env sp ep response :
  preflight env sp ep = inl response ->
  exists m, payload response = ErrorBody m.
Proof.
  unfold preflight.
  repeat match goal with
         | |- context [if ?b then _ else _] => destruct b
         | |- context [match Date_of_string ?p ?x with _ => _ end] =>
             destruct (Date_of_string p x)
         end;
    intros H; inversion H; subst; simpl; eauto.
Qed.

Lemma error_response_is_error fired e :
  exists m, payload (error_response fired e) = ErrorBody m.
Proof.
  unfold error_response.
  destruct fired; [simpl; eauto|].
  destruct e as [s m|u s m|f]; simpl; eauto.
  destruct (_ && _); simpl; eauto.
Qed.

Lemma empty_range_sentence_text start end_ :
  empty_range_sentence start end_
  = "<section><p>No commits found between " ++ start ++ " and " ++ end_
    ++ ".</p></section>".
Proof. reflexivity. Qed.

(** C5.  When the checks pass and the retrieval returns an empty batch, the
    request is answered 200 with no commits and with the fixed sentence that
    names the two dates as [summary_html]; the state is the one the retrieval
    left, so no call to the model was issued. *)
Theorem empty_batch_skips_model env fuel start end_ a w1 :
  preflight env (Some start) (Some end_) = inr a ->
  fetchCommitsFromGitHub env (ok_repo a) (ok_token a)
    (start ++ "T00:00:00Z") (end_ ++ "T23:59:59Z") fuel armed
  = (Returned [], w1) ->
  exists report w,
    handle env fuel (Some start) (Some end_)
    = (Returned (NextResponse_json report), w) /\
    commits report = [] /\
    summary_html report
    = "<section><p>No commits found between " ++ start ++ " and " ++ end_
      ++ ".</p></section>" /\
    calls w = calls w1 /\
    forall q, ~ In (ModelCall q) (calls w).
Proof.
  intros Hpre Hfetch.
  destruct (preflight_accepted _ _ _ _ Hpre) as (Hs & He & _).
  inversion Hs; inversion He; subst start end_.
  rewrite (handle_accepted _ fuel _ _ _ Hpre), Hfetch. simpl.
  eexists _, _. split; [reflexivity|]. simpl.
  repeat split.
  intros q Hin.
  destruct (fetch_anatomy env _ _ _ _ fuel armed _ w1 eq_refl
              (Forall_nil _) Hfetch) as [_ Hall].
  rewrite Forall_forall in Hall.
  exact (answered_ok_not_model _ _ (Hall _ Hin)).
Qed.

Lemma empty_batch_witness :
  exists report w,
    handle (Scenario.quiet_env (Some "sk-key") (Some "gpt-5")) 3
      (Some "2025-01-01") (Some "2025-01-07")
    = (Returned (NextResponse_json report), w) /\
    commits report = [] /\
    summary_html report
    = "<section><p>No commits found between " ++ "2025-01-01" ++ " and "
      ++ "2025-01-07" ++ ".</p></section>" /\
    calls w
    = calls (snd (fetchCommitsFromGitHub
                    (Scenario.quiet_env (Some "sk-key") (Some "gpt-5"))
                    "acme/widgets" "ghp_token" "2025-01-01T00:00:00Z"
                    "2025-01-07T23:59:59Z" 3 armed)) /\
    forall q, ~ In (ModelCall q) (calls w).
Proof.
  apply (empty_batch_skips_model
           (Scenario.quiet_env (Some "sk-key") (Some "gpt-5")) 3
           "2025-01-01" "2025-01-07"
           (Scenario.week_accepted (Some "gpt-5") (Some "sk-key"))).
  - vm_compute. reflexivity.
  - vm_compute. reflexivity.
Defined.

(** C7, as the program has it.  When the checks pass, the retrieval returns
    a batch that is not empty, and the model credential or the model
    identifier is not configured, the request is answered 500 with the
    configuration message; the state is the one the retrieval left, so no
    call to the model was issued. *)
Theorem missing_model_config_rejected env fuel sp ep a batch w1 :
  preflight env sp ep = inr a ->
  fetchCommitsFromGitHub env (ok_repo a) (ok_token a)
    (ok_start a ++ "T00:00:00Z") (ok_end a ++ "T23:59:59Z") fuel armed
  = (Returned batch, w1) ->
  batch <> [] ->
  falsy (OPENAI_API_KEY env) = true \/
  normalizeModelName
    (nullish_opt (OPENAI_MODEL env) (OPENAI_REALTIME_MODEL env)) = None ->
  handle env fuel sp ep
  = (Returned
       (buildErrorResponse
          (unconfigured_message (nullish (OPENAI_API_KEY env) EmptyString)) 500),
     clearTimeout w1)
  /\ forall q, ~ In (ModelCall q) (calls (clearTimeout w1)).
Proof.
  intros Hpre Hfetch Hne Hcfg.
  destruct (preflight_accepted _ _ _ _ Hpre) as (_ & _ & _ & _ & Hkey & Hmodel).
  destruct (fetch_anatomy env _ _ _ _ fuel armed _ w1 eq_refl
              (Forall_nil _) Hfetch) as [Hab Hall].
  split.
  - rewrite (handle_accepted _ fuel _ _ _ Hpre), Hfetch.
    assert (Hlen : (0 <? Z.of_nat (length batch)) = true).
    { destruct batch; [congruence|]. apply Z.ltb_lt. simpl length. lia. }
    rewrite Hlen, Hkey, Hmodel.
    rewrite summary_unconfigured.
    + rewrite Hab. reflexivity.
    + destruct Hcfg as [Hk | Hm].
      * left. destruct (OPENAI_API_KEY env); simpl in *; auto.
      * right. rewrite Hm. reflexivity.
  - intros q Hin. rewrite Forall_forall in Hall.
    exact (answered_ok_not_model _ _ (Hall _ Hin)).
Qed.

Lemma missing_model_config_witness :
  fst Scenario.keyless_run
  = Returned (buildErrorResponse "OPENAI_API_KEY is not configured." 500).
Proof.
  exact (f_equal fst
           (proj1 (missing_model_config_rejected Scenario.keyless_env 3
                     (Some "2025-01-01") (Some "2025-01-07")
                     (Scenario.week_accepted (Some "gpt-5") None)
                     (Scenario.returned_or
                        (fst (fetchCommitsFromGitHub Scenario.keyless_env
                                "acme/widgets" "ghp_token"
                                "2025-01-01T00:00:00Z" "2025-01-07T23:59:59Z"
                                3 armed)) [])
                     (snd (fetchCommitsFromGitHub Scenario.keyless_env
                             "acme/widgets" "ghp_token"
                             "2025-01-01T00:00:00Z" "2025-01-07T23:59:59Z"
                             3 armed))
                     eq_refl eq_refl
                     ltac:(vm_compute; discriminate)
                     (or_introl eq_refl)))).
Defined.

(** C7 as stated fails: with a valid window and no model credential, a
    quiet week is answered 200. *)
Lemma missing_model_config_not_always_500 :
  OPENAI_API_KEY (Scenario.quiet_env None (Some "gpt-5")) = None /\
  (exists a,
      preflight (Scenario.quiet_env None (Some "gpt-5"))
        (Some "2025-01-01") (Some "2025-01-07") = inr a) /\
  exists response,
    fst (Scenario.quiet_run None (Some "gpt-5")) = Returned response /\
    http_status response = 200 /\
    http_status response <> 500.
Proof.
  split; [reflexivity|]. split.
  - eexists. vm_compute. reflexivity.
  - eexists. split; [vm_compute; reflexivity|].
    split; [reflexivity | simpl; discriminate].
Qed.

(** C10, as the program has it.  In every success response the source marker
    is the fixed string "github_live", and [generated_at] is the wall-clock
    time at which the handler finished: the arrival time plus the time the
    request spent waiting. *)
Theorem success_meta_source_and_time env fuel sp ep response report w :
  handle env fuel sp ep = (Returned response, w) ->
  payload response = ReportBody report ->
  source (meta report) = "github_live" /\
  generated_at (meta report) = iso_of_ms (arrival env + elapsed w).
Proof.
  intros Hrun Hbody.
  destruct (preflight env sp ep) as [resp|a] eqn:Hpre.
  { rewrite (handle_refused _ _ _ _ _ Hpre) in Hrun. inversion Hrun; subst.
    destruct (preflight_refusal_is_error _ _ _ _ Hpre) as (m & Hm).
    congruence. }
  rewrite (handle_accepted _ _ _ _ _ Hpre) in Hrun.
  assert (Herr : forall fired e,
             delivered (error_response fired e) = Returned response -> False).
  { intros fired e H. apply delivered_payload in H.
    destruct (error_response_is_error fired e) as (m & Hm). congruence. }
  destruct (fetchCommitsFromGitHub _ _ _ _ _ _ armed) as [[batch|e|] w1].
  - match type of Hrun with
    | context [(if ?b then ?x else ?y) w1] =>
        destruct ((if b then x else y) w1) as [[html|e|] w2]
    end.
    + inversion Hrun; subst. simpl in Hbody. inversion Hbody; subst.
      split; reflexivity.
    + exfalso. inversion Hrun as [[Hr Hw]]. eapply Herr; exact Hr.
    + discriminate.
  - exfalso. inversion Hrun as [[Hr Hw]]. eapply Herr; exact Hr.
  - discriminate.
Qed.

Lemma success_meta_witness :
  exists report,
    Scenario.report_of (fst Scenario.week_run) = Some report /\
    source (meta report) = "github_live" /\
    generated_at (meta report) = "2025-01-08T09:00:03.250Z".
Proof.
  exists (match Scenario.report_of (fst Scenario.week_run) with
          | Some r => r
          | None => responseBody "" None "" "" [] "" 0
          end).
  split; [vm_compute; reflexivity|].
  exact (success_meta_source_and_time
           (Scenario.week_env
              (Scenario.model_says "<section><h2>Week</h2></section>")) 3
           (Some "2025-01-01") (Some "2025-01-07") _ _
           (snd Scenario.week_run) eq_refl eq_refl).
Defined.

(** C10 as stated fails: the marker of a success response is not "live". *)
Lemma success_source_is_not_live :
  exists report,
    Scenario.report_of (fst Scenario.week_run) = Some report /\
    source (meta report) <> "live".
Proof.
  eexists. split; [vm_compute; reflexivity|]. simpl. discriminate.
Qed.

(** ** Repeated runs *)

Lemma normalize_dated now now' c :
  dated c -> normalize now c = normalize now' c.
Proof.
  unfold dated, normalize. intros Hd.
  destruct (nullish_opt _ _) as [when|]; [reflexivity | congruence].
Qed.

Lemma for_each_commit_dated now now' records acc :
  (forall c, In c records -> isMerge c = false -> dated c) ->
  for_each_commit now records acc = for_each_commit now' records acc.
Proof.
  intros Hd. rewrite !for_each_commit_spec. f_equal.
  apply map_ext_in. intros c Hin. unfold kept in Hin.
  apply filter_In in Hin. destruct Hin as [Hin Hkeep].
  apply normalize_dated. apply Hd; auto.
  now apply negb_true_iff in Hkeep.
Qed.

Section TwoRuns.
Variables env1 env2 : Env.
Variables repo token since until : string.
Hypothesis same_host :
  forall q, same_data (github_api env1 q) (github_api env2 q).
Hypothesis dated_host : serves_dated (github_api env1).

(** Two retrievals of the same window against the same data that both
    return, return the same batch, whatever the time each call takes. *)
Lemma retrievals_agree fuel1 :
  forall fuel2 page acc wa wb b1 b2 wa' wb',
    while_true fuel1 (fetch_page env1 repo token since until) (page, acc) wa
    = (Returned b1, wa') ->
    while_true fuel2 (fetch_page env2 repo token since until) (page, acc) wb
    = (Returned b2, wb') ->
    b1 = b2.
Proof.
  induction fuel1 as [|fuel1 IH]; intros fuel2 page acc wa wb b1 b2 wa' wb' H1 H2.
  - discriminate.
  - destruct fuel2 as [|fuel2]; [discriminate|].
    rewrite while_true_turn in H1, H2.
    destruct (fetch_page env1 repo token since until (page, acc) wa)
      as [[step1|e1|] wa1] eqn:E1; try discriminate.
    destruct (fetch_page env2 repo token since until (page, acc) wb)
      as [[step2|e2|] wb1] eqn:E2; try discriminate.
    destruct (fetch_page_returned _ _ _ _ _ _ _ _ _ _ E1)
      as (d1 & r1 & recs1 & Hh1 & Hb1 & _ & _ & _ & Hs1).
    destruct (fetch_page_returned _ _ _ _ _ _ _ _ _ _ E2)
      as (d2 & r2 & recs2 & Hh2 & Hb2 & _ & _ & _ & Hs2).
    pose proof (same_host (page_request repo token since until page)) as Hsame.
    rewrite Hh1, Hh2 in Hsame. destruct Hsame as [_ Hbody].
    rewrite Hb1, Hb2 in Hbody. inversion Hbody; subst recs2.
    assert (Hacc :
              for_each_commit (iso_of_ms (arrival env1 + elapsed wa1)) recs1 acc
              = for_each_commit (iso_of_ms (arrival env2 + elapsed wb1)) recs1 acc).
    { apply for_each_commit_dated. intros c Hin Hkeep.
      eapply dated_host; eauto. }
    cbv zeta in Hs1, Hs2. rewrite Hacc in Hs1.
    destruct (Z.of_nat (length recs1) <? PER_PAGE); subst step1 step2;
      cbv beta iota in H1, H2.
    + congruence.
    + eapply IH; eauto.
Qed.

End TwoRuns.


Lemma week_host_serves_dated : serves_dated Scenario.week_host.
Proof.
  intros q d r records c Hh Hb Hin _.
  unfold Scenario.week_host in Hh.
  destruct (q_page q =? 1); inversion Hh; subst; simpl in Hb;
    inversion Hb; subst; simpl in Hin.
  - repeat (destruct Hin as [<- | Hin]; [unfold dated; simpl; discriminate|]).
    contradiction.
  - contradiction.
Qed.

Lemma week_host_same_data q :
  same_data (Scenario.week_host q) (Scenario.week_host q).
Proof.
  unfold Scenario.week_host. destruct (q_page q =? 1); simpl; auto.
Qed.



(** ** The fallback summary *)

Section Grouping.
Variable pf : Platform.

Lemma group_items_push k key c G :
  group_items k (group_push key c G)
  = if String.eqb key k then List.app (group_items k G) [c]
    else group_items k G.
Proof.
  induction G as [|[k' items] rest IH]; simpl.
  - destruct (String.eqb key k); reflexivity.
  - destruct (String.eqb k' key) eqn:Ek; simpl.
    + apply String.eqb_eq in Ek; subst k'.
      destruct (String.eqb key k); reflexivity.
    + destruct (String.eqb k' k) eqn:Ek'; [|exact IH].
      apply String.eqb_eq in Ek'; subst k'.
      rewrite String.eqb_sym, Ek. reflexivity.
Qed.

Lemma group_push_keys key c G :
  map fst (group_push key c G)
  = if in_dec string_dec key (map fst G) then map fst G
    else List.app (map fst G) [key].
Proof.
  induction G as [|[k' items] rest IH]; simpl; [reflexivity|].
  destruct (String.eqb k' key) eqn:Ek; simpl.
  - apply String.eqb_eq in Ek; subst k'.
    destruct (string_dec key key); [|congruence].
    destruct (in_dec string_dec key (map fst rest)); reflexivity.
  - apply String.eqb_neq in Ek. rewrite IH.
    destruct (string_dec k' key); [congruence|].
    destruct (in_dec string_dec key (map fst rest)); reflexivity.
Qed.

Lemma group_push_well key c G :
  well_grouped G -> well_grouped (group_push key c G).
Proof.
  intros [Hnd Hne]. split.
  - rewrite group_push_keys.
    destruct (in_dec string_dec key (map fst G)); [exact Hnd|].
    apply NoDup_app; [exact Hnd | repeat constructor; auto |].
    intros x Hx [<- | []]. contradiction.
  - clear Hnd. induction G as [|[k' items] rest IH]; simpl.
    + intros k its [H | []]. inversion H; subst. discriminate.
    + destruct (String.eqb k' key); intros k its [H | H].
      * inversion H; subst. destruct items; discriminate.
      * eapply Hne; right; eauto.
      * inversion H; subst. eapply Hne; left; eauto.
      * eapply IH; eauto. intros k0 i0 H0. eapply Hne; right; eauto.
Qed.

Lemma group_items_found G k items :
  NoDup (map fst G) -> In (k, items) G -> group_items k G = items.
Proof.
  induction G as [|[k' its] rest IH]; simpl; [contradiction|].
  intros Hnd [H | H].
  - inversion H; subst. now rewrite String.eqb_refl.
  - inversion Hnd as [|? ? Hnot Hnd']; subst.
    destruct (String.eqb k' k) eqn:Ek; [|auto].
    apply String.eqb_eq in Ek; subst k'.
    exfalso. apply Hnot. apply (in_map fst) in H. exact H.
Qed.

Lemma group_items_key G k :
  group_items k G <> [] -> In k (map fst G).
Proof.
  induction G as [|[k' its] rest IH]; simpl; [congruence|].
  destruct (String.eqb k' k) eqn:Ek; auto.
  apply String.eqb_eq in Ek; auto.
Qed.

(** What the reduction computes: every commit has a day key, and each group
    holds, after what it held before, the commits of its day in order. *)
Lemma group_by_day_spec commits :
  forall acc G,
    group_by_day pf commits acc = Some G ->
    (forall c, In c commits ->
               day_of pf "Unknown date" c = Some (day_key pf c)) /\
    (forall k, group_items k G
               = List.app (group_items k acc) (of_day pf k commits)) /\
    (well_grouped acc -> well_grouped G).
Proof.
  induction commits as [|c rest IH]; intros acc G Hrun; simpl in Hrun.
  - inversion Hrun; subst. split; [|split].
    + intros c [].
    + intros k. simpl. now rewrite app_nil_r.
    + tauto.
  - destruct (day_of pf "Unknown date" c) as [key|] eqn:Ekey; [|discriminate].
    destruct (IH _ _ Hrun) as (Hkeys & Hitems & Hwell).
    assert (Hk : day_key pf c = key) by (unfold day_key; now rewrite Ekey).
    split; [|split].
    + intros c' [<- | Hin]; [congruence | auto].
    + intros k. rewrite Hitems, group_items_push.
      unfold of_day. simpl. rewrite Hk.
      destruct (String.eqb key k); [now rewrite <- app_assoc | reflexivity].
    + intros Hacc. apply Hwell. now apply group_push_well.
Qed.

Lemma of_day_nonempty k commits :
  of_day pf k commits <> [] <-> exists c, In c commits /\ day_key pf c = k.
Proof.
  unfold of_day. split.
  - intros Hne. destruct (filter _ commits) as [|c l] eqn:Ef; [congruence|].
    assert (Hin : In c (filter (fun c => String.eqb (day_key pf c) k) commits))
      by (rewrite Ef; left; reflexivity).
    apply filter_In in Hin. destruct Hin as [Hin Hk].
    exists c. split; auto. now apply String.eqb_eq.
  - intros (c & Hin & Hk) Hnil.
    assert (Hc : In c (filter (fun c => String.eqb (day_key pf c) k) commits)).
    { apply filter_In. split; auto. now apply String.eqb_eq. }
    rewrite Hnil in Hc. contradiction.
Qed.

End Grouping.

Section Sorting.

Lemma sort_insert_perm e l : Permutation (sort_insert e l) (e :: l).
Proof.
  induction l as [|h t IH]; simpl; [reflexivity|].
  destruct (String.leb (fst e) (fst h)); [reflexivity|].
  rewrite IH. apply perm_swap.
Qed.

Lemma sort_by_key_perm G : Permutation (sort_by_key G) G.
Proof.
  induction G as [|e G IH]; simpl; [reflexivity|].
  rewrite sort_insert_perm. now constructor.
Qed.

Lemma sort_insert_sorted e l :
  Sorted key_le l -> Sorted key_le (sort_insert e l).
Proof.
  induction l as [|h t IH]; simpl; intros Hs.
  - repeat constructor.
  - destruct (String.leb (fst e) (fst h)) eqn:El.
    + constructor; [exact Hs | constructor; exact El].
    + apply Sorted_inv in Hs. destruct Hs as [Ht Hh].
      constructor; [auto|].
      assert (Hhe : key_le h e).
      { unfold key_le. destruct (String.leb_total (fst e) (fst h)); congruence. }
      destruct t as [|h' t']; simpl.
      * constructor. exact Hhe.
      * destruct (String.leb (fst e) (fst h')); constructor; auto.
        apply HdRel_inv in Hh. exact Hh.
Qed.

Lemma sort_by_key_sorted G : Sorted key_le (sort_by_key G).
Proof.
  induction G as [|e G IH]; simpl; [constructor|].
  now apply sort_insert_sorted.
Qed.

Lemma leb_distinct_ltb a b :
  String.leb a b = true -> a <> b -> String.ltb a b = true.
Proof.
  unfold String.leb, String.ltb. intros Hle Hne.
  destruct (String.compare a b) eqn:Ec; try reflexivity; try discriminate.
  apply String.compare_eq_iff in Ec. contradiction.
Qed.

(** Sorted keys that are distinct ascend strictly. *)
Lemma sorted_distinct_ascending (l : Grouped) :
  Sorted key_le l ->
  NoDup (map fst l) ->
  Sorted (fun a b => String.ltb a b = true) (map fst l).
Proof.
  induction l as [|a l IH]; simpl; intros Hs Hnd; [constructor|].
  apply Sorted_inv in Hs. destruct Hs as [Hl Hh].
  inversion Hnd as [|? ? Hnot Hnd']; subst.
  constructor; [auto|].
  destruct l as [|b l']; simpl; constructor.
  apply HdRel_inv in Hh. apply leb_distinct_ltb; [exact Hh|].
  intros Heq. apply Hnot. left. now symmetry.
Qed.

End Sorting.

Lemma to_list_app a b : to_list (a ++ b) = List.app (to_list a) (to_list b).
Proof.
  unfold to_list. induction a as [|c a IH]; simpl; [reflexivity|].
  now rewrite IH.
Qed.

(** No character of an escaped text opens or closes a tag or a quoted
    attribute. *)
Lemma escapeHtml_no_markup input c :
  In c (to_list (escapeHtml input)) -> markup_char c = false.
Proof.
  induction input as [|x rest IH]; simpl; [contradiction|].
  rewrite to_list_app. intros Hin. apply in_app_or in Hin.
  destruct Hin as [Hin | Hin]; [|auto].
  unfold escape_char in Hin.
  destruct (Ascii.eqb x "&") eqn:E1;
    [simpl in Hin; repeat (destruct Hin as [<- | Hin]; [reflexivity|]);
     contradiction|].
  destruct (Ascii.eqb x "<") eqn:E2;
    [simpl in Hin; repeat (destruct Hin as [<- | Hin]; [reflexivity|]);
     contradiction|].
  destruct (Ascii.eqb x ">") eqn:E3;
    [simpl in Hin; repeat (destruct Hin as [<- | Hin]; [reflexivity|]);
     contradiction|].
  destruct (Ascii.eqb x (chr 34)) eqn:E4;
    [simpl in Hin; repeat (destruct Hin as [<- | Hin]; [reflexivity|]);
     contradiction|].
  destruct (Ascii.eqb x "'") eqn:E5;
    [simpl in Hin; repeat (destruct Hin as [<- | Hin]; [reflexivity|]);
     contradiction|].
  simpl in Hin. destruct Hin as [<- | []].
  unfold markup_char. now rewrite E2, E3, E4, E5.
Qed.

Lemma render_item_text commit :
  render_item commit
  = "<li><strong>" ++ escapeHtml (item_text commit) ++ "</strong></li>".
Proof. reflexivity. Qed.

Lemma sections_not_empty e l :
  is_empty (join EmptyString (map render_article (e :: l))) = false.
Proof. destruct e as [day items]; destruct l; reflexivity. Qed.

(** What the fallback renderer returns for a batch that is not empty: the
    page around groups whose keys ascend strictly, one group for each day
    key that occurs, each holding the commits of its day in batch order. *)
Lemma buildFallbackSummary_spec pf repo start end_ commits html :
  commits <> [] ->
  buildFallbackSummary pf repo start end_ commits = Some html ->
  exists groups,
    html = fallback_page pf start end_ groups /\
    Sorted (fun a b => String.ltb a b = true) (map fst groups) /\
    (forall k, In k (map fst groups) <->
               exists c, In c commits /\ day_key pf c = k) /\
    (forall k items, In (k, items) groups -> items = of_day pf k commits) /\
    (forall c, In c commits ->
               day_of pf "Unknown date" c = Some (day_key pf c)).
Proof.
  intros Hne Hrun. unfold buildFallbackSummary in Hrun.
  destruct (group_by_day pf commits []) as [G|] eqn:Hg; [|discriminate].
  destruct (group_by_day_spec pf commits [] G Hg) as (Hkeys & Hitems & Hwell).
  destruct Hwell as [Hnd Hfull].
  { split; [constructor | intros k items []]. }
  assert (Hperm := sort_by_key_perm G).
  assert (Hkey_iff : forall k, In k (map fst (sort_by_key G)) <->
                               exists c, In c commits /\ day_key pf c = k).
  { intros k. rewrite <- of_day_nonempty.
    specialize (Hitems k). simpl in Hitems. rewrite <- Hitems. split.
    - intros Hin.
      apply (Permutation_in _ (Permutation_map fst Hperm)) in Hin.
      apply in_map_iff in Hin. destruct Hin as ([k' items] & Hk & Hin).
      simpl in Hk; subst k'.
      rewrite (group_items_found _ _ _ Hnd Hin). eapply Hfull; eauto.
    - intros Hin. apply group_items_key in Hin.
      apply (Permutation_in _ (Permutation_sym (Permutation_map fst Hperm))).
      exact Hin. }
  exists (sort_by_key G). split; [|split; [|split; [|split]]].
  - destruct (sort_by_key G) as [|e l] eqn:Es.
    + exfalso. destruct commits as [|c rest]; [congruence|].
      apply (proj2 (Hkey_iff (day_key pf c))).
      exists c. split; [left|]; reflexivity.
    + unfold or_else in Hrun. rewrite sections_not_empty in Hrun.
      inversion Hrun. reflexivity.
  - apply sorted_distinct_ascending; [apply sort_by_key_sorted|].
    eapply Permutation_NoDup; [|exact Hnd].
    apply Permutation_sym, Permutation_map, Hperm.
  - exact Hkey_iff.
  - intros k items Hin.
    apply (Permutation_in _ Hperm) in Hin.
    rewrite <- (group_items_found _ _ _ Hnd Hin).
    now rewrite Hitems.
  - exact Hkeys.
Qed.

(** The summary stage calls the model only for a batch that is not empty. *)
Lemma summary_call_nonempty env model apiKey repo start end_ commits w o w' q :
  generateSummaryHtml env model apiKey repo start end_ commits w = (o, w') ->
  calls w' = List.app (calls w) [ModelCall q] ->
  commits <> [].
Proof.
  intros H Hcalls Hnil. subst commits.
  unfold generateSummaryHtml in H. simpl in H.
  destruct (is_empty apiKey), (is_empty model);
    unfold throw, ret in H; inversion H; subst;
    symmetry in Hcalls; revert Hcalls;
    rewrite <- (app_nil_r (calls w')) at 2;
    intros Hcalls; apply app_inv_head in Hcalls; discriminate.
Qed.

(** C6, as the program has it.  In every success response to a request whose
    model call answered with nothing but white space, [summary_html] is the
    fallback page: the sentence describing the span of dates, then one
    article per day key, the keys ascending strictly.  The day key of a
    commit is the UTC calendar day of its date, or "Unknown date" when its
    date string is empty; there is one article for each day key that occurs,
    holding the commits of that day in batch order.  Each commit is listed by
    its summary line or, when that is empty, by the first line of its message
    or else its sha, with the characters of markup escaped. *)
Theorem blank_model_text_gives_fallback
        env fuel sp ep response report w q d text :
  handle env fuel sp ep = (Returned response, w) ->
  payload response = ReportBody report ->
  In (ModelCall q) (calls w) ->
  generateText env q = Generates d text ->
  is_empty (trim text) = true ->
  exists groups,
    summary_html report
    = fallback_page (platform env) (start report) (end_ report) groups /\
    Sorted (fun a b => String.ltb a b = true) (map fst groups) /\
    (forall k, In k (map fst groups) <->
               exists c, In c (commits report) /\ day_key (platform env) c = k) /\
    (forall k items,
        In (k, items) groups ->
        items = of_day (platform env) k (commits report)) /\
    (forall c, In c (commits report) ->
               day_of (platform env) "Unknown date" c
               = Some (day_key (platform env) c)) /\
    (forall c,
        render_item c
        = "<li><strong>" ++ escapeHtml (item_text c) ++ "</strong></li>" /\
        forall x, In x (to_list (escapeHtml (item_text c))) ->
                  markup_char x = false).
Proof.
  intros Hrun Hp Hin Hgen Hblank.
  destruct (handle_model_call _ _ _ _ _ _ _ Hrun Hin)
    as (a & batch & w1 & o2 & w2 & _ & _ & Hsum & Hc & _ & _ & Hout).
  destruct o2 as [html|e|]; [| |discriminate].
  2:{ exfalso. symmetry in Hout. apply delivered_payload in Hout.
      destruct (error_response_is_error (aborted w2) e) as (m & Hm).
      congruence. }
  inversion Hout; subst response. simpl in Hp. inversion Hp; subst report.
  pose proof (summary_call_nonempty _ _ _ _ _ _ _ _ _ _ _ Hsum Hc) as Hne.
  pose proof (summary_blank_text _ _ _ _ _ _ _ _ _ _ _ _ _
                Hsum Hc Hgen Hblank) as Hfb.
  destruct (buildFallbackSummary_spec _ _ _ _ _ _ Hne Hfb)
    as (groups & Hhtml & Hsorted & Hkeys & Hitems & Hdays).
  exists groups. simpl. repeat (split; [assumption|]).
  intros c. split; [reflexivity|]. apply escapeHtml_no_markup.
Qed.

Lemma blank_model_text_witness :
  exists groups,
    summary_html (Scenario.report_or_blank (fst Scenario.blank_run))
    = fallback_page Scenario.utc_platform "2025-01-01" "2025-01-07" groups /\
    Sorted (fun a b => String.ltb a b = true) (map fst groups) /\
    (forall k, In k (map fst groups) <->
               exists c,
                 In c (commits (Scenario.report_or_blank (fst Scenario.blank_run)))
                 /\ day_key Scenario.utc_platform c = k) /\
    (forall k items,
        In (k, items) groups ->
        items = of_day Scenario.utc_platform k
                  (commits (Scenario.report_or_blank (fst Scenario.blank_run)))) /\
    (forall c,
        In c (commits (Scenario.report_or_blank (fst Scenario.blank_run))) ->
        day_of Scenario.utc_platform "Unknown date" c
        = Some (day_key Scenario.utc_platform c)) /\
    (forall c,
        render_item c
        = "<li><strong>" ++ escapeHtml (item_text c) ++ "</strong></li>" /\
        forall x, In x (to_list (escapeHtml (item_text c))) ->
                  markup_char x = false).
Proof.
  exact (blank_model_text_gives_fallback Scenario.blank_env 3
           (Some "2025-01-01") (Some "2025-01-07")
           (Scenario.response_of (fst Scenario.blank_run))
           (Scenario.report_or_blank (fst Scenario.blank_run))
           (snd Scenario.blank_run)
           (Scenario.model_query (snd Scenario.blank_run))
           3000%N (String " " (String LF " "))
           eq_refl eq_refl (or_intror (or_introl eq_refl)) eq_refl eq_refl).
Defined.

(** The day keys of the busy week, as the fallback orders them: the commit
    made at 23:30 in a zone five hours behind UTC belongs to the next day. *)
Example blank_week_days :
  option_map (fun G => map fst (sort_by_key G))
    (group_by_day Scenario.utc_platform
       (Scenario.commits_of (fst Scenario.blank_run)) [])
  = Some ["2025-01-02"; "2025-01-03"; "2025-01-05"; "2025-01-06"].
Proof. vm_compute. reflexivity. Qed.

(** C6 as stated fails on two counts: a commit with an empty summary line is
    listed by its sha, and a commit with an empty date string is filed under
    "Unknown date", which is no calendar day. *)
Lemma fallback_lists_sha_and_unknown_date :
  exists report untitled undated,
    Scenario.report_of (fst Scenario.odd_run) = Some report /\
    commits report = [untitled; undated] /\
    summary_line untitled = EmptyString /\
    sha untitled = "d2" /\
    includes (summary_html report)
      ("<li><strong>" ++ escapeHtml (summary_line untitled)
       ++ "</strong></li>") = false /\
    includes (summary_html report) "<li><strong>d2</strong></li>" = true /\
    date undated = EmptyString /\
    includes (summary_html report) "<h3>Unknown date</h3>" = true.
Proof.
  eexists _, _, _.
  split; [vm_compute; reflexivity|].
  split; [reflexivity|].
  repeat (split; [vm_compute; reflexivity|]).
  vm_compute; reflexivity.
Qed.

(** ** The deadline *)

Lemma respects_ret {A} (a : A) : respects_deadline (ret a).
Proof.
  unfold ret. repeat split; intros; inversion H0; subst; auto; try lia.
  - apply H.
  - apply H.
  - left. eauto.
Qed.

Lemma respects_throw {A} (e : Thrown) : respects_deadline (@throw A e).
Proof.
  unfold throw. repeat split; intros; inversion H0; subst; auto; try lia.
  - apply H.
  - apply H.
  - left. eauto.
Qed.

Lemma respects_out_of_fuel {A} :
  respects_deadline (fun w => (@OutOfFuel A, w)).
Proof.
  repeat split; intros; inversion H0; subst; auto; try lia.
  - apply H.
  - apply H.
  - left. eauto.
Qed.

Lemma respects_record_call c : respects_deadline (record_call c).
Proof.
  unfold record_call. split; [|split].
  - intros w o w' Ha H. inversion H; subst; auto.
  - intros w o w' [Ht Ha] H. inversion H; subst; simpl.
    repeat split; auto; lia.
  - intros wf wt o wf' (Hu & Ht & Ha & He & Hc & Hle) H.
    inversion H; subst. left. eexists. split; [reflexivity|].
    destruct Hu. repeat split; simpl; auto. now rewrite Hc.
Qed.

Lemma respects_Date_now env : respects_deadline (Date_now env).
Proof.
  unfold Date_now. split; [|split].
  - intros w o w' Ha H. inversion H; subst; auto.
  - intros w o w' Hu H. inversion H; subst. split; auto; lia.
  - intros wf wt o wf' Hs H. inversion H; subst. left.
    destruct Hs as (Hu & Ht & Ha & He & Hc & Hle).
    exists wt. rewrite He. split; [reflexivity|].
    repeat split; auto; apply Hu.
Qed.

Lemma respects_await d : respects_deadline (await_abortable d).
Proof.
  split; [|split].
  - intros w o w' Ha H. unfold await_abortable in H. rewrite Ha in H.
    inversion H; subst; auto.
  - intros w o w' [Ht Ha] H. unfold await_abortable in H.
    rewrite Ha, Ht in H. inversion H; subst; simpl.
    repeat split; auto; lia.
  - intros wf wt o wf' ([Htf Haf] & Ht & Ha & He & Hc & Hle) H.
    unfold await_abortable in *. rewrite Haf, Htf in H.
    inversion H; subst; simpl. rewrite Ha, Ht.
    destruct (TOTAL_TIMEOUT_MS <=? elapsed wt + Z.of_N d) eqn:Elate.
    + right. apply Z.leb_le in Elate.
      eexists _, _. split; [reflexivity|]. simpl. repeat split; auto; lia.
    + left. apply Z.leb_gt in Elate.
      eexists. split; [reflexivity|].
      unfold in_step, untimed; simpl. repeat split; auto; lia.
Qed.

Lemma respects_bind {A B} (m : M A) (k : A -> M B) :
  respects_deadline m ->
  (forall a, respects_deadline (k a)) ->
  respects_deadline (bind m k).
Proof.
  intros (Sm & Mm & Tm) Hk. split; [|split].
  - intros w o w' Ha H. unfold bind in H.
    destruct (m w) as [[a|e|] w1] eqn:Em;
      destruct (Sm _ _ _ Ha Em) as [Ha1 He1].
    + destruct (Hk a) as (Sk & _ & _).
      destruct (Sk _ _ _ Ha1 H). split; auto; lia.
    + inversion H; subst; auto.
    + inversion H; subst; auto.
  - intros w o w' Hu H. unfold bind in H.
    destruct (m w) as [[a|e|] w1] eqn:Em;
      destruct (Mm _ _ _ Hu Em) as [Hu1 Hle1].
    + destruct (Hk a) as (_ & Mk & _).
      destruct (Mk _ _ _ Hu1 H). split; auto; lia.
    + inversion H; subst; auto.
    + inversion H; subst; auto.
  - intros wf wt o wf' Hs H. unfold bind in H.
    destruct (m wf) as [om wf1] eqn:Em.
    assert (Hu1 : untimed wf1 /\ elapsed wf <= elapsed wf1)
      by (eapply Mm; [apply Hs | exact Em]).
    destruct (Tm _ _ _ _ Hs Em)
      as [(wt1 & Et & Hs1) | (o1 & wt1 & Et & Ha1 & He1 & Hlate)].
    + unfold bind. rewrite Et. destruct om as [a|e|].
      * destruct (Hk a) as (_ & _ & Tk). exact (Tk _ _ _ _ Hs1 H).
      * inversion H; subst. left. eauto.
      * inversion H; subst. left. eauto.
    + right. unfold bind. rewrite Et.
      assert (Hfinal : TOTAL_TIMEOUT_MS <= elapsed wf').
      { destruct om as [a|e|].
        - destruct (Hk a) as (_ & Mk & _).
          destruct (Mk _ _ _ (proj1 Hu1) H). lia.
        - inversion H; subst; lia.
        - inversion H; subst; lia. }
      destruct o1 as [a1|e1|].
      * destruct (k a1 wt1) as [o2 wt2] eqn:Ek.
        destruct (Hk a1) as (Sk & _ & _).
        destruct (Sk _ _ _ Ha1 Ek) as [Ha2 He2].
        exists o2, wt2. repeat split; auto; lia.
      * eexists _, _. repeat split; eauto.
      * eexists _, _. repeat split; eauto.
Qed.

Lemma respects_try_catch {A} (m : M A) (h : Thrown -> M A) :
  respects_deadline m ->
  (forall e, respects_deadline (h e)) ->
  respects_deadline (try_catch m h).
Proof.
  intros (Sm & Mm & Tm) Hh. split; [|split].
  - intros w o w' Ha H. unfold try_catch in H.
    destruct (m w) as [[a|e|] w1] eqn:Em;
      destruct (Sm _ _ _ Ha Em) as [Ha1 He1].
    + inversion H; subst; auto.
    + destruct (Hh e) as (Sh & _ & _).
      destruct (Sh _ _ _ Ha1 H). split; auto; lia.
    + inversion H; subst; auto.
  - intros w o w' Hu H. unfold try_catch in H.
    destruct (m w) as [[a|e|] w1] eqn:Em;
      destruct (Mm _ _ _ Hu Em) as [Hu1 Hle1].
    + inversion H; subst; auto.
    + destruct (Hh e) as (_ & Mh & _).
      destruct (Mh _ _ _ Hu1 H). split; auto; lia.
    + inversion H; subst; auto.
  - intros wf wt o wf' Hs H. unfold try_catch in H.
    destruct (m wf) as [om wf1] eqn:Em.
    assert (Hu1 : untimed wf1 /\ elapsed wf <= elapsed wf1)
      by (eapply Mm; [apply Hs | exact Em]).
    destruct (Tm _ _ _ _ Hs Em)
      as [(wt1 & Et & Hs1) | (o1 & wt1 & Et & Ha1 & He1 & Hlate)].
    + unfold try_catch. rewrite Et. destruct om as [a|e|].
      * inversion H; subst. left. eauto.
      * destruct (Hh e) as (_ & _ & Th). exact (Th _ _ _ _ Hs1 H).
      * inversion H; subst. left. eauto.
    + right. unfold try_catch. rewrite Et.
      assert (Hfinal : TOTAL_TIMEOUT_MS <= elapsed wf').
      { destruct om as [a|e|].
        - inversion H; subst; lia.
        - destruct (Hh e) as (_ & Mh & _).
          destruct (Mh _ _ _ (proj1 Hu1) H). lia.
        - inversion H; subst; lia. }
      destruct o1 as [a1|e1|].
      * eexists _, _. repeat split; eauto.
      * destruct (h e1 wt1) as [o2 wt2] eqn:Ek.
        destruct (Hh e1) as (Sh & _ & _).
        destruct (Sh _ _ _ Ha1 Ek) as [Ha2 He2].
        exists o2, wt2. repeat split; auto; lia.
      * eexists _, _. repeat split; eauto.
Qed.

Lemma respects_while {S R} (body : S -> M (Step S R)) :
  (forall s, respects_deadline (body s)) ->
  forall fuel s, respects_deadline (while_true fuel body s).
Proof.
  intros Hbody fuel. induction fuel as [|fuel IH]; intros s; simpl.
  - apply respects_out_of_fuel.
  - apply respects_bind; [apply Hbody|].
    intros [s'|r]; [apply IH | apply respects_ret].
Qed.

Ltac respect :=
  repeat first
    [ apply respects_ret
    | apply respects_throw
    | apply respects_await
    | apply respects_record_call
    | apply respects_Date_now
    | apply respects_bind; [|intros ?]
    | apply respects_try_catch; [|intros ?]
    | match goal with
      | |- respects_deadline (if ?b then _ else _) => destruct b
      | |- respects_deadline (match ?x with _ => _ end) => destruct x
      end ].

Lemma respects_fetch_page env repo token since until vars :
  respects_deadline (fetch_page env repo token since until vars).
Proof.
  destruct vars as [page acc].
  unfold fetch_page, fetch, json. respect.
Qed.

Lemma respects_fetchCommits env repo token since until fuel :
  respects_deadline (fetchCommitsFromGitHub env repo token since until fuel).
Proof.
  unfold fetchCommitsFromGitHub. apply respects_while.
  intros vars. apply respects_fetch_page.
Qed.

Lemma respects_generateSummaryHtml env model apiKey repo start end_ commits :
  respects_deadline
    (generateSummaryHtml env model apiKey repo start end_ commits).
Proof.
  unfold generateSummaryHtml, call_model, or_RangeError, rethrow_model_error.
  respect.
Qed.

Lemma respects_stages env fuel repo token model apiKey start end_ :
  respects_deadline (stages env fuel repo token model apiKey start end_).
Proof.
  unfold stages, toIsoRange. apply respects_bind.
  - apply respects_fetchCommits.
  - intros commits. apply respects_bind.
    + destruct (0 <? Z.of_nat (length commits));
        [apply respects_generateSummaryHtml | apply respects_ret].
    + intros html. respect.
Qed.

Lemma boot_in_step : in_step boot armed.
Proof.
  unfold in_step, untimed, boot, armed, TOTAL_TIMEOUT_MS; simpl.
  repeat split; auto; lia.
Qed.

(** Under the deadline, the two stages that end with the signal fired end by
    throwing. *)
Lemma stages_aborted env fuel a o w :
  stages env fuel (ok_repo a) (ok_token a) (ok_model a) (ok_apiKey a)
    (ok_start a) (ok_end a) armed = (o, w) ->
  aborted w = true ->
  exists e, o = Threw e.
Proof.
  intros Hrun Hab. unfold stages, toIsoRange, bind in Hrun.
  destruct (fetchCommitsFromGitHub _ _ _ _ _ _ armed) as [o1 w1] eqn:Hfetch.
  pose proof (fetch_anatomy env _ _ _ _ fuel armed o1 w1 eq_refl
                (Forall_nil _) Hfetch) as Hana.
  destruct o1 as [commits|e|].
  - destruct Hana as [Hab1 _].
    destruct (0 <? Z.of_nat (length commits)).
    + destruct (generateSummaryHtml _ _ _ _ _ _ _ w1) as [o2 w2] eqn:Hsum.
      destruct (summary_aborted _ _ _ _ _ _ _ _ _ _ Hsum) as [Hfuel Hthrow].
      destruct o2 as [html|e|].
      * unfold Date_now, ret in Hrun. inversion Hrun; subst.
        destruct (Hthrow Hab1 Hab) as (e & He). discriminate.
      * inversion Hrun; subst. eauto.
      * congruence.
    + unfold ret, Date_now in Hrun. inversion Hrun; subst. congruence.
  - inversion Hrun; subst. eauto.
  - destruct Hana as [Hab1 _]. inversion Hrun; subst. congruence.
Qed.

(** C9.  Take a request that passes the checks, and let its two stages run
    with no timer armed: they end after [elapsed wf] milliseconds of waiting.
    If that is more than the 120 seconds of the deadline, then the handler,
    which arms the timer, answers 504 with the timeout message; its signal
    has fired, and it has waited exactly up to the deadline, whichever call
    was in flight at that moment and whatever was retrieved before. *)
Theorem deadline_exceeded_gives_504 env fuel sp ep a o wf :
  preflight env sp ep = inr a ->
  stages env fuel (ok_repo a) (ok_token a) (ok_model a) (ok_apiKey a)
    (ok_start a) (ok_end a) boot = (o, wf) ->
  TOTAL_TIMEOUT_MS < elapsed wf ->
  exists w,
    handle env fuel sp ep
    = (Returned (buildErrorResponse timeout_message 504), w) /\
    aborted w = true /\
    elapsed w = TOTAL_TIMEOUT_MS.
Proof.
  intros Hpre Hfree Hlate.
  destruct (respects_stages env fuel (ok_repo a) (ok_token a) (ok_model a)
              (ok_apiKey a) (ok_start a) (ok_end a)) as (_ & _ & Hsim).
  destruct (Hsim _ _ _ _ boot_in_step Hfree)
    as [(wt & _ & Hstep) | (o' & wt & Hrun & Hab & Hat & _)].
  { destruct Hstep as (_ & _ & _ & He & _ & Hle). lia. }
  destruct (stages_aborted _ _ _ _ _ Hrun Hab) as (e & ->).
  exists (clearTimeout wt). split; [|split; assumption].
  unfold handle, GET. rewrite Hpre.
  unfold bind at 1. unfold setTimeout_abort. simpl.
  change {| elapsed := 0; timer := Some TOTAL_TIMEOUT_MS; aborted := false;
            calls := [] |} with armed.
  unfold finally, try_catch. rewrite Hrun.
  unfold on_error, bind, signal_aborted, ret. rewrite Hab. reflexivity.
Qed.

Lemma deadline_exceeded_witness :
  exists w,
    handle (Scenario.week_env_at Scenario.t_morning 130000) 3
      (Some "2025-01-01") (Some "2025-01-07")
    = (Returned (buildErrorResponse timeout_message 504), w) /\
    aborted w = true /\
    elapsed w = TOTAL_TIMEOUT_MS.
Proof.
  exact (deadline_exceeded_gives_504
           (Scenario.week_env_at Scenario.t_morning 130000) 3
           (Some "2025-01-01") (Some "2025-01-07")
           (Scenario.week_accepted (Some "gpt-5") (Some "sk-key"))
           (fst Scenario.slow_model_work) (snd Scenario.slow_model_work)
           eq_refl eq_refl eq_refl).
Defined.

(** The same answer when the deadline passes during the retrieval, and a
    report when the model answers just in time. *)
Example deadline_during_retrieval :
  fst (handle Scenario.slow_host_env 3 (Some "2025-01-01") (Some "2025-01-07"))
  = Returned (buildErrorResponse "Processing exceeded the 120s timeout." 504).
Proof. vm_compute. reflexivity. Qed.

(** The retrieval of the busy week takes 250 ms.  A model that answers one
    millisecond before the deadline is in time; one that answers at the
    very instant of the deadline is not: the timer fires first. *)
Example answer_at_the_deadline :
  http_status
    (Scenario.response_of
       (fst (Scenario.week_run_at Scenario.t_morning 119749))) = 200 /\
  http_status
    (Scenario.response_of
       (fst (Scenario.week_run_at Scenario.t_morning 119750))) = 504 /\
  elapsed (snd (Scenario.week_run_at Scenario.t_morning 119750))
  = TOTAL_TIMEOUT_MS.
Proof. repeat split; vm_compute; reflexivity. Qed.

(** In general: two stages that need exactly the 120 seconds of the deadline
    are answered 504 as well. *)
Lemma deadline_reached_gives_504 env fuel sp ep a o wf :
  preflight env sp ep = inr a ->
  stages env fuel (ok_repo a) (ok_token a) (ok_model a) (ok_apiKey a)
    (ok_start a) (ok_end a) boot = (o, wf) ->
  TOTAL_TIMEOUT_MS <= elapsed wf ->
  exists w,
    handle env fuel sp ep
    = (Returned (buildErrorResponse timeout_message 504), w) /\
    aborted w = true /\
    elapsed w = TOTAL_TIMEOUT_MS.
Proof.
  intros Hpre Hfree Hlate.
  destruct (respects_stages env fuel (ok_repo a) (ok_token a) (ok_model a)
              (ok_apiKey a) (ok_start a) (ok_end a)) as (_ & _ & Hsim).
  destruct (Hsim _ _ _ _ boot_in_step Hfree)
    as [(wt & _ & Hstep) | (o' & wt & Hrun & Hab & Hat & _)].
  { destruct Hstep as (_ & _ & _ & He & _ & Hle). lia. }
  destruct (stages_aborted _ _ _ _ _ Hrun Hab) as (e & ->).
  exists (clearTimeout wt). split; [|split; assumption].
  unfold handle, GET. rewrite Hpre.
  unfold bind at 1. unfold setTimeout_abort. simpl.
  change {| elapsed := 0; timer := Some TOTAL_TIMEOUT_MS; aborted := false;
            calls := [] |} with armed.
  unfold finally, try_catch. rewrite Hrun.
  rewrite on_error_delivered, Hab. reflexivity.
Qed.

(** ** The window in calendar terms *)

Lemma strip_prefix_app p l l' rest :
  strip_prefix p l = Some l' ->
  strip_prefix p (List.app l rest) = Some (List.app l' rest).
Proof.
  revert l; induction p as [|a p IH]; intros l H; simpl in *.
  - inversion H; reflexivity.
  - destruct l as [|b l]; [discriminate|]. simpl.
    destruct (Ascii.eqb a b); [auto | discriminate].
Qed.

Lemma read_digits_app n : forall acc l v l' rest,
  read_digits n acc l = Some (v, l') ->
  read_digits n acc (List.app l rest) = Some (v, List.app l' rest).
Proof.
  induction n as [|n IH]; intros acc l v l' rest H; simpl in *.
  - inversion H; reflexivity.
  - destruct l as [|c l]; [discriminate|]. simpl.
    destruct (is_digit c); [auto | discriminate].
Qed.

Lemma read_digits_bound n : forall acc l v l',
  0 <= acc ->
  read_digits n acc l = Some (v, l') ->
  0 <= v < (acc + 1) * 10 ^ Z.of_nat n.
Proof.
  induction n as [|n IH]; intros acc l v l' Hacc H; cbn [read_digits] in H.
  - inversion H; subst. simpl. lia.
  - destruct l as [|c l]; [discriminate|].
    destruct (is_digit c) eqn:Ed; [|discriminate].
    assert (Hc : 0 <= digit_val c <= 9).
    { unfold is_digit in Ed. unfold digit_val.
      apply andb_true_iff in Ed. destruct Ed as [H1 H2].
      apply Nat.leb_le in H1. apply Nat.leb_le in H2. lia. }
    apply IH in H; [|lia].
    rewrite Nat2Z.inj_succ, Z.pow_succ_r by lia. nia.
Qed.

(** A well-formed legal date: the handler's two tests pass and the date is
    the instant at which its day starts. *)
Lemma legal_date_accepted pf s day :
  read_date (to_list s) = Some (day, []) ->
  matches_date_only s = true /\
  Date_of_string pf (s ++ "T00:00:00Z") = Some (day * msPerDay).
Proof.
  intros H. split.
  - unfold read_date in H. unfold matches_date_only.
    destruct (read_digits 4 0 (to_list s)) as [[y l1]|]; [|discriminate].
    destruct (expect "-" l1) as [l2|]; [|discriminate].
    destruct (read_digits 2 0 l2) as [[m l3]|]; [|discriminate].
    destruct (expect "-" l3) as [l4|]; [|discriminate].
    destruct (read_digits 2 0 l4) as [[d l5]|]; [|discriminate].
    destruct ((1 <=? m) && (m <=? 12) && (1 <=? d) && (d <=? days_in_month y m));
      inversion H; reflexivity.
  - assert (Hrest : read_date (to_list (s ++ "T00:00:00Z"))
                    = Some (day, to_list "T00:00:00Z")).
    { rewrite to_list_app. unfold read_date in *.
      destruct (read_digits 4 0 (to_list s)) as [[y l1]|] eqn:E1; [|discriminate].
      rewrite (read_digits_app _ _ _ _ _ _ E1).
      unfold expect in *.
      destruct (strip_prefix (to_list "-") l1) as [l2|] eqn:E2; [|discriminate].
      rewrite (strip_prefix_app _ _ _ _ E2).
      destruct (read_digits 2 0 l2) as [[m l3]|] eqn:E3; [|discriminate].
      rewrite (read_digits_app _ _ _ _ _ _ E3).
      destruct (strip_prefix (to_list "-") l3) as [l4|] eqn:E4; [|discriminate].
      rewrite (strip_prefix_app _ _ _ _ E4).
      destruct (read_digits 2 0 l4) as [[d l5]|] eqn:E5; [|discriminate].
      rewrite (read_digits_app _ _ _ _ _ _ E5).
      destruct ((1 <=? m) && (m <=? 12) && (1 <=? d) && (d <=? days_in_month y m));
        inversion H; reflexivity. }
    unfold Date_of_string, parse_utc_form. rewrite Hrest. simpl.
    replace (day * msPerDay + 0 - 0) with (day * msPerDay) by lia.
    unfold TimeClip.
    assert (Hbound : Z.abs (day * msPerDay) <= 8640000000000000).
    { unfold read_date in H.
      destruct (read_digits 4 0 (to_list s)) as [[y l1]|] eqn:E1; [|discriminate].
      destruct (expect "-" l1) as [l2|]; [|discriminate].
      destruct (read_digits 2 0 l2) as [[m l3]|] eqn:E3; [|discriminate].
      destruct (expect "-" l3) as [l4|]; [|discriminate].
      destruct (read_digits 2 0 l4) as [[d l5]|] eqn:E5; [|discriminate].
      apply read_digits_bound in E1; [|lia].
      apply read_digits_bound in E3; [|lia].
      apply read_digits_bound in E5; [|lia].
      destruct ((1 <=? m) && (m <=? 12) && (1 <=? d) && (d <=? days_in_month y m))
        eqn:Elegal; [|discriminate].
      inversion H; subst day.
      repeat (apply andb_true_iff in Elegal; destruct Elegal as [Elegal ?]).
      unfold days_from_civil, msPerDay.
      change (10 ^ Z.of_nat 4) with 10000 in E1.
      change (10 ^ Z.of_nat 2) with 100 in E3, E5.
      change (1000 * 60 * 60 * 24) with 86400000.
      apply Z.leb_le in Elegal, H3, H1.
      set (y' := if m <=? 2 then y - 1 else y).
      set (mp := if 2 <? m then m - 3 else m + 9).
      assert (Hy : -1 <= y' <= 9999) by (subst y'; destruct (m <=? 2); lia).
      assert (Hmp : 0 <= mp <= 21).
      { subst mp. destruct (2 <? m) eqn:Em; [apply Z.ltb_lt in Em|]; lia. }
      clearbody y' mp.
      assert (He : -1 <= y' / 400 <= 25).
      { split; [apply Z.div_le_lower_bound | apply Z.div_le_upper_bound]; lia. }
      set (era := y' / 400) in *.
      assert (Hyoe : 0 <= y' - era * 400 < 400).
      { subst era. pose proof (Z.mod_pos_bound y' 400).
        rewrite Z.mod_eq in H4 by lia. lia. }
      set (yoe := y' - era * 400) in *. clearbody yoe.
      assert (H4' : 0 <= yoe / 4 <= 100).
      { split; [apply Z.div_pos | apply Z.div_le_upper_bound]; lia. }
      assert (H100 : 0 <= yoe / 100 <= 4).
      { split; [apply Z.div_pos | apply Z.div_le_upper_bound]; lia. }
      assert (Hdoy : 0 <= (153 * mp + 2) / 5 <= 700).
      { split; [apply Z.div_pos | apply Z.div_le_upper_bound]; lia. }
      clearbody era.
      apply Z.abs_le. lia. }
    apply Z.leb_le in Hbound. now rewrite Hbound.
Qed.

(** The oversized-window check in calendar terms: for two legal dates, the
    span the handler computes is the number of days from the first to the
    last, both included. *)
Lemma oversized_calendar_window_rejected env fuel start end_ first last :
  read_date (to_list start) = Some (first, []) ->
  read_date (to_list end_) = Some (last, []) ->
  MAX_WINDOW_DAYS < last - first + 1 ->
  handle env fuel (Some start) (Some end_)
  = (Returned (buildErrorResponse "Date span cannot exceed 30 days." 413), boot).
Proof.
  intros Hs He Hspan.
  destruct (legal_date_accepted (platform env) _ _ Hs) as [Ms Ds].
  destruct (legal_date_accepted (platform env) _ _ He) as [Me De].
  apply handle_refused.
  eapply preflight_oversized; eauto.
  replace (last * msPerDay - first * msPerDay) with ((last - first) * msPerDay)
    by lia.
  rewrite Z.div_mul; [exact Hspan | unfold msPerDay; lia].
Qed.

(** ** The order of the fallback does not depend on the sorting algorithm *)

Lemma string_lt_trans a : forall b c,
  String.compare a b = Lt -> String.compare b c = Lt -> String.compare a c = Lt.
Proof.
  induction a as [|x a IH]; intros [|y b] [|z c]; simpl; try congruence.
  unfold Ascii.compare.
  destruct (N.compare_spec (N_of_ascii x) (N_of_ascii y)) as [Exy|Lxy|Gxy];
    try discriminate;
    destruct (N.compare_spec (N_of_ascii y) (N_of_ascii z)) as [Eyz|Lyz|Gyz];
    try discriminate; intros Hab Hbc.
  - rewrite Exy, Eyz, N.compare_refl. eauto.
  - rewrite Exy. apply N.compare_lt_iff in Lyz. now rewrite Lyz.
  - rewrite <- Eyz. apply N.compare_lt_iff in Lxy. now rewrite Lxy.
  - assert (H : (N_of_ascii x < N_of_ascii z)%N) by lia.
    apply N.compare_lt_iff in H. now rewrite H.
Qed.

Lemma key_lt_trans a b c : key_lt a b -> key_lt b c -> key_lt a c.
Proof.
  unfold key_lt, String.ltb. intros Hab Hbc.
  destruct (String.compare (fst a) (fst b)) eqn:E1; try discriminate.
  destruct (String.compare (fst b) (fst c)) eqn:E2; try discriminate.
  now rewrite (string_lt_trans _ _ _ E1 E2).
Qed.

Lemma key_lt_asym a b : key_lt a b -> key_lt b a -> False.
Proof.
  unfold key_lt, String.ltb. intros Hab Hba.
  rewrite String.compare_antisym in Hba.
  destruct (String.compare (fst a) (fst b)); discriminate.
Qed.

Lemma sorted_distinct_strict (l : Grouped) :
  Sorted key_le l -> NoDup (map fst l) -> StronglySorted key_lt l.
Proof.
  intros Hs Hnd. apply Sorted_StronglySorted.
  { intros a b c. apply key_lt_trans. }
  induction l as [|a l IH]; [constructor|].
  apply Sorted_inv in Hs. destruct Hs as [Hl Hh].
  inversion Hnd as [|? ? Hnot Hnd']; subst.
  constructor; [auto|].
  destruct l as [|b l']; constructor.
  apply HdRel_inv in Hh. apply leb_distinct_ltb; [exact Hh|].
  intros Heq. apply Hnot. left. now symmetry.
Qed.

Lemma strictly_sorted_unique (l1 : Grouped) : forall l2,
  StronglySorted key_lt l1 ->
  StronglySorted key_lt l2 ->
  Permutation l1 l2 ->
  l1 = l2.
Proof.
  induction l1 as [|a l1 IH]; intros l2 H1 H2 Hp.
  - apply Permutation_nil in Hp. now subst.
  - destruct l2 as [|b l2].
    { apply Permutation_sym, Permutation_nil in Hp. discriminate. }
    apply StronglySorted_inv in H1. destruct H1 as [S1 F1].
    apply StronglySorted_inv in H2. destruct H2 as [S2 F2].
    rewrite Forall_forall in F1, F2.
    assert (Hab : a = b).
    { assert (Ha : In a (b :: l2))
        by (eapply Permutation_in; [exact Hp | left; reflexivity]).
      assert (Hb : In b (a :: l1))
        by (eapply Permutation_in;
            [apply Permutation_sym; exact Hp | left; reflexivity]).
      destruct Ha as [Ha | Ha]; [now symmetry|].
      destruct Hb as [Hb | Hb]; [exact Hb|].
      exfalso. apply (key_lt_asym a b); auto. }
    subst b. f_equal. apply IH; auto.
    eapply Permutation_cons_inv; exact Hp.
Qed.

(** X24.  Any arrangement of the entries of [grouped] that an engine's [sort]
    could return (a permutation in which each key is at most the next) is
    the one the insertion computes: the order of the articles of the fallback
    does not depend on the sorting algorithm. *)
Lemma sort_by_key_unique (G l : Grouped) :
  NoDup (map fst G) ->
  Permutation l G ->
  Sorted key_le l ->
  l = sort_by_key G.
Proof.
  intros Hnd Hp Hs.
  apply strictly_sorted_unique.
  - apply sorted_distinct_strict; [exact Hs|].
    eapply Permutation_NoDup; [|exact Hnd].
    apply Permutation_sym, Permutation_map, Hp.
  - apply sorted_distinct_strict; [apply sort_by_key_sorted|].
    eapply Permutation_NoDup; [|exact Hnd].
    apply Permutation_sym, Permutation_map, sort_by_key_perm.
  - rewrite Hp. apply Permutation_sym, sort_by_key_perm.
Qed.

(** ** Splitting and joining *)

Lemma is_empty_true s : is_empty s = true -> s = EmptyString.
Proof. destruct s; [reflexivity | discriminate]. Qed.

Lemma is_empty_false s : is_empty s = false -> s <> EmptyString.
Proof. destruct s; [discriminate | discriminate]. Qed.

Lemma split_nonempty sep s : split sep s <> [].
Proof.
  destruct s as [|c rest]; simpl; [discriminate|].
  destruct (Ascii.eqb c sep); [discriminate|].
  destruct (split sep rest); discriminate.
Qed.

(** Joining the pieces of a split with the separator gives the string back. *)
Lemma split_join sep s : join (String sep EmptyString) (split sep s) = s.
Proof.
  unfold join. induction s as [|c rest IH]; simpl; [reflexivity|].
  destruct (Ascii.eqb c sep) eqn:Ec.
  - apply Ascii.eqb_eq in Ec; subst c.
    destruct (split sep rest) as [|hd tl] eqn:Es.
    + exfalso. eapply split_nonempty; eauto.
    + simpl in *. now rewrite IH.
  - destruct (split sep rest) as [|hd tl] eqn:Es.
    + exfalso. eapply split_nonempty; eauto.
    + simpl in *. destruct tl; simpl in *; now rewrite <- IH.
Qed.

(** No piece of a split contains the separator. *)
Lemma split_no_sep sep s piece :
  In piece (split sep s) -> ~ In sep (to_list piece).
Proof.
  revert piece; induction s as [|c rest IH]; simpl; intros piece Hin.
  - destruct Hin as [<- | []]. simpl. tauto.
  - destruct (Ascii.eqb c sep) eqn:Ec.
    + destruct Hin as [<- | Hin]; [simpl; tauto | auto].
    + destruct (split sep rest) as [|hd tl] eqn:Es.
      * destruct Hin as [<- | []]. simpl. intros [H | []].
        subst c. now rewrite Ascii.eqb_refl in Ec.
      * destruct Hin as [<- | Hin].
        -- simpl. intros [H | H].
           ++ subst c. now rewrite Ascii.eqb_refl in Ec.
           ++ apply (IH hd); [left; reflexivity | exact H].
        -- apply IH. right. exact Hin.
Qed.

Lemma append_assoc (a b c : string) : (a ++ b) ++ c = a ++ (b ++ c).
Proof. induction a; simpl; congruence. Qed.

Lemma concat_last sep l x :
  String.concat sep (List.app l [x])
  = match l with
    | [] => x
    | _ :: _ => String.concat sep l ++ sep ++ x
    end.
Proof.
  induction l as [|a l IH]; simpl; [reflexivity|].
  destruct l as [|b l]; simpl in *; [reflexivity|].
  rewrite IH. now rewrite !append_assoc.
Qed.

(** A string ends with the last piece of its split, which is preceded by
    nothing or by the separator. *)
Lemma split_last sep s :
  let piece := last (split sep s) EmptyString in
  In piece (split sep s) /\
  (s = piece \/ exists p, s = p ++ String sep EmptyString ++ piece).
Proof.
  intros piece. subst piece.
  pose proof (split_nonempty sep s) as Hne.
  pose proof (split_join sep s) as Hj.
  destruct (exists_last Hne) as (init & x & Hs).
  rewrite Hs in *. rewrite last_last. split.
  - apply in_or_app. right. left. reflexivity.
  - unfold join in Hj. rewrite concat_last in Hj.
    destruct init; [left; congruence|].
    right. eexists. symmetry. exact Hj.
Qed.

(** ** Trimming *)

Lemma strip_prefix_spec p : forall l r,
  strip_prefix p l = Some r -> l = List.app p r.
Proof.
  induction p as [|a p IH]; intros l r H; simpl in *.
  - inversion H; reflexivity.
  - destruct l as [|b l]; [discriminate|].
    destruct (Ascii.eqb a b) eqn:E; [|discriminate].
    apply Ascii.eqb_eq in E; subst b. f_equal. auto.
Qed.

Lemma strip_first_spec ps : forall l r,
  strip_first ps l = Some r -> exists p, In p ps /\ l = List.app p r.
Proof.
  induction ps as [|p ps IH]; intros l r H; simpl in *; [discriminate|].
  destruct (strip_prefix p l) as [r'|] eqn:E.
  - inversion H; subst. exists p. split; [left; reflexivity|].
    now apply strip_prefix_spec.
  - destruct (IH _ _ H) as (p' & Hin & Hl). exists p'. split; [right|]; auto.
Qed.

Lemma strip_first_app ps l r rest :
  strip_first ps l = Some r -> strip_first ps (List.app l rest) <> None.
Proof.
  induction ps as [|p ps IH]; simpl; [discriminate|].
  destruct (strip_prefix p l) as [r'|] eqn:E.
  - intros _. rewrite (strip_prefix_app _ _ _ rest E). discriminate.
  - intros H. destruct (strip_prefix p (List.app l rest)); [discriminate|auto].
Qed.

(** What is dropped in front is a prefix. *)
Lemma drop_leading_suffix ps fuel : forall l,
  exists p, l = List.app p (drop_leading ps fuel l).
Proof.
  induction fuel as [|fuel IH]; intros l; simpl.
  - exists []. reflexivity.
  - destruct (strip_first ps l) as [r|] eqn:E.
    + destruct (strip_first_spec _ _ _ E) as (p & _ & Hl).
      destruct (IH r) as (p' & Hr).
      exists (List.app p p'). rewrite <- app_assoc, <- Hr. exact Hl.
    + exists []. reflexivity.
Qed.

(** With enough fuel nothing to drop is left. *)
Lemma drop_leading_done ps :
  (forall p, In p ps -> p <> []) ->
  forall fuel l,
    (length l <= fuel)%nat ->
    strip_first ps (drop_leading ps fuel l) = None.
Proof.
  intros Hps fuel. induction fuel as [|fuel IH]; intros l Hlen; simpl.
  - destruct l; [|simpl in Hlen; lia].
    destruct (strip_first ps []) as [r|] eqn:E; [|reflexivity].
    destruct (strip_first_spec _ _ _ E) as (p & Hin & Hl).
    destruct p; [exfalso; eapply Hps; eauto | discriminate].
  - destruct (strip_first ps l) as [r|] eqn:E; [|exact E].
    apply IH.
    destruct (strip_first_spec _ _ _ E) as (p & Hin & Hl).
    subst l. rewrite length_app in Hlen.
    destruct p; [exfalso; eapply Hps; eauto|]. simpl in Hlen. lia.
Qed.

Lemma drop_leading_fixed ps fuel l :
  strip_first ps l = None -> drop_leading ps fuel l = l.
Proof. intros H. destruct fuel; simpl; [reflexivity|]. now rewrite H. Qed.

Lemma white_space_nonempty p : In p white_space -> p <> [].
Proof.
  unfold white_space. simpl.
  intros H; repeat (destruct H as [<- | H]; [discriminate|]); contradiction.
Qed.

Lemma rev_white_space_nonempty p :
  In p (map (@rev ascii) white_space) -> p <> [].
Proof.
  unfold white_space. simpl.
  intros H; repeat (destruct H as [<- | H]; [discriminate|]); contradiction.
Qed.

Lemma trimStart_done l : strip_first white_space (trimStart_list l) = None.
Proof.
  unfold trimStart_list. apply drop_leading_done; [|lia].
  apply white_space_nonempty.
Qed.

Lemma trimStart_suffix l : exists p, l = List.app p (trimStart_list l).
Proof. apply drop_leading_suffix. Qed.

Lemma trimEnd_done l :
  strip_first (map (@rev ascii) white_space) (rev (trimEnd_list l)) = None.
Proof.
  unfold trimEnd_list. rewrite rev_involutive.
  apply drop_leading_done; [|rewrite length_rev; lia].
  apply rev_white_space_nonempty.
Qed.

Lemma trimEnd_prefix l : exists s, l = List.app (trimEnd_list l) s.
Proof.
  unfold trimEnd_list.
  destruct (drop_leading_suffix (map (@rev ascii) white_space)
              (length l) (rev l)) as (p & Hp).
  exists (rev p). rewrite <- rev_app_distr, <- Hp. now rewrite rev_involutive.
Qed.

Lemma to_of_list l : to_list (of_list l) = l.
Proof. unfold to_list, of_list. apply list_ascii_of_string_of_list_ascii. Qed.

Lemma of_to_list s : of_list (to_list s) = s.
Proof. unfold to_list, of_list. apply string_of_list_ascii_of_string. Qed.

(** A trimmed string neither starts nor ends with white space. *)
Lemma trim_done s :
  strip_first white_space (to_list (trim s)) = None /\
  strip_first (map (@rev ascii) white_space) (rev (to_list (trim s))) = None.
Proof.
  unfold trim. rewrite to_of_list. split; [|apply trimEnd_done].
  destruct (trimEnd_prefix (trimStart_list (to_list s))) as (sfx & Hs).
  destruct (strip_first white_space (trimEnd_list (trimStart_list (to_list s))))
    as [r|] eqn:E; [|reflexivity].
  exfalso. apply (strip_first_app _ _ _ sfx) in E. apply E.
  rewrite <- Hs. apply trimStart_done.
Qed.

(** Trimming removes a prefix and a suffix. *)
Lemma trim_middle s :
  exists p q, to_list s = List.app p (List.app (to_list (trim s)) q).
Proof.
  unfold trim. rewrite to_of_list.
  destruct (trimStart_suffix (to_list s)) as (p & Hp).
  destruct (trimEnd_prefix (trimStart_list (to_list s))) as (q & Hq).
  exists p, q. rewrite <- Hq. exact Hp.
Qed.

Lemma trim_chars s c : In c (to_list (trim s)) -> In c (to_list s).
Proof.
  intros Hin. destruct (trim_middle s) as (p & q & Hs). rewrite Hs.
  apply in_or_app. right. apply in_or_app. left. exact Hin.
Qed.

(** Trimming twice is trimming once. *)
Lemma trim_idempotent s : trim (trim s) = trim s.
Proof.
  destruct (trim_done s) as [Hstart Hend].
  unfold trim at 1. unfold trimStart_list.
  rewrite (drop_leading_fixed _ _ _ Hstart).
  unfold trimEnd_list. rewrite (drop_leading_fixed _ _ _ Hend).
  rewrite rev_involutive. apply of_to_list.
Qed.

(** ** The model identifier *)

Lemma normalizeModelName_nonempty input m :
  normalizeModelName input = Some m -> is_empty m = false.
Proof.
  unfold normalizeModelName. destruct (falsy input); [discriminate|].
  destruct (is_empty (trim (nullish input EmptyString))) eqn:Et; [discriminate|].
  intros H; inversion H; subst m. unfold or_else.
  destruct (is_empty (last _ _)) eqn:El; [exact Et | exact El].
Qed.

(** X1.  [normalizeModelName] gives no name exactly when the input, trimmed,
    is empty (or absent).  Otherwise the name is not empty and is the end of
    the trimmed input: either what follows its last "/" (or all of it when it
    has none), which contains no "/"; or, when the trimmed input ends with
    "/", the trimmed input itself. *)
Theorem normalizeModelName_keeps_last_segment (input : option string) :
  let t := trim (nullish input EmptyString) in
  match normalizeModelName input with
  | None => t = EmptyString
  | Some m =>
      m <> EmptyString /\
      ((~ In "/"%char (to_list m) /\ (t = m \/ exists p, t = p ++ "/" ++ m))
       \/ (m = t /\ exists p, t = p ++ "/"))
  end.
Proof.
  intros t. destruct (normalizeModelName input) as [m|] eqn:Hn.
  - split; [apply is_empty_false; eapply normalizeModelName_nonempty; eauto|].
    unfold normalizeModelName in Hn. destruct (falsy input); [discriminate|].
    fold t in Hn. destruct (is_empty t) eqn:Et; [discriminate|].
    inversion Hn; subst m; clear Hn.
    destruct (split_last "/" t) as [Hin Hend].
    unfold or_else.
    destruct (is_empty (last (split "/" t) EmptyString)) eqn:El.
    + right. split; [reflexivity|].
      apply is_empty_true in El. rewrite El in Hend.
      destruct Hend as [H | (p & H)].
      * rewrite H in Et. discriminate.
      * exists p. exact H.
    + left. split; [now apply split_no_sep in Hin | exact Hend].
  - unfold normalizeModelName in Hn. subst t.
    destruct input as [s|]; [|reflexivity].
    simpl in *. destruct (is_empty s) eqn:Es.
    + apply is_empty_true in Es. subst s. reflexivity.
    + destruct (is_empty (trim s)) eqn:Et; [|discriminate].
      now apply is_empty_true.
Qed.

(** ** The checks before any call, for legal dates *)

Lemma preflight_legal env start end_ first last :
  read_date (to_list start) = Some (first, []) ->
  read_date (to_list end_) = Some (last, []) ->
  preflight env (Some start) (Some end_)
  = if last <? first then
      inl (buildErrorResponse "Start date cannot be after end date." 400)
    else if MAX_WINDOW_DAYS <? last - first + 1 then
      inl (buildErrorResponse "Date span cannot exceed 30 days." 413)
    else if falsy (GITHUB_REPO env) then
      inl (buildErrorResponse "GITHUB_REPO is not configured." 500)
    else if falsy (GITHUB_TOKEN env) then
      inl (buildErrorResponse "GITHUB_TOKEN is not configured." 500)
    else
      inr {| ok_start := start; ok_end := end_;
             ok_repo := nullish (GITHUB_REPO env) EmptyString;
             ok_token := nullish (GITHUB_TOKEN env) EmptyString;
             ok_model :=
               normalizeModelName
                 (nullish_opt (OPENAI_MODEL env) (OPENAI_REALTIME_MODEL env));
             ok_apiKey := OPENAI_API_KEY env |}.
Proof.
  intros Hs He.
  destruct (legal_date_accepted (platform env) _ _ Hs) as [Ms Ds].
  destruct (legal_date_accepted (platform env) _ _ He) as [Me De].
  unfold preflight. simpl.
  rewrite (matches_date_only_nonempty _ Ms), (matches_date_only_nonempty _ Me).
  rewrite Ms, Me. simpl. rewrite Ds, De.
  assert (Hm : 0 < msPerDay) by (unfold msPerDay; lia).
  assert (Hord : (last * msPerDay <? first * msPerDay) = (last <? first)).
  { destruct (last <? first) eqn:E.
    - apply Z.ltb_lt. apply Z.ltb_lt in E. nia.
    - apply Z.ltb_ge. apply Z.ltb_ge in E. nia. }
  rewrite Hord. destruct (last <? first); [reflexivity|].
  replace (last * msPerDay - first * msPerDay) with ((last - first) * msPerDay)
    by lia.
  rewrite Z.div_mul by lia.
  destruct (MAX_WINDOW_DAYS <? last - first + 1); reflexivity.
Qed.

(** X2.  For two well-formed legal dates, the first being day number [first]
    and the second day number [last], the handler decides in this order:
    the second before the first: 400; more than 30 days from the first to the
    second, both included: 413; no repository configured: 500; no token
    configured: 500; in each case at once and without any call.  Otherwise
    the checks pass with the two dates and the configuration as read. *)
Theorem window_checks_in_order env fuel start end_ first last :
  read_date (to_list start) = Some (first, []) ->
  read_date (to_list end_) = Some (last, []) ->
  if last <? first then
    handle env fuel (Some start) (Some end_)
    = (Returned (buildErrorResponse "Start date cannot be after end date." 400),
       boot)
  else if MAX_WINDOW_DAYS <? last - first + 1 then
    handle env fuel (Some start) (Some end_)
    = (Returned (buildErrorResponse "Date span cannot exceed 30 days." 413),
       boot)
  else if falsy (GITHUB_REPO env) then
    handle env fuel (Some start) (Some end_)
    = (Returned (buildErrorResponse "GITHUB_REPO is not configured." 500), boot)
  else if falsy (GITHUB_TOKEN env) then
    handle env fuel (Some start) (Some end_)
    = (Returned (buildErrorResponse "GITHUB_TOKEN is not configured." 500), boot)
  else
    exists a,
      preflight env (Some start) (Some end_) = inr a /\
      ok_start a = start /\ ok_end a = end_ /\
      GITHUB_REPO env = Some (ok_repo a) /\
      GITHUB_TOKEN env = Some (ok_token a).
Proof.
  intros Hs He. pose proof (preflight_legal env _ _ _ _ Hs He) as Hpre.
  destruct (last <? first); [now apply handle_refused|].
  destruct (MAX_WINDOW_DAYS <? last - first + 1); [now apply handle_refused|].
  destruct (falsy (GITHUB_REPO env)) eqn:Er; [now apply handle_refused|].
  destruct (falsy (GITHUB_TOKEN env)) eqn:Et; [now apply handle_refused|].
  eexists. split; [exact Hpre|]. simpl.
  destruct (GITHUB_REPO env); [|discriminate].
  destruct (GITHUB_TOKEN env); [|discriminate].
  repeat split.
Qed.

Lemma window_checks_witness :
  handle (Scenario.quiet_env None None) 3 (Some "2025-03-02") (Some "2025-02-28")
  = (Returned (buildErrorResponse "Start date cannot be after end date." 400),
     boot).
Proof.
  exact (window_checks_in_order (Scenario.quiet_env None None) 3
           "2025-03-02" "2025-02-28" 20149 20147 eq_refl eq_refl).
Defined.

(** What the checks have established when they pass. *)
Lemma preflight_accepted_valid env sp ep a :
  preflight env sp ep = inr a ->
  exists s e,
    matches_date_only (ok_start a) = true /\
    matches_date_only (ok_end a) = true /\
    Date_of_string (platform env) (ok_start a ++ "T00:00:00Z") = Some s /\
    Date_of_string (platform env) (ok_end a ++ "T00:00:00Z") = Some e /\
    s <= e /\ (e - s) / msPerDay + 1 <= MAX_WINDOW_DAYS /\
    GITHUB_REPO env = Some (ok_repo a) /\ is_empty (ok_repo a) = false /\
    GITHUB_TOKEN env = Some (ok_token a) /\ is_empty (ok_token a) = false.
Proof.
  unfold preflight.
  destruct sp as [start|], ep as [end_|]; simpl; try discriminate.
  2:{ destruct (is_empty start); discriminate. }
  destruct (is_empty start || is_empty end_); [discriminate|].
  destruct (matches_date_only start) eqn:Ms; [|discriminate].
  destruct (matches_date_only end_) eqn:Me; [|discriminate].
  simpl.
  destruct (Date_of_string _ _) as [s|] eqn:Ds; [|discriminate].
  destruct (Date_of_string _ (end_ ++ _)) as [e|] eqn:De; [|discriminate].
  destruct (e <? s) eqn:Eo; [discriminate|].
  destruct (MAX_WINDOW_DAYS <? _) eqn:Esp; [discriminate|].
  destruct (GITHUB_REPO env) as [r|] eqn:Er; simpl; [|discriminate].
  destruct (is_empty r) eqn:Ere; [discriminate|].
  destruct (GITHUB_TOKEN env) as [t|] eqn:Et; simpl; [|discriminate].
  destruct (is_empty t) eqn:Ete; [discriminate|].
  intros H; inversion H; subst; simpl.
  exists s, e. apply Z.ltb_ge in Eo, Esp. repeat split; auto.
Qed.

(** X3.  Whatever the request, if its handling issued any call to the host or
    to the model, then both dates were given, well formed and valid, the
    first not after the second, their inclusive span at most 30 days, and the
    repository and the token are configured. *)
Theorem calls_only_for_valid_window env fuel sp ep out w :
  handle env fuel sp ep = (out, w) ->
  calls w <> [] ->
  exists start end_ s e,
    sp = Some start /\ ep = Some end_ /\
    matches_date_only start = true /\ matches_date_only end_ = true /\
    Date_of_string (platform env) (start ++ "T00:00:00Z") = Some s /\
    Date_of_string (platform env) (end_ ++ "T00:00:00Z") = Some e /\
    s <= e /\ (e - s) / msPerDay + 1 <= MAX_WINDOW_DAYS /\
    falsy (GITHUB_REPO env) = false /\ falsy (GITHUB_TOKEN env) = false.
Proof.
  intros Hrun Hcalls.
  destruct (preflight env sp ep) as [resp|a] eqn:Hpre.
  { rewrite (handle_refused _ _ _ _ _ Hpre) in Hrun.
    inversion Hrun; subst. contradiction Hcalls. reflexivity. }
  destruct (preflight_accepted _ _ _ _ Hpre) as (Hs & He & _).
  destruct (preflight_accepted_valid _ _ _ _ Hpre)
    as (s & e & Ms & Me & Ds & De & Hord & Hspan & Hr & Hre & Ht & Hte).
  exists (ok_start a), (ok_end a), s, e.
  rewrite Hr, Ht. simpl. repeat split; auto.
Qed.

Lemma calls_only_for_valid_window_witness :
  exists start end_ s e,
    Some "2025-01-01" = Some start /\ Some "2025-01-07" = Some end_ /\
    matches_date_only start = true /\ matches_date_only end_ = true /\
    Date_of_string Scenario.utc_platform (start ++ "T00:00:00Z") = Some s /\
    Date_of_string Scenario.utc_platform (end_ ++ "T00:00:00Z") = Some e /\
    s <= e /\ (e - s) / msPerDay + 1 <= MAX_WINDOW_DAYS /\
    falsy (Some "acme/widgets") = false /\ falsy (Some "ghp_token") = false.
Proof.
  exact (calls_only_for_valid_window
           (Scenario.week_env (Scenario.model_says "<section><h2>Week</h2></section>"))
           3 (Some "2025-01-01") (Some "2025-01-07")
           (fst Scenario.week_run) (snd Scenario.week_run) eq_refl
           ltac:(vm_compute; discriminate)).
Defined.

(** ** What the two stages preserve *)

Section Preserves.
Variable Inv : World -> Prop.

Lemma preserves_ret {A} (a : A) : preserves Inv (ret a).
Proof. intros w o w' Hi H. inversion H; subst; auto. Qed.

Lemma preserves_throw {A} e : preserves Inv (@throw A e).
Proof. intros w o w' Hi H. inversion H; subst; auto. Qed.

Lemma preserves_bind {A B} (m : M A) (k : A -> M B) :
  preserves Inv m -> (forall a, preserves Inv (k a)) -> preserves Inv (bind m k).
Proof.
  intros Hm Hk w o w' Hi H. unfold bind in H.
  destruct (m w) as [[a|e|] w1] eqn:Em.
  - eapply Hk; [eapply Hm; eauto | exact H].
  - inversion H; subst. eapply Hm; eauto.
  - inversion H; subst. eapply Hm; eauto.
Qed.

Lemma preserves_try_catch {A} (m : M A) (h : Thrown -> M A) :
  preserves Inv m -> (forall e, preserves Inv (h e)) -> preserves Inv (try_catch m h).
Proof.
  intros Hm Hh w o w' Hi H. unfold try_catch in H.
  destruct (m w) as [[a|e|] w1] eqn:Em.
  - inversion H; subst. eapply Hm; eauto.
  - eapply Hh; [eapply Hm; eauto | exact H].
  - inversion H; subst. eapply Hm; eauto.
Qed.

Lemma preserves_while {S R} (body : S -> M (Step S R)) :
  (forall s, preserves Inv (body s)) ->
  forall fuel s, preserves Inv (while_true fuel body s).
Proof.
  intros Hbody fuel. induction fuel as [|fuel IH]; intros s; simpl.
  - intros w o w' Hi H. inversion H; subst; auto.
  - apply preserves_bind; [apply Hbody|].
    intros [s'|r]; [apply IH | apply preserves_ret].
Qed.

End Preserves.

Lemma within_record_call c : preserves within_deadline (record_call c).
Proof. intros w o w' Hi H. inversion H; subst. exact Hi. Qed.

Lemma within_Date_now env : preserves within_deadline (Date_now env).
Proof. intros w o w' Hi H. inversion H; subst. exact Hi. Qed.

Lemma within_await d : preserves within_deadline (await_abortable d).
Proof.
  intros w o w' (Hle & Htimer & Hfired) H. unfold await_abortable in H.
  destruct (aborted w) eqn:Ea.
  - inversion H; subst. split; [exact Hle|]. split; [congruence | auto].
  - rewrite (Htimer eq_refl) in H.
    destruct (TOTAL_TIMEOUT_MS <=? elapsed w + Z.of_N d) eqn:El;
      inversion H; subst; unfold within_deadline; simpl.
    + split; [unfold TOTAL_TIMEOUT_MS; lia|]. split; [discriminate | auto].
    + apply Z.leb_gt in El. split; [lia|]. split; [auto | congruence].
Qed.

Ltac keep_within :=
  repeat first
    [ apply preserves_ret
    | apply preserves_throw
    | apply within_await
    | apply within_record_call
    | apply within_Date_now
    | apply preserves_bind; [|intros ?]
    | apply preserves_try_catch; [|intros ?]
    | match goal with
      | |- preserves _ (if ?b then _ else _) => destruct b
      | |- preserves _ (match ?x with _ => _ end) => destruct x
      end ].

Lemma within_stages env fuel repo token model apiKey start end_ :
  preserves within_deadline
    (stages env fuel repo token model apiKey start end_).
Proof.
  unfold stages, toIsoRange. apply preserves_bind.
  - unfold fetchCommitsFromGitHub. apply preserves_while.
    intros [page acc]. unfold fetch_page, fetch, json. keep_within.
  - intros commits. apply preserves_bind.
    + destruct (0 <? Z.of_nat (length commits)); [|apply preserves_ret].
      unfold generateSummaryHtml, call_model, or_RangeError,
        rethrow_model_error.
      keep_within.
    + intros html. keep_within.
Qed.

Lemma handle_as_stages env fuel sp ep a :
  preflight env sp ep = inr a ->
  handle env fuel sp ep
  = match stages env fuel (ok_repo a) (ok_token a) (ok_model a) (ok_apiKey a)
            (ok_start a) (ok_end a) armed with
    | (Threw e, w) =>
        (delivered (error_response (aborted w) e), clearTimeout w)
    | (o, w) => (o, clearTimeout w)
    end.
Proof.
  intros Hpre. unfold handle, GET. rewrite Hpre.
  unfold bind at 1. unfold setTimeout_abort. simpl.
  change {| elapsed := 0; timer := Some TOTAL_TIMEOUT_MS; aborted := false;
            calls := [] |} with armed.
  unfold finally, try_catch.
  destruct (stages _ _ _ _ _ _ _ _ armed) as [[r|e|] w];
    rewrite ?on_error_delivered; reflexivity.
Qed.

Lemma armed_within : within_deadline armed.
Proof.
  unfold within_deadline, armed, TOTAL_TIMEOUT_MS; simpl.
  split; [lia|]. split; [reflexivity | discriminate].
Qed.

(** X4.  However a request is handled, when the handler is done its timer is
    cleared and it has spent at most the 120 seconds of the deadline
    waiting. *)
Theorem handler_waits_at_most_deadline env fuel sp ep out w :
  handle env fuel sp ep = (out, w) ->
  timer w = None /\ 0 <= elapsed w <= TOTAL_TIMEOUT_MS.
Proof.
  intros Hrun.
  destruct (preflight env sp ep) as [resp|a] eqn:Hpre.
  { rewrite (handle_refused _ _ _ _ _ Hpre) in Hrun. inversion Hrun; subst.
    unfold TOTAL_TIMEOUT_MS; simpl. split; [reflexivity | lia]. }
  rewrite (handle_as_stages _ _ _ _ _ Hpre) in Hrun.
  destruct (stages _ _ _ _ _ _ _ _ armed) as [o1 w1] eqn:Hst.
  destruct (within_stages _ _ _ _ _ _ _ _ _ _ _ armed_within Hst) as [Hle _].
  destruct o1; inversion Hrun; subst; simpl; auto.
Qed.

Lemma handler_waits_witness :
  timer (snd (Scenario.week_run_at Scenario.t_morning 130000)) = None /\
  0 <= elapsed (snd (Scenario.week_run_at Scenario.t_morning 130000))
    <= TOTAL_TIMEOUT_MS.
Proof.
  exact (handler_waits_at_most_deadline
           (Scenario.week_env_at Scenario.t_morning 130000) 3
           (Some "2025-01-01") (Some "2025-01-07")
           (fst (Scenario.week_run_at Scenario.t_morning 130000))
           (snd (Scenario.week_run_at Scenario.t_morning 130000)) eq_refl).
Defined.

(** ** What the two stages throw *)

Lemma throws_ret P {A} (a : A) : throws_only P (ret a).
Proof. intros w e w' H. discriminate. Qed.

Lemma throws_throw (P : Thrown -> Prop) {A} e : P e -> throws_only P (@throw A e).
Proof. intros Hp w e' w' H. inversion H; subst; auto. Qed.

Lemma throws_bind P {A B} (m : M A) (k : A -> M B) :
  throws_only P m -> (forall a, throws_only P (k a)) ->
  throws_only P (bind m k).
Proof.
  intros Hm Hk w e w' H. unfold bind in H.
  destruct (m w) as [[a|e1|] w1] eqn:Em.
  - eapply Hk; eauto.
  - inversion H; subst. eapply Hm; eauto.
  - discriminate.
Qed.

Lemma throws_try_catch Q P {A} (m : M A) (h : Thrown -> M A) :
  throws_only Q m -> (forall e, Q e -> throws_only P (h e)) ->
  throws_only P (try_catch m h).
Proof.
  intros Hm Hh w e w' H. unfold try_catch in H.
  destruct (m w) as [[a|e1|] w1] eqn:Em.
  - discriminate.
  - eapply Hh; [eapply Hm; eauto | exact H].
  - discriminate.
Qed.

Lemma throws_while P {S R} (body : S -> M (Step S R)) :
  (forall s, throws_only P (body s)) ->
  forall fuel s, throws_only P (while_true fuel body s).
Proof.
  intros Hbody fuel. induction fuel as [|fuel IH]; intros s; simpl.
  - intros w e w' H. discriminate.
  - apply throws_bind; [apply Hbody|].
    intros [s'|r]; [apply IH | apply throws_ret].
Qed.

Lemma throws_record_call P c : throws_only P (record_call c).
Proof. intros w e w' H. discriminate. Qed.

Lemma throws_Date_now P env : throws_only P (Date_now env).
Proof. intros w e w' H. discriminate. Qed.

Lemma throws_await (P : Thrown -> Prop) d :
  P AbortError -> throws_only P (await_abortable d).
Proof.
  intros Hp w e w' H. apply await_threw in H. destruct H as [-> _]. exact Hp.
Qed.

Ltac only_throws :=
  repeat first
    [ apply throws_ret
    | apply throws_throw; simpl; auto
    | apply throws_await; simpl; auto
    | apply throws_record_call
    | apply throws_Date_now
    | apply throws_bind; [|intros ?]
    | match goal with
      | |- throws_only _ (if ?b then _ else _) => destruct b
      | |- throws_only _ (match ?x with _ => _ end) => destruct x
      end ].

Lemma fetch_page_throws env repo token since until vars :
  throws_only stage_error (fetch_page env repo token since until vars).
Proof.
  destruct vars as [page acc]. unfold fetch_page, fetch, json.
  only_throws.
  all: try (apply (throws_try_catch (fun _ => True)); [|intros ? _]; only_throws).
  all: intros ? ? ? ?; exact I.
Qed.

Lemma generateSummaryHtml_throws env model apiKey repo start end_ commits :
  throws_only stage_error
    (generateSummaryHtml env model apiKey repo start end_ commits).
Proof.
  unfold generateSummaryHtml, call_model, or_RangeError.
  only_throws.
  all: apply (throws_try_catch foreign_error).
  all: try (only_throws; fail).
  all: intros e He; destruct e; try contradiction.
  all: unfold rethrow_model_error; only_throws.
Qed.

Lemma stages_throws env fuel repo token model apiKey start end_ :
  throws_only stage_error
    (stages env fuel repo token model apiKey start end_).
Proof.
  unfold stages, toIsoRange. apply throws_bind.
  - unfold fetchCommitsFromGitHub. apply throws_while.
    intros vars. apply fetch_page_throws.
  - intros commits. apply throws_bind.
    + destruct (0 <? Z.of_nat (length commits)); [|apply throws_ret].
      apply generateSummaryHtml_throws.
    + intros html. only_throws.
Qed.

Lemma stages_returns_report env fuel repo token model apiKey start end_ w r w' :
  stages env fuel repo token model apiKey start end_ w = (Returned r, w') ->
  exists report, r = NextResponse_json report.
Proof.
  unfold stages, toIsoRange, bind, Date_now, ret. intros H.
  destruct (fetchCommitsFromGitHub _ _ _ _ _ _ w) as [[commits|e|] w1];
    try discriminate.
  match type of H with
  | context [(if ?b then ?x else ?y) w1] =>
      destruct ((if b then x else y) w1) as [[html|e|] w2]
  end; try discriminate.
  inversion H; subst. eauto.
Qed.

(** What the [catch] clause asks for on an error of the two stages: a
    status from 400 to 599, unless the error is an upstream error with a
    status above 599 and the signal has not fired. *)
Lemma stage_error_asked fired e :
  stage_error e ->
  400 <= http_status (error_response fired e) <= 599
  \/ (fired = false /\
      exists u s m,
        e = UpstreamError u s m /\ 599 < s /\
        error_response fired e = buildErrorResponse m s).
Proof.
  intros Hs. destruct fired; [left; simpl; lia|].
  destruct e as [s m|u s m|f].
  - left. destruct Hs as [-> | ->]; simpl; lia.
  - unfold error_response. destruct (400 <=? s) eqn:Elo.
    + apply Z.leb_le in Elo. destruct (Z_le_gt_dec s 599) as [Hhi|Hhi].
      * left. simpl. lia.
      * right. split; [reflexivity|]. exists u, s, m.
        repeat split; [lia].
    + left. simpl. lia.
  - left. unfold error_response.
    destruct (instanceof_DOMException (Native f)
              && String.eqb (f_name f) "AbortError"); simpl; lia.
Qed.

Section UpstreamStatus.
Variable env : Env.

Ltac open_turn H :=
  cbv beta iota zeta delta
    [fetch_page bind record_call fetch json try_catch ret throw Date_now] in H.

Ltac step_turn H :=
  match type of H with
  | context [match github_api ?e ?q with _ => _ end] =>
      let Eh := fresh "Ehost" in
      destruct (github_api e q) eqn:Eh
  | context [await_abortable ?d ?w0] => wait_cases d w0
  | context [match body ?r with _ => _ end] =>
      let Eb := fresh "Ebody" in destruct (body r) eqn:Eb
  | context [if ?b then _ else _] =>
      let Eb := fresh "Eif" in destruct b eqn:Eb
  | context [match ?j with JsonCommits _ => _ | JsonOther _ => _ end] =>
      destruct j
  end; cbv beta iota zeta in H.

(** An upstream error thrown by a turn of the retrieval carries the status
    of the response to the query of that turn. *)
Lemma fetch_page_upstream repo token since until page acc w u s m w' :
  fetch_page env repo token since until (page, acc) w
  = (Threw (UpstreamError u s m), w') ->
  exists d r,
    github_api env (page_request repo token since until page) = Responds d r /\
    status r = s.
Proof.
  intros H. open_turn H. repeat (step_turn H; try discriminate).
  all: subst; unfold AbortError, TypeError_not_iterable in H.
  all: inversion H; subst; eauto.
Qed.

Ltac open_stage H :=
  cbv beta iota zeta delta
    [generateSummaryHtml bind try_catch call_model record_call or_RangeError
     rethrow_model_error ret throw] in H.

Ltac step_stage H :=
  match type of H with
  | context [match buildBulletList ?p ?c with _ => _ end] =>
      let E := fresh "Ebullets" in destruct (buildBulletList p c) eqn:E
  | context [match generateText ?e ?q with _ => _ end] =>
      let E := fresh "Eanswer" in destruct (generateText e q) eqn:E
  | context [await_abortable ?d ?w0] => wait_cases d w0
  | context [match buildFallbackSummary ?p ?a ?b ?c ?d with _ => _ end] =>
      let E := fresh "Efallback" in
      destruct (buildFallbackSummary p a b c d) eqn:E
  | context [if ?b then _ else _] =>
      let E := fresh "Eif" in destruct b eqn:E
  end; cbv beta iota zeta in H.

(** An upstream error thrown by the summary stage carries 502, or the status
    of the error the model call failed with. *)
Lemma summary_upstream model apiKey repo start end_ commits w u s m w' :
  generateSummaryHtml env model apiKey repo start end_ commits w
  = (Threw (UpstreamError u s m), w') ->
  s = 502 \/
  exists q d f,
    calls w' = List.app (calls w) [ModelCall q] /\
    generateText env q = Fails d f /\ f_status f = Some s.
Proof.
  intros H. open_stage H. repeat (step_stage H; try discriminate).
  all: subst; unfold AbortError, RangeError_invalid_time in H.
  all: cbn [instanceof_HttpError instanceof_Error error_name error_message
            error_status f_kind f_name f_status f_message nullish orb andb
            calls] in H.
  all: repeat match type of H with
              | context [if ?b then _ else _] => destruct b
              end.
  all: inversion H; subst; cbn [calls]; auto.
  all: match goal with
       | Ea : generateText _ ?q = Fails ?d ?f |- _ =>
           destruct (f_status f) eqn:Es; cbn [nullish];
           [ right; exists q, d, f;
             split; [reflexivity|]; split; [exact Ea | exact Es]
           | left; reflexivity ]
       end.
Qed.

(** An upstream error with a status above 599 that ends the two stages is
    that of a response of the host, or of a failed call to the model. *)
Lemma stages_upstream_traced fuel repo token model apiKey start end_ w u s m w' :
  stages env fuel repo token model apiKey start end_ w
  = (Threw (UpstreamError u s m), w') ->
  599 < s ->
  upstream_status env w' s.
Proof.
  unfold stages, toIsoRange, bind, upstream_status. intros H Hs.
  destruct (fetchCommitsFromGitHub _ _ _ _ _ _ w) as [[commits|e|] w1] eqn:Hf;
    [| |discriminate].
  - destruct (0 <? Z.of_nat (length commits)).
    + destruct (generateSummaryHtml _ _ _ _ _ _ _ w1) as [[html|e|] w2] eqn:Hsum;
        [discriminate| |discriminate].
      inversion H; subst.
      destruct (summary_upstream _ _ _ _ _ _ _ _ _ _ _ Hsum)
        as [-> | (q & d & f & Hc & Hfail & Hst)]; [lia|].
      right. exists q, d, f. split; [|auto].
      rewrite Hc. apply in_or_app. right. left. reflexivity.
    + discriminate.
  - inversion H; subst. left.
    unfold fetchCommitsFromGitHub in Hf.
    destruct (while_true_last _ (fun _ _ => True) (fun _ _ _ _ _ _ => I)
                fuel (1, []) w _ _ I Hf)
      as [[Hno _] | ([page acc] & w0 & _ & Hlast)]; [discriminate|].
    destruct Hlast as [(r & _ & Hno) | [(e & Hturn & He) | (_ & Hno)]];
      try discriminate.
    inversion He; subst e.
    destruct (fetch_page_upstream _ _ _ _ _ _ _ _ _ _ _ Hturn)
      as (d & r & Hhost & Hst).
    exists (page_request repo token (start ++ "T00:00:00Z")
              (end_ ++ "T23:59:59Z") page), d, r.
    split; [|auto].
    rewrite (fetch_page_calls _ _ _ _ _ _ _ _ _ _ Hturn).
    apply in_or_app. right. left. reflexivity.
Qed.

End UpstreamStatus.

(** X5.  A handling that ends, ends with a response, or with an error its
    own [catch] clause throws.  The response carries a report with status
    200, or a message with a status from 400 to 599 (or, when an upstream
    gave a status of 65536 or more, which a response takes modulo 65536, a
    message with the status so obtained, from 200 to 599).  An error
    escapes only when the deadline has not fired and an upstream gave a
    status above 599: a query of the request was answered with such a
    status, or its call to the model failed with an error that carries
    one.  The error is the RangeError of a response that cannot carry the
    status (or, for a status of 65536 or more only, the TypeError of a
    response that can have no body). *)
Theorem every_outcome_is_a_response env fuel sp ep out w :
  handle env fuel sp ep = (out, w) ->
  match out with
  | Returned response =>
      (exists report,
          payload response = ReportBody report /\ http_status response = 200)
      \/ (exists m,
             payload response = ErrorBody m /\
             400 <= http_status response <= 599)
      \/ (exists m s,
             payload response = ErrorBody m /\
             aborted w = false /\
             upstream_status env w s /\ 65536 <= s /\
             http_status response = unsigned_short s /\
             200 <= http_status response <= 599)
  | Threw thrown =>
      aborted w = false /\
      exists s,
        upstream_status env w s /\ 599 < s /\
        (thrown = RangeError_status
         \/ (65536 <= s /\
             thrown = TypeError_null_body_status (unsigned_short s)))
  | OutOfFuel => True
  end.
Proof.
  intros Hrun.
  destruct (preflight env sp ep) as [resp|a] eqn:Hpre.
  { rewrite (handle_refused _ _ _ _ _ Hpre) in Hrun. inversion Hrun; subst.
    right. left. clear Hrun. unfold preflight in Hpre.
    repeat match type of Hpre with
           | context [if ?b then _ else _] => destruct b
           | context [match Date_of_string ?p ?x with _ => _ end] =>
               destruct (Date_of_string p x)
           end;
      inversion Hpre; subst; simpl; eexists; (split; [reflexivity | lia]). }
  rewrite (handle_as_stages _ _ _ _ _ Hpre) in Hrun.
  destruct (stages _ _ _ _ _ _ _ _ armed) as [o1 w1] eqn:Hst.
  destruct o1 as [r|e|]; inversion Hrun; subst; clear Hrun.
  - destruct (stages_returns_report _ _ _ _ _ _ _ _ _ _ _ Hst) as (report & ->).
    left. exists report. split; reflexivity.
  - pose proof (stages_throws _ _ _ _ _ _ _ _ _ _ _ Hst) as Hse.
    destruct (stage_error_asked (aborted w1) e Hse)
      as [Hin | (Hab & u & s & m & -> & Hs & Hasked)].
    + rewrite (delivered_error _ Hin). right. left.
      destruct (error_response_is_error (aborted w1) e) as (m & Hm). eauto.
    + pose proof (stages_upstream_traced _ _ _ _ _ _ _ _ _ _ _ _ _ Hst Hs)
        as Hup.
      rewrite Hasked. unfold delivered. cbn [buildErrorResponse http_status payload].
      destruct (init_status s) as [thrown|s'] eqn:Einit.
      * split; [exact Hab|]. exists s. split; [exact Hup|]. split; [exact Hs|].
        destruct (Z_lt_ge_dec s 65536) as [Hlt|Hge].
        -- rewrite init_status_out_of_range in Einit by lia.
           inversion Einit. left. reflexivity.
        -- destruct (init_status_thrown _ _ Einit) as [-> | ->];
             [left; reflexivity | right; split; [lia | reflexivity]].
      * destruct (init_status_kept _ _ Einit) as [-> Hrange].
        right. right. exists m, s.
        cbn [http_status payload clearTimeout aborted].
        split; [reflexivity|]. split; [exact Hab|]. split; [exact Hup|].
        split; [|split; [reflexivity | exact Hrange]].
        destruct (Z_lt_ge_dec s 65536) as [Hlt|Hge]; [|lia].
        rewrite init_status_out_of_range in Einit by lia. discriminate.
  - exact I.
Qed.

Lemma every_outcome_witness :
  aborted (snd Cases.out_of_range_run) = false /\
  exists s,
    upstream_status Cases.out_of_range_env (snd Cases.out_of_range_run) s /\
    599 < s /\
    (RangeError_status = RangeError_status
     \/ (65536 <= s /\
         RangeError_status = TypeError_null_body_status (unsigned_short s))).
Proof.
  exact (every_outcome_is_a_response Cases.out_of_range_env 3
           (Some "2025-01-01") (Some "2025-01-07")
           (fst Cases.out_of_range_run) (snd Cases.out_of_range_run) eq_refl).
Defined.

(** ** Pagination *)

Section Pagination.
Variable env : Env.
Variables repo token since until : string.

Abbreviation turn := (fetch_page env repo token since until).
Abbreviation query := (page_request repo token since until).

Lemma pages_from_cons from n :
  pages_from repo token since until from (S n)
  = HostCall (query (Z.of_nat from))
      :: pages_from repo token since until (S from) n.
Proof. reflexivity. Qed.

Lemma page_size_served page d r records :
  github_api env (query page) = Responds d r ->
  body r = Parses (JsonCommits records) ->
  page_size env (query page) = Z.of_nat (length records).
Proof.
  intros Hh Hb. unfold page_size, records_of. now rewrite Hh, Hb.
Qed.

(** The loop from page [from], whatever has been accumulated: it queries
    consecutive pages, each once; every page but the last one queried was
    full; and it returns only after a page that was not full. *)
Lemma loop_pages fuel : forall from acc w o w',
  while_true fuel turn (Z.of_nat from, acc) w = (o, w') ->
  exists n,
    (n <= fuel)%nat /\
    calls w' = List.app (calls w) (pages_from repo token since until from n) /\
    (forall p, (from <= p < from + n - 1)%nat ->
               PER_PAGE <= page_size env (query (Z.of_nat p))) /\
    (forall batch, o = Returned batch ->
                   (1 <= n)%nat /\
                   page_size env (query (Z.of_nat (from + n - 1))) < PER_PAGE).
Proof.
  induction fuel as [|fuel IH]; intros from acc w o w' Hrun.
  - inversion Hrun; subst. exists 0%nat. simpl. rewrite app_nil_r.
    split; [lia|]. split; [reflexivity|].
    split; [intros p Hp; lia | discriminate].
  - rewrite while_true_turn in Hrun.
    destruct (turn (Z.of_nat from, acc) w) as [[step|e|] w1] eqn:Hturn.
    + pose proof (fetch_page_calls _ _ _ _ _ _ _ _ _ _ Hturn) as Hc.
      destruct (fetch_page_returned _ _ _ _ _ _ _ _ _ _ Hturn)
        as (d & r & records & Hhost & Hbody & _ & _ & _ & Hstep).
      pose proof (page_size_served _ _ _ _ Hhost Hbody) as Hsize.
      cbv zeta in Hstep.
      destruct (Z.of_nat (length records) <? PER_PAGE) eqn:Eshort;
        subst step; cbv beta iota in Hrun.
      * inversion Hrun; subst. exists 1%nat. simpl.
        split; [lia|]. split; [exact Hc|]. split; [intros p Hp; lia|].
        intros batch _. split; [lia|].
        replace (from + 1 - 1)%nat with from by lia.
        apply Z.ltb_lt in Eshort. lia.
      * replace (Z.of_nat from + 1) with (Z.of_nat (S from)) in Hrun by lia.
        destruct (IH _ _ _ _ _ Hrun) as (n & Hn & Hcalls & Hfull & Hlast).
        exists (S n). split; [lia|]. split; [|split].
        -- rewrite Hcalls, Hc, pages_from_cons, <- app_assoc. reflexivity.
        -- intros p Hp. destruct (Nat.eq_dec p from) as [-> | Hne].
           ++ apply Z.ltb_ge in Eshort. lia.
           ++ apply Hfull. lia.
        -- intros batch Hb. destruct (Hlast batch Hb) as [H1 Hshort].
           split; [lia|].
           replace (from + S n - 1)%nat with (S from + n - 1)%nat by lia.
           exact Hshort.
    + inversion Hrun; subst.
      pose proof (fetch_page_calls _ _ _ _ _ _ _ _ _ _ Hturn) as Hc.
      exists 1%nat. simpl. split; [lia|]. split; [exact Hc|].
      split; [intros p Hp; lia | discriminate].
    + exfalso. apply (fetch_page_aborted _ _ _ _ _ _ _ _ _ _ Hturn).
      reflexivity.
Qed.

(** With no deadline, a host that serves [n] full pages and then a page that
    is not full makes the loop return after [n + 1] queries, given fuel for
    them. *)
Lemma loop_returns n : forall fuel from acc w,
  untimed w ->
  (n < fuel)%nat ->
  (forall p, (from <= p < from + n)%nat ->
             exists records,
               serves_page env (query (Z.of_nat p)) records /\
               PER_PAGE <= Z.of_nat (length records)) ->
  (exists records,
      serves_page env (query (Z.of_nat (from + n))) records /\
      Z.of_nat (length records) < PER_PAGE) ->
  exists batch w',
    while_true fuel turn (Z.of_nat from, acc) w = (Returned batch, w') /\
    untimed w' /\
    calls w'
    = List.app (calls w) (pages_from repo token since until from (S n)).
Proof.
  assert (Hturn : forall page acc w records,
             untimed w ->
             serves_page env (query page) records ->
             exists w1,
               untimed w1 /\
               calls w1 = List.app (calls w) [HostCall (query page)] /\
               turn (page, acc) w
               = (Returned
                    (let acc' :=
                       for_each_commit (iso_of_ms (arrival env + elapsed w1))
                         records acc in
                     if Z.of_nat (length records) <? PER_PAGE then Break acc'
                     else Continue (page + 1, acc')), w1)).
  { intros page acc w records [Ht Ha] (d & r & Hhost & Hok & Hbody).
    eexists. split; [|split]; cycle 2.
    - unfold fetch_page, bind, record_call, fetch, json, ret, Date_now.
      rewrite Hhost. unfold bind, await_abortable, ret. simpl.
      rewrite Ha, Ht. simpl.
      assert (E1 : (status r =? 403) || (status r =? 429) = false).
      { unfold ok in Hok. apply andb_true_iff in Hok. destruct Hok as [H1 H2].
        apply Z.leb_le in H1, H2. apply orb_false_iff.
        split; apply Z.eqb_neq; lia. }
      rewrite E1, Hok. simpl. rewrite Hbody.
      destruct (Z.of_nat (length records) <? PER_PAGE); reflexivity.
    - split; reflexivity.
    - reflexivity. }
  induction n as [|n IH]; intros fuel from acc w Hu Hfuel Hfull Hlast.
  - destruct fuel as [|fuel]; [lia|].
    destruct Hlast as (records & Hserve & Hshort).
    replace (from + 0)%nat with from in Hserve by lia.
    destruct (Hturn _ acc w _ Hu Hserve) as (w1 & Hu1 & Hc1 & Ht1).
    rewrite while_true_turn, Ht1. cbv zeta.
    apply Z.ltb_lt in Hshort. rewrite Hshort.
    eexists _, w1. split; [reflexivity|]. split; [exact Hu1 | exact Hc1].
  - destruct fuel as [|fuel]; [lia|].
    destruct (Hfull from ltac:(lia)) as (records & Hserve & Hlong).
    destruct (Hturn _ acc w _ Hu Hserve) as (w1 & Hu1 & Hc1 & Ht1).
    rewrite while_true_turn, Ht1. cbv zeta.
    apply Z.ltb_ge in Hlong. rewrite Hlong.
    replace (Z.of_nat from + 1) with (Z.of_nat (S from)) by lia.
    destruct (IH fuel (S from)
                (for_each_commit (iso_of_ms (arrival env + elapsed w1))
                   records acc) w1 Hu1 ltac:(lia))
      as (batch & w' & Hrun & Hu' & Hc').
    + intros p Hp. apply Hfull. lia.
    + replace (S from + n)%nat with (from + S n)%nat by lia. exact Hlast.
    + exists batch, w'. split; [exact Hrun|]. split; [exact Hu'|].
      rewrite Hc', Hc1, pages_from_cons, <- app_assoc. reflexivity.
Qed.

End Pagination.

(** X6.  A retrieval queries pages 1, 2, 3, ... of the window in that order,
    each once and with 100 records per page, and issues no other call.
    Every page but the last one queried came back full; and when the
    retrieval returns, the last page queried came back with fewer than 100
    records. *)
Theorem retrieval_pages_in_order env repo token since until fuel w o w' :
  fetchCommitsFromGitHub env repo token since until fuel w = (o, w') ->
  exists n,
    (n <= fuel)%nat /\
    calls w' = List.app (calls w) (pages_queried repo token since until n) /\
    (forall p, (1 <= p < n)%nat ->
               PER_PAGE <= page_size env
                             (page_request repo token since until (Z.of_nat p))) /\
    (forall batch,
        o = Returned batch ->
        (1 <= n)%nat /\
        page_size env (page_request repo token since until (Z.of_nat n))
        < PER_PAGE).
Proof.
  intros Hrun. unfold fetchCommitsFromGitHub in Hrun.
  change 1 with (Z.of_nat 1) in Hrun.
  destruct (loop_pages _ _ _ _ _ _ _ _ _ _ _ Hrun)
    as (n & Hn & Hc & Hfull & Hlast).
  exists n. split; [exact Hn|]. split; [exact Hc|]. split.
  - intros p Hp. apply Hfull. lia.
  - intros batch Hb. destruct (Hlast batch Hb) as [H1 Hshort].
    split; [exact H1|].
    replace (1 + n - 1)%nat with n in Hshort by lia. exact Hshort.
Qed.

Lemma retrieval_pages_witness :
  exists n,
    (n <= 3)%nat /\
    calls (snd Scenario.week_fetch)
    = List.app (calls boot)
        (pages_queried "acme/widgets" "ghp_token" "2025-01-01T00:00:00Z"
           "2025-01-07T23:59:59Z" n) /\
    (forall p, (1 <= p < n)%nat ->
               PER_PAGE <= page_size
                             (Scenario.week_env (Scenario.model_says "<section></section>"))
                             (page_request "acme/widgets" "ghp_token"
                                "2025-01-01T00:00:00Z" "2025-01-07T23:59:59Z"
                                (Z.of_nat p))) /\
    (forall batch,
        fst Scenario.week_fetch = Returned batch ->
        (1 <= n)%nat /\
        page_size (Scenario.week_env (Scenario.model_says "<section></section>"))
          (page_request "acme/widgets" "ghp_token" "2025-01-01T00:00:00Z"
             "2025-01-07T23:59:59Z" (Z.of_nat n))
        < PER_PAGE).
Proof.
  exact (retrieval_pages_in_order
           (Scenario.week_env (Scenario.model_says "<section></section>"))
           "acme/widgets" "ghp_token"
           "2025-01-01T00:00:00Z" "2025-01-07T23:59:59Z" 3 boot
           (fst Scenario.week_fetch) (snd Scenario.week_fetch) eq_refl).
Defined.

(** ** A retrieval that returns *)

(** X7.  With no deadline armed, if the host serves [n] full pages of the
    window and then a page with fewer than 100 records, a retrieval with
    fuel for [n + 1] turns returns, having queried exactly pages 1 to
    [n + 1]; its batch is, in order, the normalized form of the records
    served on those pages that are not merges. *)
Theorem retrieval_returns_after_short_page
        env repo token since until n fuel w :
  untimed w ->
  (n < fuel)%nat ->
  (forall p, (1 <= p < 1 + n)%nat ->
             exists records,
               serves_page env (page_request repo token since until (Z.of_nat p))
                 records /\
               PER_PAGE <= Z.of_nat (length records)) ->
  (exists records,
      serves_page env (page_request repo token since until (Z.of_nat (1 + n)))
        records /\
      Z.of_nat (length records) < PER_PAGE) ->
  exists batch w',
    fetchCommitsFromGitHub env repo token since until fuel w
    = (Returned batch, w') /\
    calls w'
    = List.app (calls w) (pages_queried repo token since until (S n)) /\
    Forall2 normalized_from batch
      (kept (served env (pages_queried repo token since until (S n)))).
Proof.
  intros Hu Hfuel Hfull Hlast.
  destruct (loop_returns env repo token since until n fuel 1%nat [] w
              Hu Hfuel Hfull Hlast) as (batch & w' & Hrun & _ & Hc).
  exists batch, w'. split; [exact Hrun|]. split; [exact Hc|].
  destruct (fetch_accumulates _ _ _ _ _ _ _ _ _ Hrun) as (new & Hc' & Hall).
  rewrite Hc in Hc'. apply app_inv_head in Hc'.
  unfold pages_queried. unfold pages_from in Hc'. rewrite Hc'. exact Hall.
Qed.

Lemma retrieval_returns_witness :
  exists batch w',
    fetchCommitsFromGitHub Cases.busy_env "acme/widgets" "ghp_token"
      "2025-01-01T00:00:00Z" "2025-01-07T23:59:59Z" 5 boot
    = (Returned batch, w') /\
    calls w'
    = List.app (calls boot)
        (pages_queried "acme/widgets" "ghp_token" "2025-01-01T00:00:00Z"
           "2025-01-07T23:59:59Z" 2) /\
    Forall2 normalized_from batch
      (kept (served Cases.busy_env
               (pages_queried "acme/widgets" "ghp_token"
                  "2025-01-01T00:00:00Z" "2025-01-07T23:59:59Z" 2))).
Proof.
  apply (retrieval_returns_after_short_page Cases.busy_env
           "acme/widgets" "ghp_token"
           "2025-01-01T00:00:00Z" "2025-01-07T23:59:59Z" 1 5 boot).
  - split; reflexivity.
  - lia.
  - intros p Hp. assert (p = 1%nat) by lia. subst p.
    eexists. split; [eexists _, _; repeat split; reflexivity|].
    vm_compute. discriminate.
  - eexists. split; [eexists _, _; repeat split; reflexivity|].
    vm_compute. reflexivity.
Defined.

(** ** The request sent to the model *)

Section SummaryRequest.
Variable env : Env.
Variables model apiKey repo start end_ : string.
Variable commits : list CommitSummary.

Ltac open_stage H :=
  cbv beta iota zeta delta
    [generateSummaryHtml bind try_catch call_model record_call or_RangeError
     rethrow_model_error ret throw] in H.

Ltac step_stage H :=
  match type of H with
  | context [if is_empty apiKey then _ else _] =>
      let E := fresh "Ekey" in destruct (is_empty apiKey) eqn:E
  | context [if is_empty model then _ else _] =>
      let E := fresh "Emodel" in destruct (is_empty model) eqn:E
  | context [if Z.of_nat (length commits) =? 0 then _ else _] =>
      let E := fresh "Elen" in destruct (Z.of_nat (length commits) =? 0) eqn:E
  | context [match buildBulletList ?p ?c with _ => _ end] =>
      let E := fresh "Ebullets" in destruct (buildBulletList p c) eqn:E
  | context [match generateText ?e ?q with _ => _ end] =>
      let E := fresh "Eanswer" in destruct (generateText e q) eqn:E
  | context [await_abortable ?d ?w0] => wait_cases d w0
  | context [if is_empty (trim ?t) then _ else _] =>
      let E := fresh "Eblank" in destruct (is_empty (trim t)) eqn:E
  | context [match buildFallbackSummary ?p ?a ?b ?c ?d with _ => _ end] =>
      let E := fresh "Efallback" in
      destruct (buildFallbackSummary p a b c d) eqn:E
  | context [if ?b then _ else _] =>
      let E := fresh "Eif" in destruct b eqn:E
  end; cbv beta iota zeta in H.

Ltac settle := subst; cbn [elapsed timer aborted calls] in *.

Ltac name_sent H :=
  match type of H with
  | context [ModelCall (Build_ModelRequest ?a ?b ?c ?d)] =>
      let sent := fresh "sent" in
      let Es := fresh "Esent" in
      remember (Build_ModelRequest a b c d) as sent eqn:Es;
      apply (f_equal (@Some ModelRequest)) in Es
  end.

Ltac without_call Hcalls :=
  exfalso; symmetry in Hcalls; revert Hcalls;
  match goal with
  | |- List.app ?l _ = _ -> _ => rewrite <- (app_nil_r l) at 2
  end;
  intros Hcalls; apply app_inv_head in Hcalls; discriminate.

(** The request the stage sends: the credential and model identifier it was
    given, the reporter instructions, and a prompt made of the window and
    the bullet list. *)
Lemma summary_request w o w' q :
  generateSummaryHtml env model apiKey repo start end_ commits w = (o, w') ->
  calls w' = List.app (calls w) [ModelCall q] ->
  is_empty apiKey = false /\ is_empty model = false /\
  exists bullets,
    buildBulletList (platform env) commits = Some bullets /\
    q = {| m_apiKey := apiKey; m_model := model;
           m_system := systemPrompt repo;
           m_prompt := prompt_for start end_ bullets |}.
Proof.
  intros H Hcalls. open_stage H.
  repeat (step_stage H; try discriminate; try name_sent H); settle.
  all: inversion H; subst; cbn [calls] in *.
  all: try (without_call Hcalls).
  all: repeat match goal with
              | Hc : calls ?x = _ |- _ =>
                  tryif constr_eq Hc Hcalls then fail
                  else (rewrite Hc in Hcalls; clear Hc)
              end.
  all: cbn [calls] in Hcalls.
  all: apply app_inv_head in Hcalls; inversion Hcalls; subst q.
  all: inversion Esent; subst sent.
  all: split; [reflexivity|]; split; [reflexivity|].
  all: eexists; split; reflexivity.
Qed.

(** Without a bullet list the stage throws the error of the date and calls
    nothing. *)
Lemma summary_bad_date w :
  is_empty apiKey = false ->
  is_empty model = false ->
  commits <> [] ->
  buildBulletList (platform env) commits = None ->
  generateSummaryHtml env model apiKey repo start end_ commits w
  = (Threw RangeError_invalid_time, w).
Proof.
  intros Hk Hm Hne Hb. unfold generateSummaryHtml. rewrite Hk, Hm.
  destruct commits as [|c l]; [congruence|].
  replace (Z.of_nat (length (c :: l)) =? 0) with false
    by (symmetry; apply Z.eqb_neq; simpl length; lia).
  rewrite Hb. reflexivity.
Qed.

(** When the model answers with text that is not blank and the stage
    returns, it returns that text trimmed, as it is when it starts with "<"
    and otherwise escaped inside a paragraph. *)
Lemma summary_text_used w html w' q d text :
  generateSummaryHtml env model apiKey repo start end_ commits w
  = (Returned html, w') ->
  calls w' = List.app (calls w) [ModelCall q] ->
  generateText env q = Generates d text ->
  is_empty (trim text) = false ->
  html = if startsWith (trim text) "<" then trim text
         else cat ["<section><p>"; escapeHtml (trim text); "</p></section>"].
Proof.
  intros H Hcalls Hgen Hblank. open_stage H.
  repeat (step_stage H; try discriminate; try name_sent H); settle.
  all: inversion H; subst; cbn [calls] in *.
  all: try (without_call Hcalls).
  all: apply app_inv_head in Hcalls; inversion Hcalls; subst q.
  all: rewrite Hgen in *; inversion Eanswer; subst; try congruence.
  all: rewrite ?Eif; reflexivity.
Qed.

End SummaryRequest.

(** ** The calls of one request *)

(** X8.  The calls of one request, in order: the queries for pages 1, 2, ...
    of the window from the first date at 00:00:00Z to the second at
    23:59:59Z, for the configured repository with the configured token;
    then at most one call to the model.  When there is one, the retrieval
    has returned a batch that is not empty, and the call carries the
    configured credential, the normalized model identifier, the reporter
    instructions naming the repository, and the prompt made of the window
    and of the bullet list [buildBulletList] gives for that batch. *)
Theorem request_calls_in_sequence env fuel sp ep out w :
  handle env fuel sp ep = (out, w) ->
  let repo := nullish (GITHUB_REPO env) EmptyString in
  let token := nullish (GITHUB_TOKEN env) EmptyString in
  let start := nullish sp EmptyString in
  let end_ := nullish ep EmptyString in
  exists n rest,
    (n <= fuel)%nat /\
    calls w
    = List.app
        (pages_queried repo token
           (start ++ "T00:00:00Z") (end_ ++ "T23:59:59Z") n)
        rest /\
    (rest = [] \/
     exists batch w1 bullets,
       fetchCommitsFromGitHub env repo token
         (start ++ "T00:00:00Z") (end_ ++ "T23:59:59Z") fuel armed
       = (Returned batch, w1) /\
       batch <> [] /\
       buildBulletList (platform env) batch = Some bullets /\
       rest = [ModelCall
                 {| m_apiKey := nullish (OPENAI_API_KEY env) EmptyString;
                    m_model :=
                      nullish
                        (normalizeModelName
                           (nullish_opt (OPENAI_MODEL env)
                              (OPENAI_REALTIME_MODEL env))) EmptyString;
                    m_system := systemPrompt repo;
                    m_prompt := prompt_for start end_ bullets |}]).
Proof.
  intros Hrun repo token start end_.
  destruct (preflight env sp ep) as [resp|a] eqn:Hpre.
  { rewrite (handle_refused _ _ _ _ _ Hpre) in Hrun. inversion Hrun; subst.
    exists 0%nat, []. split; [lia|]. split; [reflexivity | left; reflexivity]. }
  destruct (preflight_accepted _ _ _ _ Hpre)
    as (Hs & He & Hr & Ht & Hk & Hm).
  rewrite (handle_accepted _ _ _ _ _ Hpre) in Hrun.
  subst repo token start end_. rewrite Hs, He. cbn [nullish].
  rewrite <- Hr, <- Ht, <- Hk, <- Hm.
  destruct (fetchCommitsFromGitHub env (ok_repo a) (ok_token a)
              (ok_start a ++ "T00:00:00Z") (ok_end a ++ "T23:59:59Z")
              fuel armed) as [o1 w1] eqn:Hfetch.
  pose proof Hfetch as Hloop.
  unfold fetchCommitsFromGitHub in Hloop.
  change 1 with (Z.of_nat 1) in Hloop.
  destruct (loop_pages _ _ _ _ _ _ _ _ _ _ _ Hloop) as (n & Hn & Hc & _).
  simpl calls in Hc. fold (pages_queried (ok_repo a) (ok_token a)
                             (ok_start a ++ "T00:00:00Z")
                             (ok_end a ++ "T23:59:59Z") n) in Hc.
  exists n.
  destruct o1 as [commits|e|].
  - destruct (0 <? Z.of_nat (length commits)) eqn:Elen.
    + destruct (generateSummaryHtml _ _ _ _ _ _ _ w1) as [o2 w2] eqn:Hsum.
      assert (Hw : w = clearTimeout w2) by (destruct o2; inversion Hrun; auto).
      subst w. cbn [clearTimeout calls].
      destruct (summary_calls _ _ _ _ _ _ _ _ _ _ Hsum) as [Hc2 | (q & Hc2)].
      * exists []. rewrite Hc2, Hc, app_nil_r. auto.
      * destruct (summary_request _ _ _ _ _ _ _ _ _ _ _ Hsum Hc2)
          as (_ & _ & bullets & Hb & ->).
        eexists. split; [exact Hn|]. split; [rewrite Hc2, Hc; reflexivity|].
        right. exists commits, w1, bullets.
        split; [reflexivity|]. split; [|split; [exact Hb | reflexivity]].
        intros ->. discriminate Elen.
    + unfold ret in Hrun. inversion Hrun; subst. cbn [clearTimeout calls].
      exists []. rewrite Hc, app_nil_r. auto.
  - inversion Hrun; subst. cbn [clearTimeout calls].
    exists []. rewrite Hc, app_nil_r. auto.
  - inversion Hrun; subst. cbn [clearTimeout calls].
    exists []. rewrite Hc, app_nil_r. auto.
Qed.

Lemma request_calls_witness :
  exists n rest,
    (n <= 3)%nat /\
    calls (snd Scenario.week_run)
    = List.app
        (pages_queried "acme/widgets" "ghp_token"
           ("2025-01-01" ++ "T00:00:00Z") ("2025-01-07" ++ "T23:59:59Z") n)
        rest /\
    (rest = [] \/
     exists batch w1 bullets,
       fetchCommitsFromGitHub
         (Scenario.week_env
            (Scenario.model_says "<section><h2>Week</h2></section>"))
         "acme/widgets" "ghp_token"
         ("2025-01-01" ++ "T00:00:00Z") ("2025-01-07" ++ "T23:59:59Z") 3 armed
       = (Returned batch, w1) /\
       batch <> [] /\
       buildBulletList Scenario.utc_platform batch = Some bullets /\
       rest = [ModelCall
                 {| m_apiKey := "sk-key";
                    m_model := "gpt-5";
                    m_system := systemPrompt "acme/widgets";
                    m_prompt := prompt_for "2025-01-01" "2025-01-07" bullets |}]).
Proof.
  exact (request_calls_in_sequence
           (Scenario.week_env
              (Scenario.model_says "<section><h2>Week</h2></section>")) 3
           (Some "2025-01-01") (Some "2025-01-07")
           (fst Scenario.week_run) (snd Scenario.week_run) eq_refl).
Defined.

(** ** Platform errors of the host call *)

Section PageErrors.
Variable env : Env.
Variables repo token since until : string.

Abbreviation turn := (fetch_page env repo token since until).
Abbreviation query := (page_request repo token since until).

Ltac open_turn H :=
  cbv beta iota zeta delta
    [fetch_page bind record_call fetch json try_catch ret throw Date_now] in H.

Ltac step_turn H :=
  match type of H with
  | context [match github_api ?e ?q with _ => _ end] =>
      let Eh := fresh "Ehost" in
      destruct (github_api e q) eqn:Eh
  | context [await_abortable ?d ?w0] => wait_cases d w0
  | context [match body ?r with _ => _ end] =>
      let Eb := fresh "Ebody" in destruct (body r) eqn:Eb
  | context [if ?b then _ else _] =>
      let Eb := fresh "Eif" in destruct b eqn:Eb
  | context [match ?j with JsonCommits _ => _ | JsonOther _ => _ end] =>
      destruct j
  end; cbv beta iota zeta in H.

(** A turn whose query is rejected and that ends with the signal not fired
    throws the error of the rejection. *)
Lemma fetch_page_rejected page acc w o w' d e0 :
  turn (page, acc) w = (o, w') ->
  github_api env (query page) = Rejects d e0 ->
  aborted w' = false ->
  o = Threw (Native e0).
Proof.
  intros H Hhost Hab. open_turn H. rewrite Hhost in H. cbv beta iota zeta in H.
  repeat (step_turn H; try discriminate).
  all: subst; simpl in *; inversion H; subst; simpl in *; congruence.
Qed.

(** A turn on a successful response whose body cannot be parsed, that ends
    with the signal not fired, throws the error of the parser. *)
Lemma fetch_page_unparseable page acc w o w' d r e0 :
  turn (page, acc) w = (o, w') ->
  github_api env (query page) = Responds d r ->
  ok r = true ->
  body r = Unparseable e0 ->
  aborted w' = false ->
  o = Threw (Native e0).
Proof.
  intros H Hhost Hok Hbody Hab.
  assert (Est : (status r =? 403) || (status r =? 429) = false).
  { unfold ok in Hok. apply andb_true_iff in Hok. destruct Hok as [H1 H2].
    apply Z.leb_le in H1, H2. apply orb_false_iff.
    split; apply Z.eqb_neq; lia. }
  open_turn H. rewrite Hhost in H. cbv beta iota zeta in H.
  repeat (step_turn H; try discriminate).
  all: try (rewrite Eif in Est; discriminate).
  all: try (rewrite Hok in *; simpl in *; discriminate).
  all: subst; simpl in *; inversion H; subst; simpl in *; try congruence.
Qed.

Lemma all_served_step vars w vars' w' :
  all_served env vars w ->
  turn vars w = (Returned (Continue vars'), w') ->
  all_served env vars' w'.
Proof.
  destruct vars as [page acc]. intros [Hab Hall] Hrun.
  destruct (fetch_page_returned _ _ _ _ _ _ _ _ _ _ Hrun)
    as (d & r & records & Hhost & Hbody & Hok & _ & Hw & _).
  subst w'. split; simpl; auto.
  apply Forall_app; split; auto.
  constructor; [|constructor].
  exists (query page), records. split; [reflexivity|]. now exists d, r.
Qed.

(** The anatomy of a retrieval, with the pages: if it returns or runs out of
    fuel, every query was served a page in full; if it throws, the error
    comes from its last turn, entered with the signal not fired and after
    pages served in full only. *)
Lemma fetch_anatomy_pages fuel w o w' :
  aborted w = false ->
  Forall (served_in_full env) (calls w) ->
  fetchCommitsFromGitHub env repo token since until fuel w = (o, w') ->
  match o with
  | Returned _ => aborted w' = false /\ Forall (served_in_full env) (calls w')
  | OutOfFuel => aborted w' = false /\ Forall (served_in_full env) (calls w')
  | Threw e =>
      exists page acc w1,
        aborted w1 = false /\
        Forall (served_in_full env) (calls w1) /\
        turn (page, acc) w1 = (Threw e, w')
  end.
Proof.
  intros Hab Hall Hrun. unfold fetchCommitsFromGitHub in Hrun.
  assert (Hinit : all_served env (1, []) w) by (split; auto).
  destruct (while_true_last turn (all_served env) all_served_step
              fuel (1, []) w _ _ Hinit Hrun)
    as [[-> (s1 & Hs)] | ([page acc] & w1 & [Hab1 Hall1] & Hlast)].
  - exact Hs.
  - destruct Hlast as [(r & Hturn & ->) | [(e & Hturn & ->) | (Hturn & ->)]].
    + destruct (fetch_page_returned _ _ _ _ _ _ _ _ _ _ Hturn)
        as (d & resp & records & Hhost & Hbody & Hok & _ & Hw & _).
      subst w'. split; simpl; auto.
      apply Forall_app; split; auto.
      constructor; [|constructor].
      exists (query page), records. split; [reflexivity|]. now exists d, resp.
    + exists page, acc, w1. auto.
    + exfalso. apply (fetch_page_aborted _ _ _ _ _ _ _ _ _ _ Hturn). reflexivity.
Qed.

End PageErrors.

(** If some query of a request was not served a page in full, the retrieval
    threw on the turn that issued this query, and the response to the client
    is what the [catch] clause makes of that error. *)
Lemma handle_unserved_query env fuel sp ep out w q :
  handle env fuel sp ep = (out, w) ->
  In (HostCall q) (calls w) ->
  ~ served_in_full env (HostCall q) ->
  exists a page acc w1 e w2,
    preflight env sp ep = inr a /\
    fetch_page env (ok_repo a) (ok_token a) (ok_start a ++ "T00:00:00Z")
      (ok_end a ++ "T23:59:59Z") (page, acc) w1 = (Threw e, w2) /\
    q = page_request (ok_repo a) (ok_token a) (ok_start a ++ "T00:00:00Z")
          (ok_end a ++ "T23:59:59Z") page /\
    aborted w = aborted w2 /\
    out = delivered (error_response (aborted w2) e).
Proof.
  intros Hrun Hin Hbad.
  destruct (preflight env sp ep) as [resp|a] eqn:Hpre.
  { rewrite (handle_refused _ _ _ _ _ Hpre) in Hrun.
    inversion Hrun; subst. contradiction. }
  rewrite (handle_accepted _ _ _ _ _ Hpre) in Hrun.
  destruct (fetchCommitsFromGitHub env (ok_repo a) (ok_token a)
              (ok_start a ++ "T00:00:00Z") (ok_end a ++ "T23:59:59Z")
              fuel armed) as [o1 w1] eqn:Hfetch.
  assert (Hgood : forall w', Forall (served_in_full env) (calls w') ->
                             In (HostCall q) (calls w') -> False).
  { intros w' Hall Hq. rewrite Forall_forall in Hall. apply Hbad. auto. }
  pose proof (fetch_anatomy_pages env _ _ _ _ fuel armed o1 w1 eq_refl
                (Forall_nil _) Hfetch) as Hana.
  destruct o1 as [commits|e|].
  - exfalso. destruct Hana as [_ Hall].
    destruct (0 <? Z.of_nat (length commits)).
    + destruct (generateSummaryHtml _ _ _ _ _ _ _ w1) as [o2 w2] eqn:Hsum.
      assert (Hq : In (HostCall q) (calls w2))
        by (destruct o2; inversion Hrun; subst; exact Hin).
      destruct (summary_calls _ _ _ _ _ _ _ _ _ _ Hsum) as [Hc | (q2 & Hc)];
        rewrite Hc in Hq.
      * eauto.
      * apply in_app_or in Hq. destruct Hq as [Hq | [Hq | []]];
          [eauto | discriminate].
    + unfold ret in Hrun. inversion Hrun; subst. eauto.
  - destruct Hana as (page & acc & w0 & Hab0 & Hall0 & Hturn).
    inversion Hrun; subst.
    pose proof (fetch_page_calls _ _ _ _ _ _ _ _ _ _ Hturn) as Hc.
    cbn [clearTimeout calls] in Hin. rewrite Hc in Hin.
    apply in_app_or in Hin. destruct Hin as [Hin | [Hin | []]].
    + exfalso; eauto.
    + inversion Hin; subst q.
      exists a, page, acc, w0, e, w1. repeat split; auto.
  - exfalso. destruct Hana as [_ Hall].
    inversion Hrun; subst. eauto.
Qed.

Lemma platform_error_response_spec e :
  error_response false (Native e) = platform_error_response e.
Proof.
  unfold error_response, platform_error_response, instanceof_DOMException,
    instanceof_Error.
  destruct (f_kind e); reflexivity.
Qed.

Lemma delivered_platform e :
  delivered (platform_error_response e)
  = Returned (platform_error_response e).
Proof.
  unfold platform_error_response.
  destruct (f_kind e); [destruct (String.eqb _ _)| |]; reflexivity.
Qed.

(** X9.  If a request ends with the deadline not fired and one of its queries
    to the host was rejected (the host could not be reached), the client
    receives 502 with the message of the error; or the fixed text when what
    was thrown is no Error; or 504 with the timeout message when the error is
    a DOMException named AbortError. *)
Theorem unreachable_host_surfaced env fuel sp ep out w q d e :
  handle env fuel sp ep = (out, w) ->
  aborted w = false ->
  In (HostCall q) (calls w) ->
  github_api env q = Rejects d e ->
  out = Returned (platform_error_response e).
Proof.
  intros Hrun Hab Hin Hhost.
  assert (Hbad : ~ served_in_full env (HostCall q)).
  { intros (q' & records & Hq & d' & r & Hh & _). inversion Hq; subst q'.
    congruence. }
  destruct (handle_unserved_query _ _ _ _ _ _ _ Hrun Hin Hbad)
    as (a & page & acc & w1 & e1 & w2 & _ & Hturn & -> & Hw & ->).
  rewrite Hw in Hab.
  pose proof (fetch_page_rejected _ _ _ _ _ _ _ _ _ _ _ _ Hturn Hhost Hab)
    as He.
  inversion He; subst e1. rewrite Hab, platform_error_response_spec.
  apply delivered_platform.
Qed.

Lemma unreachable_host_witness :
  fst Cases.unreachable_run = Returned (buildErrorResponse "fetch failed" 502).
Proof.
  exact (unreachable_host_surfaced Cases.unreachable_env 3
           (Some "2025-01-01") (Some "2025-01-07")
           (fst Cases.unreachable_run) (snd Cases.unreachable_run)
           Scenario.week_query 30%N Cases.network_down
           eq_refl eq_refl (or_introl eq_refl) eq_refl).
Defined.

(** X10.  If a request ends with the deadline not fired and one of its queries
    was answered by a successful response whose body could not be parsed,
    the client receives the answer to the error of the parser: 502 with its
    message (504 with the timeout message for a DOMException named
    AbortError). *)
Theorem unreadable_page_surfaced env fuel sp ep out w q d r e :
  handle env fuel sp ep = (out, w) ->
  aborted w = false ->
  In (HostCall q) (calls w) ->
  github_api env q = Responds d r ->
  ok r = true ->
  body r = Unparseable e ->
  out = Returned (platform_error_response e).
Proof.
  intros Hrun Hab Hin Hhost Hok Hbody.
  assert (Hbad : ~ served_in_full env (HostCall q)).
  { intros (q' & records & Hq & d' & r' & Hh & _ & Hb). inversion Hq; subst q'.
    rewrite Hhost in Hh. inversion Hh; subst. congruence. }
  destruct (handle_unserved_query _ _ _ _ _ _ _ Hrun Hin Hbad)
    as (a & page & acc & w1 & e1 & w2 & _ & Hturn & -> & Hw & ->).
  rewrite Hw in Hab.
  pose proof (fetch_page_unparseable _ _ _ _ _ _ _ _ _ _ _ _ _
                Hturn Hhost Hok Hbody Hab) as He.
  inversion He; subst e1. rewrite Hab, platform_error_response_spec.
  apply delivered_platform.
Qed.

Lemma unreadable_page_witness :
  fst Cases.garbled_run
  = Returned (buildErrorResponse "Unexpected token < in JSON at position 0" 502).
Proof.
  exact (unreadable_page_surfaced Cases.garbled_env 3
           (Some "2025-01-01") (Some "2025-01-07")
           (fst Cases.garbled_run) (snd Cases.garbled_run)
           Scenario.week_query 200%N Cases.garbled Cases.bad_json
           eq_refl eq_refl (or_introl eq_refl) eq_refl eq_refl eq_refl).
Defined.

(** X11.  If a request ends with the deadline not fired and its call to the
    model failed with an Error named AbortError, the error is passed on as
    it is: the client receives 504 with the timeout message when it is a
    DOMException, and 502 with the message of the error otherwise. *)
Theorem model_abort_error_surfaced env fuel sp ep out w q d e :
  handle env fuel sp ep = (out, w) ->
  aborted w = false ->
  In (ModelCall q) (calls w) ->
  generateText env q = Fails d e ->
  instanceof_Error (Native e) && String.eqb (f_name e) "AbortError" = true ->
  out = Returned (platform_error_response e).
Proof.
  intros Hrun Hab Hin Hfail Hname.
  destruct (handle_model_call _ _ _ _ _ _ _ Hrun Hin)
    as (a & commits & w1 & o2 & w2 & _ & _ & Hsum & Hc & _ & Hw & ->).
  subst w. cbn [clearTimeout aborted] in Hab.
  rewrite (summary_model_failed _ _ _ _ _ _ _ _ _ _ _ _ _ Hsum Hc Hfail Hab).
  rewrite Hab. unfold model_error_rethrown. rewrite Hname.
  rewrite platform_error_response_spec. apply delivered_platform.
Qed.

Lemma model_abort_error_witness :
  fst Cases.cancelled_run
  = Returned (buildErrorResponse "The request was cancelled" 502).
Proof.
  exact (model_abort_error_surfaced
           (Scenario.week_env (fun _ => Fails 800 Cases.sdk_abort)) 3
           (Some "2025-01-01") (Some "2025-01-07")
           (fst Cases.cancelled_run) (snd Cases.cancelled_run)
           (Scenario.model_query (snd Cases.cancelled_run)) 800%N
           Cases.sdk_abort
           eq_refl eq_refl (or_intror (or_introl eq_refl)) eq_refl eq_refl).
Defined.

(** ** The text of the model *)

(** X12.  In every success response to a request whose model call answered
    with text that is not blank, [summary_html] is that text trimmed: as it
    is when it starts with "<", and otherwise escaped inside a paragraph of
    a section. *)
Theorem model_text_becomes_summary
        env fuel sp ep response report w q d text :
  handle env fuel sp ep = (Returned response, w) ->
  payload response = ReportBody report ->
  In (ModelCall q) (calls w) ->
  generateText env q = Generates d text ->
  is_empty (trim text) = false ->
  summary_html report
  = if startsWith (trim text) "<" then trim text
    else "<section><p>" ++ escapeHtml (trim text) ++ "</p></section>".
Proof.
  intros Hrun Hp Hin Hgen Hblank.
  destruct (handle_model_call _ _ _ _ _ _ _ Hrun Hin)
    as (a & batch & w1 & o2 & w2 & _ & _ & Hsum & Hc & _ & _ & Hout).
  destruct o2 as [html|e|]; [| |discriminate].
  2:{ exfalso. symmetry in Hout. apply delivered_payload in Hout.
      destruct (error_response_is_error (aborted w2) e) as (m & Hm).
      congruence. }
  inversion Hout; subst response. simpl in Hp. inversion Hp; subst report.
  simpl.
  rewrite (summary_text_used _ _ _ _ _ _ _ _ _ _ _ _ _ Hsum Hc Hgen Hblank).
  destruct (startsWith (trim text) "<"); reflexivity.
Qed.

Lemma model_text_witness :
  summary_html (Scenario.report_or_blank (fst Cases.plain_run))
  = "<section><p>Fixes &amp; &lt;polish&gt;</p></section>".
Proof.
  exact (model_text_becomes_summary Cases.plain_env 3
           (Some "2025-01-01") (Some "2025-01-07")
           (Scenario.response_of (fst Cases.plain_run))
           (Scenario.report_or_blank (fst Cases.plain_run))
           (snd Cases.plain_run)
           (Scenario.model_query (snd Cases.plain_run))
           3000%N " Fixes & <polish> "
           eq_refl eq_refl (or_intror (or_introl eq_refl)) eq_refl eq_refl).
Defined.

(** ** A date that is no date *)

Lemma map_throwing_none {A B} (f : A -> option B) xs x :
  In x xs -> f x = None -> map_throwing f xs = None.
Proof.
  induction xs as [|y xs IH]; simpl; [contradiction|].
  intros [-> | Hin] Hx.
  - now rewrite Hx.
  - destruct (f y); [|reflexivity]. now rewrite (IH Hin Hx).
Qed.

Lemma buildBulletList_bad_date pf commits c :
  In c commits ->
  is_empty (date c) = false ->
  Date_of_string pf (date c) = None ->
  buildBulletList pf commits = None.
Proof.
  intros Hin Hne Hbad. unfold buildBulletList.
  rewrite (map_throwing_none _ _ c Hin); [reflexivity|].
  unfold bullet_item, day_of. rewrite Hne, Hbad. simpl.
  destruct (extractCommitDetails (message c)); reflexivity.
Qed.

(** X13.  When the checks pass, the model is configured and the retrieval
    returns a batch holding a commit whose date string is not empty and is
    not a date, the request is answered 502 with the message of the range
    error; the state is the one the retrieval left, so the model was not
    called. *)
Theorem unreadable_commit_date_gives_502 env fuel sp ep a batch w1 c :
  preflight env sp ep = inr a ->
  fetchCommitsFromGitHub env (ok_repo a) (ok_token a)
    (ok_start a ++ "T00:00:00Z") (ok_end a ++ "T23:59:59Z") fuel armed
  = (Returned batch, w1) ->
  falsy (ok_apiKey a) = false ->
  ok_model a <> None ->
  In c batch ->
  is_empty (date c) = false ->
  Date_of_string (platform env) (date c) = None ->
  handle env fuel sp ep
  = (Returned (buildErrorResponse "Invalid time value" 502), clearTimeout w1)
  /\ forall q, ~ In (ModelCall q) (calls (clearTimeout w1)).
Proof.
  intros Hpre Hfetch Hkey Hmodel Hin Hne Hbad.
  destruct (preflight_accepted _ _ _ _ Hpre) as (_ & _ & _ & _ & _ & Hm).
  destruct (fetch_anatomy env _ _ _ _ fuel armed _ w1 eq_refl
              (Forall_nil _) Hfetch) as [Hab Hall].
  split.
  - rewrite (handle_accepted _ fuel _ _ _ Hpre), Hfetch.
    assert (Hlen : (0 <? Z.of_nat (length batch)) = true).
    { destruct batch; [contradiction|]. apply Z.ltb_lt. simpl length. lia. }
    rewrite Hlen.
    rewrite summary_bad_date.
    + rewrite Hab. reflexivity.
    + destruct (ok_apiKey a); [exact Hkey | discriminate].
    + destruct (ok_model a) as [m|] eqn:Em; [|congruence].
      symmetry in Hm. exact (normalizeModelName_nonempty _ _ Hm).
    + intros ->. contradiction.
    + eapply buildBulletList_bad_date; eauto.
  - intros q Hq. rewrite Forall_forall in Hall.
    exact (answered_ok_not_model _ _ (Hall _ Hq)).
Qed.

Lemma unreadable_commit_date_witness :
  handle Cases.misdated_env 3 (Some "2025-01-01") (Some "2025-01-07")
  = (Returned (buildErrorResponse "Invalid time value" 502),
     clearTimeout (snd Cases.misdated_fetch))
  /\ forall q, ~ In (ModelCall q) (calls (clearTimeout (snd Cases.misdated_fetch))).
Proof.
  exact (unreadable_commit_date_gives_502 Cases.misdated_env 3
           (Some "2025-01-01") (Some "2025-01-07")
           (Scenario.week_accepted (Some "gpt-5") (Some "sk-key"))
           (Scenario.returned_or (fst Cases.misdated_fetch) [])
           (snd Cases.misdated_fetch)
           (normalize EmptyString
              (Scenario.raw_commit "m1" (Some "Ship it") (Some "yesterday")
                 ["m0"]))
           eq_refl eq_refl eq_refl ltac:(discriminate)
           (or_introl eq_refl) eq_refl eq_refl).
Defined.

(** ** The records of a batch *)

Lemma summaryLine_of_tidy message :
  trim (summaryLine_of message) = summaryLine_of message /\
  ~ In LF (to_list (summaryLine_of message)).
Proof.
  unfold summaryLine_of.
  destruct (split LF message) as [|first rest] eqn:Es.
  - split; [reflexivity | simpl; tauto].
  - split; [apply trim_idempotent|].
    intros Hin. apply trim_chars in Hin.
    apply (split_no_sep LF message first); [rewrite Es; left; reflexivity|].
    exact Hin.
Qed.

Lemma normalize_tidy now c :
  isMerge c = false -> tidy_summary_line (normalize now c).
Proof.
  intros Hkeep. unfold tidy_summary_line. simpl.
  destruct (summaryLine_of_tidy (raw_message c)) as [Ht Hl].
  repeat split; auto.
  unfold isMerge in Hkeep. apply orb_false_iff in Hkeep. apply Hkeep.
Qed.

(** X14.  Every record of a batch the retrieval returns has a summary line
    that is the first line of its message, trimmed: it has no white space
    at either end, contains no line break, and does not start with "merge"
    in any letter case. *)
Theorem batch_summary_lines_are_tidy env repo token since until fuel w batch w' :
  fetchCommitsFromGitHub env repo token since until fuel w
  = (Returned batch, w') ->
  Forall tidy_summary_line batch.
Proof.
  intros Hrun.
  destruct (fetch_accumulates _ _ _ _ _ _ _ _ _ Hrun) as (new & _ & Hall).
  assert (Hkept : Forall (fun c => isMerge c = false) (kept (served env new))).
  { apply Forall_forall. intros c Hin. unfold kept in Hin.
    apply filter_In in Hin. now apply negb_true_iff. }
  revert Hkept. clear Hrun.
  induction Hall as [|r c l l' (now & ->) _ IH]; intros Hkept; constructor.
  - apply normalize_tidy. now inversion Hkept.
  - apply IH. now inversion Hkept.
Qed.

Lemma batch_summary_lines_witness :
  Forall tidy_summary_line (Scenario.returned_or (fst Scenario.week_fetch) []).
Proof.
  exact (batch_summary_lines_are_tidy
           (Scenario.week_env (Scenario.model_says "<section></section>"))
           "acme/widgets" "ghp_token"
           "2025-01-01T00:00:00Z" "2025-01-07T23:59:59Z" 3 boot
           (Scenario.returned_or (fst Scenario.week_fetch) [])
           (snd Scenario.week_fetch) eq_refl).
Defined.

(** ** The report *)

(** A success response comes from a retrieval and a summary stage that both
    returned. *)
Lemma handle_report_shape env fuel sp ep response report w :
  handle env fuel sp ep = (Returned response, w) ->
  payload response = ReportBody report ->
  exists a w1 html w2,
    preflight env sp ep = inr a /\
    fetchCommitsFromGitHub env (ok_repo a) (ok_token a)
      (ok_start a ++ "T00:00:00Z") (ok_end a ++ "T23:59:59Z") fuel armed
    = (Returned (commits report), w1) /\
    aborted w1 = false /\
    (if 0 <? Z.of_nat (length (commits report))
     then generateSummaryHtml env (nullish (ok_model a) EmptyString)
            (nullish (ok_apiKey a) EmptyString) (ok_repo a)
            (ok_start a) (ok_end a) (commits report)
     else ret (empty_range_sentence (ok_start a) (ok_end a))) w1
    = (Returned html, w2) /\
    report = responseBody (ok_repo a) (ok_model a) (ok_start a) (ok_end a)
               (commits report) html (arrival env + elapsed w2) /\
    response = NextResponse_json report /\
    w = clearTimeout w2.
Proof.
  intros Hrun Hp.
  destruct (preflight env sp ep) as [r|a] eqn:Hpre.
  { rewrite (handle_refused _ _ _ _ _ Hpre) in Hrun. inversion Hrun; subst.
    destruct (preflight_refusal_is_error _ _ _ _ Hpre) as (m & Hm).
    congruence. }
  rewrite (handle_accepted _ _ _ _ _ Hpre) in Hrun.
  assert (Herr : forall fired e,
             delivered (error_response fired e) = Returned response -> False).
  { intros fired e H. apply delivered_payload in H.
    destruct (error_response_is_error fired e) as (m & Hm). congruence. }
  destruct (fetchCommitsFromGitHub _ _ _ _ _ _ armed)
    as [[batch|e|] w1] eqn:Hf.
  - destruct (fetch_anatomy env _ _ _ _ fuel armed _ w1 eq_refl
                (Forall_nil _) Hf) as [Hab _].
    match type of Hrun with
    | context [(if ?b then ?x else ?y) w1] =>
        destruct ((if b then x else y) w1) as [[html|e|] w2] eqn:Hsum
    end.
    + inversion Hrun; subst. simpl in Hp. inversion Hp; subst.
      exists a, w1, html, w2. simpl. repeat split; auto.
    + exfalso. inversion Hrun as [[Hr Hw]]. eapply Herr; exact Hr.
    + discriminate.
  - exfalso. inversion Hrun as [[Hr Hw]]. eapply Herr; exact Hr.
  - discriminate.
Qed.

(** X15.  Every success response has status 200 and was produced before the
    deadline fired.  Its report repeats the two dates of the request and
    the configured repository; [commit_count] is the number of entries of
    [commits]; [model] is the normalized configured identifier, or
    "unknown" when there is none; and when [commits] is not empty, the
    credential and the identifier of the model are configured. *)
Theorem report_echoes_request env fuel sp ep response report w :
  handle env fuel sp ep = (Returned response, w) ->
  payload response = ReportBody report ->
  let configured :=
    normalizeModelName
      (nullish_opt (OPENAI_MODEL env) (OPENAI_REALTIME_MODEL env)) in
  http_status response = 200 /\
  aborted w = false /\
  sp = Some (start report) /\
  ep = Some (end_ report) /\
  GITHUB_REPO env = Some (repo report) /\
  commit_count (meta report) = Z.of_nat (length (commits report)) /\
  model (meta report) = nullish configured "unknown" /\
  (commits report <> [] ->
   falsy (OPENAI_API_KEY env) = false /\
   configured = Some (model (meta report))).
Proof.
  intros Hrun Hp configured.
  destruct (handle_report_shape _ _ _ _ _ _ _ Hrun Hp)
    as (a & w1 & html & w2 & Hpre & Hfetch & Hab1 & Hsum & Hreport & -> & ->).
  destruct (preflight_accepted _ _ _ _ Hpre) as (Hs & He & _ & _ & Hk & Hm).
  destruct (preflight_accepted_valid _ _ _ _ Hpre)
    as (_ & _ & _ & _ & _ & _ & _ & _ & Hr & _).
  fold configured in Hm.
  assert (Hab2 : aborted w2 = false).
  { destruct (0 <? Z.of_nat (length (commits report))).
    - destruct (summary_aborted _ _ _ _ _ _ _ _ _ _ Hsum) as [_ Hthrow].
      destruct (aborted w2) eqn:E; [|reflexivity].
      destruct (Hthrow Hab1 eq_refl) as (e & He'). discriminate.
    - unfold ret in Hsum. inversion Hsum; subst. exact Hab1. }
  assert (Hcfg : commits report <> [] ->
                 is_empty (nullish (ok_apiKey a) EmptyString) = false /\
                 is_empty (nullish (ok_model a) EmptyString) = false).
  { intros Hne.
    assert (Hlen : (0 <? Z.of_nat (length (commits report))) = true).
    { destruct (commits report); [congruence|]. apply Z.ltb_lt.
      simpl length. lia. }
    rewrite Hlen in Hsum.
    destruct (is_empty (nullish (ok_apiKey a) EmptyString)) eqn:Ek.
    { rewrite summary_unconfigured in Hsum by (left; exact Ek). discriminate. }
    destruct (is_empty (nullish (ok_model a) EmptyString)) eqn:Em.
    { rewrite summary_unconfigured in Hsum by (right; exact Em). discriminate. }
    split; reflexivity. }
  rewrite Hreport. cbn [start end_ repo commits meta commit_count model
                        NextResponse_json http_status clearTimeout aborted].
  rewrite <- Hm.
  repeat (split; [first [reflexivity | assumption]|]).
  intros Hne. rewrite Hreport in Hne. cbn [commits] in Hne.
  destruct (Hcfg Hne) as [Hkey Hmodel]. rewrite <- Hk. split.
  - destruct (ok_apiKey a); [exact Hkey | discriminate].
  - destruct (ok_model a); [reflexivity | discriminate].
Qed.

Lemma report_echoes_witness :
  http_status (Scenario.response_of (fst Scenario.week_run)) = 200 /\
  aborted (snd Scenario.week_run) = false /\
  Some "2025-01-01"
  = Some (start (Scenario.report_or_blank (fst Scenario.week_run))) /\
  Some "2025-01-07"
  = Some (end_ (Scenario.report_or_blank (fst Scenario.week_run))) /\
  Some "acme/widgets"
  = Some (repo (Scenario.report_or_blank (fst Scenario.week_run))) /\
  commit_count (meta (Scenario.report_or_blank (fst Scenario.week_run)))
  = Z.of_nat (length (commits (Scenario.report_or_blank (fst Scenario.week_run)))) /\
  model (meta (Scenario.report_or_blank (fst Scenario.week_run)))
  = nullish (normalizeModelName (Some "openai/gpt-5")) "unknown" /\
  (commits (Scenario.report_or_blank (fst Scenario.week_run)) <> [] ->
   falsy (Some "sk-key") = false /\
   normalizeModelName (Some "openai/gpt-5")
   = Some (model (meta (Scenario.report_or_blank (fst Scenario.week_run))))).
Proof.
  exact (report_echoes_request
           (Scenario.week_env
              (Scenario.model_says "<section><h2>Week</h2></section>")) 3
           (Some "2025-01-01") (Some "2025-01-07")
           (Scenario.response_of (fst Scenario.week_run))
           (Scenario.report_or_blank (fst Scenario.week_run))
           (snd Scenario.week_run) eq_refl eq_refl).
Defined.

(** ** Escaping *)

Ltac by_char x :=
  destruct (Ascii.eqb x "&") eqn:?;
  [|destruct (Ascii.eqb x "<") eqn:?;
    [|destruct (Ascii.eqb x ">") eqn:?;
      [|destruct (Ascii.eqb x (chr 34)) eqn:?;
        [|destruct (Ascii.eqb x "'") eqn:?]]]].

Ltac same_char :=
  repeat match goal with
         | E : Ascii.eqb _ _ = true |- _ => apply Ascii.eqb_eq in E
         end;
  subst;
  repeat match goal with
         | E : Ascii.eqb ?a ?a = false |- _ =>
             rewrite Ascii.eqb_refl in E; discriminate
         end.

(** X16.  [escapeHtml] loses nothing: two texts with the same escaped form are
    the same text. *)
Theorem escapeHtml_injective a : forall b,
  escapeHtml a = escapeHtml b -> a = b.
Proof.
  induction a as [|x a IH]; intros [|y b] H; simpl in H.
  - reflexivity.
  - exfalso. unfold escape_char in H. by_char y; discriminate.
  - exfalso. unfold escape_char in H. by_char x; discriminate.
  - unfold escape_char in H.
    by_char x; by_char y; simpl in H; inversion H; same_char;
      try discriminate; f_equal; auto.
Qed.

Lemma escapeHtml_injective_witness : "a<b & c" = "a<b & c".
Proof.
  exact (escapeHtml_injective "a<b & c" "a<b & c" eq_refl).
Defined.

(** ** Titles and descriptions *)

(** The first piece of a split holds no separator, and the string is that
    piece followed, when there are more, by the separator and the other
    pieces joined. *)
Lemma split_first sep s first pieces :
  split sep s = first :: pieces ->
  ~ In sep (to_list first) /\
  s = match pieces with
      | [] => first
      | _ :: _ => first ++ String sep (join (String sep EmptyString) pieces)
      end.
Proof.
  intros Hs. split.
  - apply (split_no_sep sep s). rewrite Hs. left. reflexivity.
  - rewrite <- (split_join sep s) at 1. rewrite Hs. unfold join.
    destruct pieces; reflexivity.
Qed.

(** X17.  Let the first line of a message be what precedes its first line
    feed (the whole message when it has none), and the rest be what follows
    that line feed (nothing when there is none).  The title
    [extractCommitDetails] gives is the first line, trimmed, or
    "Untitled commit" when that is empty; the description is the rest,
    trimmed.  So the title is never empty and contains no line feed, and
    neither has white space at either end. *)
Theorem extractCommitDetails_shape message :
  exists first rest,
    ~ In LF (to_list first) /\
    ((message = first /\ rest = EmptyString)
     \/ message = first ++ String LF rest) /\
    extractCommitDetails message
    = (if is_empty (trim first) then "Untitled commit" else trim first,
       trim rest) /\
    let title := fst (extractCommitDetails message) in
    let description := snd (extractCommitDetails message) in
    title <> EmptyString /\
    ~ In LF (to_list title) /\
    trim title = title /\
    trim description = description.
Proof.
  unfold extractCommitDetails.
  destruct (split LF message) as [|first pieces] eqn:Es.
  { exfalso. eapply split_nonempty; eauto. }
  destruct (split_first _ _ _ _ Es) as [Hfirst Hmsg].
  exists first, (join NL pieces).
  split; [exact Hfirst|]. split.
  { destruct pieces; [left; split; [exact Hmsg | reflexivity] | right; exact Hmsg]. }
  split; [reflexivity|].
  cbn [fst snd]. unfold or_else.
  destruct (is_empty (trim first)) eqn:Et.
  - split; [discriminate|]. split.
    + simpl. intros H.
      repeat (destruct H as [H | H]; [discriminate H|]). contradiction.
    + split; [reflexivity | apply trim_idempotent].
  - split; [now apply is_empty_false|]. split.
    + intros Hin. apply trim_chars in Hin. exact (Hfirst Hin).
    + split; apply trim_idempotent.
Qed.

(** ** The fallback lists every commit once *)

Lemma filter_split_perm {A} (p : A -> bool) l :
  Permutation (List.app (filter p l) (filter (fun x => negb (p x)) l)) l.
Proof.
  induction l as [|x l IH]; simpl; [constructor|].
  destruct (p x); simpl.
  - now constructor.
  - apply Permutation_sym, Permutation_cons_app, Permutation_sym, IH.
Qed.

Lemma of_day_rest pf k k' commits :
  k' <> k ->
  of_day pf k' commits
  = of_day pf k' (filter (fun c => negb (String.eqb (day_key pf c) k)) commits).
Proof.
  intros Hne. unfold of_day.
  induction commits as [|c l IH]; simpl; [reflexivity|].
  destruct (String.eqb (day_key pf c) k') eqn:E1.
  - apply String.eqb_eq in E1.
    destruct (String.eqb (day_key pf c) k) eqn:E2.
    + apply String.eqb_eq in E2. congruence.
    + simpl. rewrite <- E1, String.eqb_refl. now rewrite <- E1 in IH; rewrite IH.
  - destruct (String.eqb (day_key pf c) k); simpl; [exact IH|].
    now rewrite E1.
Qed.

(** The commits of each day, day after day for distinct days that cover the
    batch, are the batch rearranged. *)
Lemma of_day_partition pf ks : forall commits,
  NoDup ks ->
  (forall c, In c commits -> In (day_key pf c) ks) ->
  Permutation (concat (map (fun k => of_day pf k commits) ks)) commits.
Proof.
  induction ks as [|k ks IH]; intros commits Hnd Hcover; simpl.
  - destruct commits as [|c l]; [constructor|].
    exfalso. apply (Hcover c). left. reflexivity.
  - inversion Hnd as [|? ? Hnot Hnd']; subst.
    set (rest := filter (fun c => negb (String.eqb (day_key pf c) k)) commits).
    assert (Hmap : map (fun k' => of_day pf k' commits) ks
                   = map (fun k' => of_day pf k' rest) ks).
    { apply map_ext_in. intros k' Hin. apply of_day_rest.
      intros ->. contradiction. }
    rewrite Hmap.
    rewrite (IH rest Hnd').
    + apply (filter_split_perm (fun c => String.eqb (day_key pf c) k)).
    + intros c Hin. apply filter_In in Hin. destruct Hin as [Hin Hk].
      destruct (Hcover c Hin) as [Heq | Hks]; [|exact Hks].
      rewrite <- Heq, String.eqb_refl in Hk. discriminate.
Qed.

Lemma string_lt_irrefl a : String.ltb a a = false.
Proof.
  unfold String.ltb.
  pose proof (String.compare_antisym a a) as H.
  destruct (String.compare a a); simpl in H; try discriminate; reflexivity.
Qed.

Lemma ascending_nodup (ks : list string) :
  Sorted (fun a b => String.ltb a b = true) ks -> NoDup ks.
Proof.
  intros Hs. apply Sorted_StronglySorted in Hs.
  - induction Hs as [|k ks Hs IH Hall]; constructor; auto.
    intros Hin. rewrite Forall_forall in Hall.
    specialize (Hall _ Hin). now rewrite string_lt_irrefl in Hall.
  - intros a b c. unfold String.ltb. intros Hab Hbc.
    destruct (String.compare a b) eqn:E1; try discriminate.
    destruct (String.compare b c) eqn:E2; try discriminate.
    now rewrite (string_lt_trans _ _ _ E1 E2).
Qed.

(** X18.  For a batch that is not empty, the fallback page lists every commit
    of the batch exactly once: the items of its articles, article after
    article, are the batch rearranged. *)
Theorem fallback_lists_every_commit_once pf repo start end_ commits html :
  commits <> [] ->
  buildFallbackSummary pf repo start end_ commits = Some html ->
  exists groups,
    html = fallback_page pf start end_ groups /\
    Permutation (concat (map snd groups)) commits.
Proof.
  intros Hne Hrun.
  destruct (buildFallbackSummary_spec _ _ _ _ _ _ Hne Hrun)
    as (groups & Hhtml & Hsorted & Hkeys & Hitems & _).
  exists groups. split; [exact Hhtml|].
  assert (Hmap : map snd groups
                 = map (fun k => of_day pf k commits) (map fst groups)).
  { rewrite map_map. apply map_ext_in. intros [k items] Hin. simpl.
    now apply Hitems. }
  rewrite Hmap. apply of_day_partition.
  - now apply ascending_nodup.
  - intros c Hin. apply Hkeys. now exists c.
Qed.

Lemma fallback_lists_witness :
  exists groups,
    Scenario.returned_or
      (fst (generateSummaryHtml Scenario.blank_env "gpt-5" "sk-key"
              "acme/widgets" "2025-01-01" "2025-01-07"
              (Scenario.commits_of (fst Scenario.blank_run)) boot))
      EmptyString
    = fallback_page Scenario.utc_platform "2025-01-01" "2025-01-07" groups /\
    Permutation (concat (map snd groups))
      (Scenario.commits_of (fst Scenario.blank_run)).
Proof.
  apply (fallback_lists_every_commit_once Scenario.utc_platform "acme/widgets").
  - vm_compute. discriminate.
  - vm_compute. reflexivity.
Defined.

(** ** The calendar *)

Lemma year_of_era doe :
  0 <= doe <= 146096 ->
  let yoe := (doe - doe / 1460 + doe / 36524 - doe / 146096) / 365 in
  let doy := doe - (365 * yoe + yoe / 4 - yoe / 100) in
  0 <= yoe <= 399 /\ 0 <= doy <= 365 /\
  (doy = 365 -> yoe mod 4 = 3 /\ (yoe mod 100 <> 99 \/ yoe = 399)).
Proof.
  intros H yoe doy. subst yoe doy. Z.div_mod_to_equations. lia.
Qed.

Lemma month_of_year doy :
  0 <= doy <= 365 ->
  let mp := (5 * doy + 2) / 153 in
  let d := doy - (153 * mp + 2) / 5 + 1 in
  0 <= mp <= 11 /\ 1 <= d <= 31 /\
  (mp = 1 \/ mp = 3 \/ mp = 6 \/ mp = 8 -> d <= 30) /\
  (mp = 11 -> d <= 29 /\ (d = 29 -> doy = 365)).
Proof.
  intros H mp d. subst mp d. Z.div_mod_to_equations. lia.
Qed.

(** The date of a day number is a legal date, and it is the date of that
    day number only. *)
Lemma civil_from_days_legal z y m d :
  civil_from_days z = (y, m, d) ->
  1 <= m <= 12 /\ 1 <= d <= days_in_month y m /\ days_from_civil y m d = z.
Proof.
  unfold civil_from_days.
  set (z' := z + 719468).
  set (era := z' / 146097).
  set (doe := z' - era * 146097).
  assert (Hdoe : 0 <= doe <= 146096).
  { subst doe era. Z.div_mod_to_equations. lia. }
  set (yoe := (doe - doe / 1460 + doe / 36524 - doe / 146096) / 365).
  set (doy := doe - (365 * yoe + yoe / 4 - yoe / 100)).
  destruct (year_of_era doe Hdoe) as (Hyoe & Hdoy & Hleap).
  fold yoe in Hyoe, Hdoy, Hleap. fold doy in Hdoy, Hleap.
  set (mp := (5 * doy + 2) / 153).
  set (dd := doy - (153 * mp + 2) / 5 + 1).
  destruct (month_of_year doy Hdoy) as (Hmp & Hd & H30 & Hfeb).
  fold mp in Hmp, Hd, H30, Hfeb. fold dd in Hd, H30, Hfeb.
  assert (Hz : z = era * 146097 + doe - 719468) by (subst doe z'; lia).
  assert (Hdoe' : doe = yoe * 365 + yoe / 4 - yoe / 100 + doy)
    by (subst doy; lia).
  assert (Hdoy' : doy = (153 * mp + 2) / 5 + dd - 1) by (subst dd; lia).
  clearbody dd mp doy yoe doe era. clear z'.
  intros H. inversion H; subst y m d; clear H.
  destruct (mp <? 10) eqn:Emp.
  - apply Z.ltb_lt in Emp.
    assert (Em : (mp + 3 <=? 2) = false) by (apply Z.leb_gt; lia).
    rewrite Em. split; [lia|]. split.
    + split; [lia|]. unfold days_in_month.
      replace (mp + 3 =? 2) with false by (symmetry; apply Z.eqb_neq; lia).
      destruct ((mp + 3 =? 4) || (mp + 3 =? 6) || (mp + 3 =? 9) || (mp + 3 =? 11))
        eqn:E30; [|lia].
      apply H30.
      repeat (apply orb_true_iff in E30; destruct E30 as [E30 | E30]);
        apply Z.eqb_eq in E30; lia.
    + unfold days_from_civil. rewrite Em.
      replace (2 <? mp + 3) with true by (symmetry; apply Z.ltb_lt; lia).
      replace (mp + 3 - 3) with mp by lia.
      assert (He : (yoe + era * 400) / 400 = era)
        by (Z.div_mod_to_equations; lia).
      rewrite He.
      replace (yoe + era * 400 - era * 400) with yoe by lia.
      lia.
  - apply Z.ltb_ge in Emp.
    assert (Em : (mp - 9 <=? 2) = true) by (apply Z.leb_le; lia).
    rewrite Em. split; [lia|]. split.
    + split; [lia|]. unfold days_in_month.
      destruct (mp - 9 =? 2) eqn:E2.
      * apply Z.eqb_eq in E2. assert (Hm11 : mp = 11) by lia.
        destruct (Hfeb Hm11) as [H29 Hlast].
        unfold is_leap.
        destruct (((yoe + era * 400 + 1) mod 4 =? 0)
                  && negb ((yoe + era * 400 + 1) mod 100 =? 0)
                  || ((yoe + era * 400 + 1) mod 400 =? 0)) eqn:El; [lia|].
        assert (dd <> 29); [|lia].
        intros Hdd. destruct (Hleap (Hlast Hdd)) as [H4 H100].
        apply orb_false_iff in El. destruct El as [El1 El2].
        apply Z.eqb_neq in El2.
        apply andb_false_iff in El1. destruct El1 as [El1 | El1].
        -- apply Z.eqb_neq in El1. Z.div_mod_to_equations. lia.
        -- apply negb_false_iff in El1. apply Z.eqb_eq in El1.
           Z.div_mod_to_equations. lia.
      * replace ((mp - 9 =? 4) || (mp - 9 =? 6) || (mp - 9 =? 9) || (mp - 9 =? 11))
          with false; [lia|].
        symmetry. apply Z.eqb_neq in E2.
        repeat (apply orb_false_iff; split); apply Z.eqb_neq; lia.
    + unfold days_from_civil. rewrite Em.
      replace (2 <? mp - 9) with false by (symmetry; apply Z.ltb_ge; lia).
      replace (mp - 9 + 9) with mp by lia.
      replace (yoe + era * 400 + 1 - 1) with (yoe + era * 400) by lia.
      assert (He : (yoe + era * 400) / 400 = era)
        by (Z.div_mod_to_equations; lia).
      rewrite He.
      replace (yoe + era * 400 - era * 400) with yoe by lia.
      lia.
Qed.

(** From 1970 to 9999 the year has four digits. *)
Lemma civil_from_days_year z y m d :
  0 <= z < 2932897 ->
  civil_from_days z = (y, m, d) ->
  1970 <= y <= 9999.
Proof.
  intros Hz Hc.
  destruct (civil_from_days_legal _ _ _ _ Hc) as (Hm & Hd & Hback).
  assert (Hdm : days_in_month y m <= 31).
  { unfold days_in_month.
    destruct (m =? 2); [destruct (is_leap y); lia|].
    destruct (_ || _); lia. }
  unfold days_from_civil in Hback.
  destruct (m <=? 2) eqn:E2; destruct (2 <? m) eqn:E3;
    try (apply Z.leb_le in E2); try (apply Z.leb_gt in E2);
    try (apply Z.ltb_lt in E3); try (apply Z.ltb_ge in E3); try lia.
  all: Z.div_mod_to_equations; lia.
Qed.

(** ** Printing and reading instants *)

Lemma digit_char k :
  0 <= k <= 9 ->
  is_digit (chr (48 + Z.to_nat k)) = true /\
  digit_val (chr (48 + Z.to_nat k)) = k.
Proof.
  intros H.
  assert (Hk : k = 0 \/ k = 1 \/ k = 2 \/ k = 3 \/ k = 4 \/ k = 5 \/ k = 6 \/
               k = 7 \/ k = 8 \/ k = 9) by lia.
  repeat (destruct Hk as [-> | Hk]; [split; reflexivity|]).
  subst k. split; reflexivity.
Qed.

Lemma digits_two v :
  to_list (digits 2 v)
  = [chr (48 + Z.to_nat (v / 10 mod 10)); chr (48 + Z.to_nat (v mod 10))].
Proof. reflexivity. Qed.

Lemma digits_three v :
  to_list (digits 3 v)
  = [chr (48 + Z.to_nat (v / 10 / 10 mod 10));
     chr (48 + Z.to_nat (v / 10 mod 10)); chr (48 + Z.to_nat (v mod 10))].
Proof. reflexivity. Qed.

Lemma digits_four v :
  to_list (digits 4 v)
  = [chr (48 + Z.to_nat (v / 10 / 10 / 10 mod 10));
     chr (48 + Z.to_nat (v / 10 / 10 mod 10));
     chr (48 + Z.to_nat (v / 10 mod 10)); chr (48 + Z.to_nat (v mod 10))].
Proof. reflexivity. Qed.

Lemma read_two v rest :
  0 <= v < 100 ->
  read_digits 2 0 (List.app (to_list (digits 2 v)) rest) = Some (v, rest).
Proof.
  intros H. rewrite digits_two. cbn [List.app read_digits].
  destruct (digit_char (v / 10 mod 10)) as [Hd1 Hv1];
    [Z.div_mod_to_equations; lia|].
  destruct (digit_char (v mod 10)) as [Hd2 Hv2];
    [Z.div_mod_to_equations; lia|].
  rewrite Hd1, Hv1, Hd2, Hv2. f_equal. f_equal.
  Z.div_mod_to_equations. lia.
Qed.

Lemma read_four v rest :
  0 <= v < 10000 ->
  read_digits 4 0 (List.app (to_list (digits 4 v)) rest) = Some (v, rest).
Proof.
  intros H. rewrite digits_four. cbn [List.app read_digits].
  destruct (digit_char (v / 10 / 10 / 10 mod 10)) as [Hd1 Hv1];
    [Z.div_mod_to_equations; lia|].
  destruct (digit_char (v / 10 / 10 mod 10)) as [Hd2 Hv2];
    [Z.div_mod_to_equations; lia|].
  destruct (digit_char (v / 10 mod 10)) as [Hd3 Hv3];
    [Z.div_mod_to_equations; lia|].
  destruct (digit_char (v mod 10)) as [Hd4 Hv4];
    [Z.div_mod_to_equations; lia|].
  rewrite Hd1, Hv1, Hd2, Hv2, Hd3, Hv3, Hd4, Hv4. f_equal. f_equal.
  Z.div_mod_to_equations. lia.
Qed.

Lemma read_millis v :
  0 <= v < 1000 ->
  exists c l,
    to_list (digits 3 v) = c :: l /\
    is_digit c = true /\
    read_fraction 100 (List.app (to_list (digits 3 v)) ["Z"%char])
    = (v, ["Z"%char]).
Proof.
  intros H. rewrite digits_three. eexists _, _. split; [reflexivity|].
  destruct (digit_char (v / 10 / 10 mod 10)) as [Hd1 Hv1];
    [Z.div_mod_to_equations; lia|].
  destruct (digit_char (v / 10 mod 10)) as [Hd2 Hv2];
    [Z.div_mod_to_equations; lia|].
  destruct (digit_char (v mod 10)) as [Hd3 Hv3];
    [Z.div_mod_to_equations; lia|].
  split; [exact Hd1|].
  cbn [List.app read_fraction]. rewrite Hd1, Hv1, Hd2, Hv2, Hd3, Hv3.
  change (is_digit "Z") with false. cbv beta iota.
  change (100 / 10 / 10) with 1. change (100 / 10) with 10.
  f_equal. Z.div_mod_to_equations. lia.
Qed.

Lemma expect_head c rest :
  expect (String c EmptyString) (c :: rest) = Some rest.
Proof. unfold expect. simpl. now rewrite Ascii.eqb_refl. Qed.

Lemma cat_to_list parts :
  to_list (cat parts) = List.concat (map to_list parts).
Proof.
  unfold cat. induction parts as [|p l IH]; [reflexivity|].
  destruct l as [|q l].
  - simpl. now rewrite app_nil_r.
  - change (String.concat EmptyString (p :: q :: l))
      with (p ++ String.concat EmptyString (q :: l)).
    rewrite to_list_app, IH. reflexivity.
Qed.

(** The characters of an ISO string with a four-digit year. *)
Lemma iso_of_ms_list t y m d :
  civil_from_days (t / msPerDay) = (y, m, d) ->
  0 <= y <= 9999 ->
  to_list (iso_of_ms t)
  = List.app (to_list (digits 4 y))
      ("-"%char :: List.app (to_list (digits 2 m))
      ("-"%char :: List.app (to_list (digits 2 d))
      ("T"%char :: List.app (to_list (digits 2 (t mod msPerDay / 3600000)))
      (":"%char :: List.app (to_list (digits 2 (t mod msPerDay / 60000 mod 60)))
      (":"%char :: List.app (to_list (digits 2 (t mod msPerDay / 1000 mod 60)))
      ("."%char :: List.app (to_list (digits 3 (t mod msPerDay mod 1000)))
      ["Z"%char])))))).
Proof.
  intros Hc Hy. unfold iso_of_ms. rewrite Hc.
  replace ((0 <=? y) && (y <=? 9999)) with true
    by (symmetry; apply andb_true_iff; split; apply Z.leb_le; lia).
  rewrite cat_to_list. reflexivity.
Qed.

(** Reading an ISO string printed for an instant from 1970 to the end of
    9999 gives the instant back. *)
Lemma parse_iso_of_ms t :
  0 <= t < year_10000 -> parse_utc_form (iso_of_ms t) = Some t.
Proof.
  unfold year_10000. intros Ht.
  assert (Hms : 0 <= t mod msPerDay < 86400000)
    by (unfold msPerDay; Z.div_mod_to_equations; lia).
  assert (Hday : 0 <= t / msPerDay < 2932897)
    by (unfold msPerDay; Z.div_mod_to_equations; lia).
  assert (Ht' : t = t / msPerDay * msPerDay + t mod msPerDay)
    by (unfold msPerDay; Z.div_mod_to_equations; lia).
  set (ms := t mod msPerDay) in *. set (day := t / msPerDay) in *.
  destruct (civil_from_days day) as [[y m] d] eqn:Hc.
  pose proof (civil_from_days_year _ _ _ _ Hday Hc) as Hy.
  destruct (civil_from_days_legal _ _ _ _ Hc) as (Hm & Hd & Hback).
  assert (Hdm : days_in_month y m <= 31).
  { unfold days_in_month.
    destruct (m =? 2); [destruct (is_leap y); lia|].
    destruct (_ || _); lia. }
  unfold parse_utc_form.
  rewrite (iso_of_ms_list t y m d Hc) by lia. fold ms.
  destruct (read_millis (ms mod 1000)) as (c & l & Hl & Hdig & Hfrac);
    [Z.div_mod_to_equations; lia|].
  remember (List.app (to_list (digits 3 (ms mod 1000))) ["Z"%char]) as tail
    eqn:Etail.
  assert (Hcons : tail = c :: List.app l ["Z"%char])
    by (rewrite Etail, Hl; reflexivity).
  clear Etail Hl.
  unfold read_date.
  rewrite read_four by lia. cbv beta iota.
  rewrite expect_head.
  rewrite read_two by lia. cbv beta iota.
  rewrite expect_head.
  rewrite read_two by lia. cbv beta iota.
  replace ((1 <=? m) && (m <=? 12) && (1 <=? d) && (d <=? days_in_month y m))
    with true
    by (symmetry; repeat (apply andb_true_iff; split); apply Z.leb_le; lia).
  rewrite Hback. cbv beta iota.
  change (Ascii.eqb "T" "T") with true. cbv beta iota.
  unfold read_time.
  rewrite read_two by (Z.div_mod_to_equations; lia). cbv beta iota.
  rewrite expect_head.
  rewrite read_two by (Z.div_mod_to_equations; lia). cbv beta iota.
  replace ((ms / 3600000 <=? 23) && (ms / 60000 mod 60 <=? 59)) with true
    by (symmetry; apply andb_true_iff; split; apply Z.leb_le;
        Z.div_mod_to_equations; lia).
  rewrite expect_head.
  rewrite read_two by (Z.div_mod_to_equations; lia). cbv beta iota.
  replace (ms / 1000 mod 60 <=? 59) with true
    by (symmetry; apply Z.leb_le; Z.div_mod_to_equations; lia).
  rewrite Hcons in *. cbv beta iota.
  change (Ascii.eqb "." ".") with true. rewrite Hdig. cbn [andb].
  rewrite Hfrac. cbv beta iota.
  change (read_offset ["Z"%char]) with (Some 0). cbv beta iota.
  f_equal. clear Hc Hback Hfrac Hcons. clearbody ms day.
  unfold msPerDay in *. Z.div_mod_to_equations. lia.
Qed.

Lemma iso_of_ms_nonempty t : is_empty (iso_of_ms t) = false.
Proof.
  unfold iso_of_ms. destruct (civil_from_days (t / msPerDay)) as [[y m] d].
  destruct ((0 <=? y) && (y <=? 9999)).
  - reflexivity.
  - destruct (y <? 0); reflexivity.
Qed.

(** [new Date(d.toISOString())] is [d], for an instant from 1970 to the end
    of 9999, on every engine. *)
Lemma Date_of_iso pf t :
  0 <= t < year_10000 -> Date_of_string pf (iso_of_ms t) = Some t.
Proof.
  intros Ht. unfold Date_of_string. rewrite (parse_iso_of_ms t Ht).
  unfold TimeClip, year_10000 in *.
  replace (Z.abs t <=? 8640000000000000) with true; [reflexivity|].
  symmetry. apply Z.leb_le. lia.
Qed.

(** X19.  A record the host serves with neither an author date nor a committer
    date is stamped with the time of the retrieval; for a clock between 1970
    and the end of 9999 the stamp reads back as that very instant, so the
    summary stage never throws on it and files the record under the UTC day
    of the retrieval. *)
Theorem stamped_record_reads_back pf unknown now c :
  ~ dated c ->
  0 <= now < year_10000 ->
  date (normalize (iso_of_ms now) c) = iso_of_ms now /\
  Date_of_string pf (date (normalize (iso_of_ms now) c)) = Some now /\
  day_of pf unknown (normalize (iso_of_ms now) c)
  = Some (slice0 10 (iso_of_ms now)).
Proof.
  intros Hnd Hnow.
  assert (Hdate : date (normalize (iso_of_ms now) c) = iso_of_ms now).
  { unfold normalize, dated in *. simpl.
    destruct (nullish_opt _ _) as [when|]; [|reflexivity].
    exfalso. apply Hnd. discriminate. }
  split; [exact Hdate|]. split.
  - rewrite Hdate. now apply Date_of_iso.
  - unfold day_of. rewrite Hdate, iso_of_ms_nonempty, Date_of_iso by exact Hnow.
    reflexivity.
Qed.

Lemma stamped_record_witness :
  date (normalize (iso_of_ms Scenario.t_morning)
          (Scenario.raw_commit "u1" (Some "Tidy build scripts") None ["u0"]))
  = iso_of_ms Scenario.t_morning /\
  Date_of_string Scenario.utc_platform
    (date (normalize (iso_of_ms Scenario.t_morning)
             (Scenario.raw_commit "u1" (Some "Tidy build scripts") None ["u0"])))
  = Some Scenario.t_morning /\
  day_of Scenario.utc_platform "Unknown date"
    (normalize (iso_of_ms Scenario.t_morning)
       (Scenario.raw_commit "u1" (Some "Tidy build scripts") None ["u0"]))
  = Some (slice0 10 (iso_of_ms Scenario.t_morning)).
Proof.
  apply (stamped_record_reads_back Scenario.utc_platform "Unknown date"
           Scenario.t_morning
           (Scenario.raw_commit "u1" (Some "Tidy build scripts") None ["u0"])).
  - unfold dated. simpl. intros H. apply H. reflexivity.
  - unfold year_10000, Scenario.t_morning. lia.
Defined.

(** ** A model that answers *)

Lemma day_of_either pf u1 u2 c day :
  day_of pf u1 c = Some day -> exists day', day_of pf u2 c = Some day'.
Proof.
  unfold day_of. destruct (is_empty (date c)); [eauto|].
  destruct (toISOString (Date_of_string pf (date c))); simpl; [eauto|].
  discriminate.
Qed.

Lemma map_throwing_some {A B} (f : A -> option B) xs ys x :
  map_throwing f xs = Some ys -> In x xs -> exists y, f x = Some y.
Proof.
  revert ys; induction xs as [|a xs IH]; intros ys H Hin; [contradiction|].
  simpl in H. destruct (f a) as [b|] eqn:Ea; [|discriminate].
  destruct (map_throwing f xs) as [l|]; [|discriminate].
  destruct Hin as [-> | Hin]; [eauto|]. eapply IH; eauto.
Qed.

(** Where the bullet list can be built, so can the groups of the fallback:
    both read the same dates. *)
Lemma bullets_then_groups pf commits bullets :
  buildBulletList pf commits = Some bullets ->
  forall acc, exists G, group_by_day pf commits acc = Some G.
Proof.
  unfold buildBulletList. intros H.
  destruct (map_throwing (bullet_item pf) commits) as [items|] eqn:Em;
    [|discriminate].
  clear H. revert items Em.
  induction commits as [|c rest IH]; intros items Em acc; simpl; [eauto|].
  destruct (map_throwing_some _ _ _ c Em (or_introl eq_refl)) as (b & Hb).
  unfold bullet_item in Hb.
  destruct (extractCommitDetails (message c)) as [title description].
  destruct (day_of pf "????-??-??" c) as [day|] eqn:Ed; [|discriminate].
  destruct (day_of_either pf _ "Unknown date" c day Ed) as (key & Hkey).
  rewrite Hkey.
  simpl in Em. unfold bullet_item in Em at 1.
  destruct (extractCommitDetails (message c)) in Em.
  rewrite Ed in Em.
  destruct (map_throwing (bullet_item pf) rest) as [l|] eqn:Er; [|discriminate].
  eapply IH; eauto.
Qed.

Section SummaryAnswer.
Variable env : Env.
Variables model apiKey repo start end_ : string.
Variable commits : list CommitSummary.

Ltac open_stage H :=
  cbv beta iota zeta delta
    [generateSummaryHtml bind try_catch call_model record_call or_RangeError
     rethrow_model_error ret throw] in H.

Ltac step_stage H :=
  match type of H with
  | context [if is_empty apiKey then _ else _] =>
      let E := fresh "Ekey" in destruct (is_empty apiKey) eqn:E
  | context [if is_empty model then _ else _] =>
      let E := fresh "Emodel" in destruct (is_empty model) eqn:E
  | context [if Z.of_nat (length commits) =? 0 then _ else _] =>
      let E := fresh "Elen" in destruct (Z.of_nat (length commits) =? 0) eqn:E
  | context [match buildBulletList ?p ?c with _ => _ end] =>
      let E := fresh "Ebullets" in destruct (buildBulletList p c) eqn:E
  | context [match generateText ?e ?q with _ => _ end] =>
      let E := fresh "Eanswer" in destruct (generateText e q) eqn:E
  | context [await_abortable ?d ?w0] => wait_cases d w0
  | context [if is_empty (trim ?t) then _ else _] =>
      let E := fresh "Eblank" in destruct (is_empty (trim t)) eqn:E
  | context [match buildFallbackSummary ?p ?a ?b ?c ?d with _ => _ end] =>
      let E := fresh "Efallback" in
      destruct (buildFallbackSummary p a b c d) eqn:E
  | context [if ?b then _ else _] =>
      let E := fresh "Eif" in destruct b eqn:E
  end; cbv beta iota zeta in H.

Ltac name_sent H :=
  match type of H with
  | context [ModelCall (Build_ModelRequest ?a ?b ?c ?d)] =>
      let sent := fresh "sent" in
      let Es := fresh "Esent" in
      remember (Build_ModelRequest a b c d) as sent eqn:Es; clear Es
  end.

Ltac without_call Hcalls :=
  exfalso; symmetry in Hcalls; revert Hcalls;
  match goal with
  | |- List.app ?l _ = _ -> _ => rewrite <- (app_nil_r l) at 2
  end;
  intros Hcalls; apply app_inv_head in Hcalls; discriminate.

(** When the model answers and the signal has not fired, the stage
    returns. *)
Lemma summary_answer_returns w o w' q d text :
  generateSummaryHtml env model apiKey repo start end_ commits w = (o, w') ->
  calls w' = List.app (calls w) [ModelCall q] ->
  generateText env q = Generates d text ->
  aborted w' = false ->
  exists html, o = Returned html.
Proof.
  intros H Hcalls Hgen Hab. open_stage H.
  repeat (step_stage H; try discriminate; try name_sent H).
  all: subst; cbn [elapsed timer aborted calls] in *.
  all: inversion H; subst; cbn [aborted calls] in *.
  all: try congruence.
  all: try (without_call Hcalls).
  all: try (eexists; reflexivity).
  all: apply app_inv_head in Hcalls; inversion Hcalls; subst q.
  all: try (rewrite Hgen in *; discriminate).
  all: exfalso.
  all: destruct (bullets_then_groups _ _ _ Ebullets []) as (G & HG).
  all: unfold buildFallbackSummary in Efallback; rewrite HG in Efallback.
  all: discriminate.
Qed.

End SummaryAnswer.

(** X20.  If a request ends with the deadline not fired and its call to the
    model was answered with a text, whatever the text, the client receives a
    report: the fallback the program builds for a blank text cannot fail
    once the bullet list of the prompt has been built. *)
Theorem model_answer_gives_report env fuel sp ep out w q d text :
  handle env fuel sp ep = (out, w) ->
  aborted w = false ->
  In (ModelCall q) (calls w) ->
  generateText env q = Generates d text ->
  exists report,
    out = Returned (NextResponse_json report) /\
    (forall c, In c (commits report) ->
               exists day, day_of (platform env) "Unknown date" c = Some day).
Proof.
  intros Hrun Hab Hin Hgen.
  destruct (handle_model_call _ _ _ _ _ _ _ Hrun Hin)
    as (a & batch & w1 & o2 & w2 & _ & _ & Hsum & Hc & _ & Hw & ->).
  subst w. cbn [clearTimeout aborted] in Hab.
  destruct (summary_answer_returns _ _ _ _ _ _ _ _ _ _ _ _ _
              Hsum Hc Hgen Hab) as (html & ->).
  eexists. split; [reflexivity|]. cbn [responseBody commits].
  destruct (summary_request _ _ _ _ _ _ _ _ _ _ _ Hsum Hc)
    as (_ & _ & bullets & Hb & _).
  intros c Hcin. unfold buildBulletList in Hb.
  destruct (map_throwing (bullet_item (platform env)) batch) as [items|] eqn:Em;
    [|discriminate].
  destruct (map_throwing_some _ _ _ c Em Hcin) as (b & Hitem).
  unfold bullet_item in Hitem.
  destruct (extractCommitDetails (message c)).
  destruct (day_of (platform env) "????-??-??" c) as [day|] eqn:Ed;
    [|discriminate].
  eapply day_of_either; eauto.
Qed.

Lemma model_answer_witness :
  exists report,
    fst Scenario.blank_run = Returned (NextResponse_json report) /\
    (forall c, In c (commits report) ->
               exists day,
                 day_of Scenario.utc_platform "Unknown date" c = Some day).
Proof.
  exact (model_answer_gives_report Scenario.blank_env 3
           (Some "2025-01-01") (Some "2025-01-07")
           (fst Scenario.blank_run) (snd Scenario.blank_run)
           (Scenario.model_query (snd Scenario.blank_run))
           3000%N (String " " (String LF " "))
           eq_refl eq_refl (or_intror (or_introl eq_refl)) eq_refl).
Defined.

(** ** The deadline, both ways *)

(** X21.  Whenever the deadline has fired during a request, the client
    receives 504 with the timeout message, and the handler has waited
    exactly the 120 seconds of the deadline: no report and no other error is
    ever returned after the signal. *)
Theorem fired_deadline_gives_504 env fuel sp ep out w :
  handle env fuel sp ep = (out, w) ->
  aborted w = true ->
  out = Returned (buildErrorResponse timeout_message 504) /\
  elapsed w = TOTAL_TIMEOUT_MS.
Proof.
  intros Hrun Hab.
  destruct (preflight env sp ep) as [resp|a] eqn:Hpre.
  { rewrite (handle_refused _ _ _ _ _ Hpre) in Hrun. inversion Hrun; subst.
    discriminate. }
  rewrite (handle_as_stages _ _ _ _ _ Hpre) in Hrun.
  destruct (stages _ _ _ _ _ _ _ _ armed) as [o1 w1] eqn:Hst.
  assert (Hab1 : aborted w1 = true)
    by (destruct o1; inversion Hrun; subst; exact Hab).
  destruct (within_stages _ _ _ _ _ _ _ _ _ _ _ armed_within Hst)
    as (_ & _ & Hat).
  destruct (stages_aborted _ _ _ _ _ Hst Hab1) as (e & ->).
  inversion Hrun; subst. rewrite Hab1. split; [reflexivity|].
  simpl. auto.
Qed.

Lemma fired_deadline_witness :
  fst (Scenario.week_run_at Scenario.t_morning 130000)
  = Returned (buildErrorResponse timeout_message 504) /\
  elapsed (snd (Scenario.week_run_at Scenario.t_morning 130000))
  = TOTAL_TIMEOUT_MS.
Proof.
  exact (fired_deadline_gives_504
           (Scenario.week_env_at Scenario.t_morning 130000) 3
           (Some "2025-01-01") (Some "2025-01-07")
           (fst (Scenario.week_run_at Scenario.t_morning 130000))
           (snd (Scenario.week_run_at Scenario.t_morning 130000))
           eq_refl eq_refl).
Defined.

(** X22.  Take a request that passes the checks, and let its two stages run
    with no timer armed.  If they end strictly before the 120 seconds of
    the deadline, the handler, which arms the timer, ends the same way: the
    same response (or what its [catch] clause makes of the same error: a
    response, or the error of a response that cannot be built), after the
    same calls and the same time, and its signal has not fired. *)
Theorem deadline_not_reached_changes_nothing env fuel sp ep a o wf :
  preflight env sp ep = inr a ->
  stages env fuel (ok_repo a) (ok_token a) (ok_model a) (ok_apiKey a)
    (ok_start a) (ok_end a) boot = (o, wf) ->
  elapsed wf < TOTAL_TIMEOUT_MS ->
  exists w,
    handle env fuel sp ep = (settled o, w) /\
    aborted w = false /\
    elapsed w = elapsed wf /\
    calls w = calls wf.
Proof.
  intros Hpre Hfree Hfit.
  destruct (respects_stages env fuel (ok_repo a) (ok_token a) (ok_model a)
              (ok_apiKey a) (ok_start a) (ok_end a)) as (_ & _ & Hsim).
  destruct (Hsim _ _ _ _ boot_in_step Hfree)
    as [(wt & Hrun & Hstep) | (o' & wt & _ & _ & _ & Hlate)]; [|lia].
  destruct Hstep as (_ & _ & Hab & He & Hc & _).
  exists (clearTimeout wt).
  rewrite (handle_as_stages _ _ _ _ _ Hpre), Hrun.
  split; [|cbn [clearTimeout aborted elapsed calls]; auto].
  destruct o; unfold settled; rewrite ?Hab; reflexivity.
Qed.

Lemma deadline_not_reached_witness :
  exists w,
    handle (Scenario.week_env_at Scenario.t_morning 3000) 3
      (Some "2025-01-01") (Some "2025-01-07")
    = (settled (fst Cases.quick_work), w) /\
    aborted w = false /\
    elapsed w = elapsed (snd Cases.quick_work) /\
    calls w = calls (snd Cases.quick_work).
Proof.
  exact (deadline_not_reached_changes_nothing
           (Scenario.week_env_at Scenario.t_morning 3000) 3
           (Some "2025-01-01") (Some "2025-01-07")
           (Scenario.week_accepted (Some "gpt-5") (Some "sk-key"))
           (fst Cases.quick_work) (snd Cases.quick_work)
           eq_refl eq_refl eq_refl).
Defined.

(** ** The page and the route *)

Lemma legal_day_bound l day rest :
  read_date l = Some (day, rest) ->
  Z.abs (day * msPerDay) <= 8640000000000000.
Proof.
  intros H. unfold read_date in H.
  destruct (read_digits 4 0 l) as [[y l1]|] eqn:E1; [|discriminate].
  destruct (expect "-" l1) as [l2|]; [|discriminate].
  destruct (read_digits 2 0 l2) as [[m l3]|] eqn:E3; [|discriminate].
  destruct (expect "-" l3) as [l4|]; [|discriminate].
  destruct (read_digits 2 0 l4) as [[d l5]|] eqn:E5; [|discriminate].
  apply read_digits_bound in E1; [|lia].
  apply read_digits_bound in E3; [|lia].
  apply read_digits_bound in E5; [|lia].
  destruct ((1 <=? m) && (m <=? 12) && (1 <=? d) && (d <=? days_in_month y m))
    eqn:Elegal; [|discriminate].
  inversion H; subst day.
  repeat (apply andb_true_iff in Elegal; destruct Elegal as [Elegal ?]).
  unfold days_from_civil, msPerDay.
  change (10 ^ Z.of_nat 4) with 10000 in E1.
  change (10 ^ Z.of_nat 2) with 100 in E3, E5.
  change (1000 * 60 * 60 * 24) with 86400000.
  repeat match goal with
         | Hle : (_ <=? _) = true |- _ => apply Z.leb_le in Hle
         end.
  assert (Hdm : days_in_month y m <= 31).
  { unfold days_in_month.
    destruct (m =? 2); [destruct (is_leap y); lia|].
    destruct (_ || _); lia. }
  Z.div_mod_to_equations. destruct (m <=? 2), (2 <? m); lia.
Qed.

(** A legal date alone is read as the instant its day starts, on every
    engine. *)
Lemma legal_date_alone pf s day :
  read_date (to_list s) = Some (day, []) ->
  Date_of_string pf s = Some (day * msPerDay).
Proof.
  intros H. unfold Date_of_string, parse_utc_form. rewrite H.
  unfold TimeClip.
  pose proof (legal_day_bound _ _ _ H) as Hb. apply Z.leb_le in Hb.
  now rewrite Hb.
Qed.

Lemma validateDates_legal pf start end_ first last :
  read_date (to_list start) = Some (first, []) ->
  read_date (to_list end_) = Some (last, []) ->
  Page.generateBtn_disabled (Page.validateDates pf start end_)
  = (last <? first) || (Page.MAX_DATE_RANGE_DAYS <? last - first + 1).
Proof.
  intros Hs He. unfold Page.validateDates.
  rewrite (legal_date_alone pf _ _ Hs), (legal_date_alone pf _ _ He).
  assert (Es : is_empty start = false).
  { destruct start; [discriminate | reflexivity]. }
  assert (Ee : is_empty end_ = false).
  { destruct end_; [discriminate | reflexivity]. }
  rewrite Es, Ee. cbn [orb Page.generateBtn_disabled].
  assert (Hm : 0 < msPerDay) by (unfold msPerDay; lia).
  assert (Hord : (last * msPerDay <? first * msPerDay) = (last <? first)).
  { destruct (last <? first) eqn:E.
    - apply Z.ltb_lt. apply Z.ltb_lt in E. nia.
    - apply Z.ltb_ge. apply Z.ltb_ge in E. nia. }
  rewrite Hord.
  assert (Hdiff : Page.ceil_div (last * msPerDay - first * msPerDay)
                    (1000 * 60 * 60 * 24) = last - first).
  { unfold Page.ceil_div. fold msPerDay.
    replace (- (last * msPerDay - first * msPerDay))
      with ((first - last) * msPerDay) by lia.
    rewrite Z.div_mul by lia. lia. }
  rewrite Hdiff.
  destruct (last <? first), (Page.MAX_DATE_RANGE_DAYS <? last - first + 1);
    reflexivity.
Qed.

(** X23.  The page and the route agree on windows.  For two well-formed legal
    dates: when [validateDates] disables the button, the route would refuse
    the same window with 400 or 413, before any call; when it leaves the
    button enabled, the route refuses the window only for a missing
    configuration (500). *)
Theorem page_and_route_agree_on_windows pf env fuel start end_ first last :
  read_date (to_list start) = Some (first, []) ->
  read_date (to_list end_) = Some (last, []) ->
  (Page.generateBtn_disabled (Page.validateDates pf start end_) = true ->
   exists m status,
     handle env fuel (Some start) (Some end_)
     = (Returned (buildErrorResponse m status), boot) /\
     (status = 400 \/ status = 413)) /\
  (Page.generateBtn_disabled (Page.validateDates pf start end_) = false ->
   forall response,
     preflight env (Some start) (Some end_) = inl response ->
     http_status response = 500).
Proof.
  intros Hs He.
  rewrite (validateDates_legal pf _ _ _ _ Hs He).
  pose proof (preflight_legal env _ _ _ _ Hs He) as Hpre.
  change Page.MAX_DATE_RANGE_DAYS with MAX_WINDOW_DAYS.
  destruct (last <? first).
  { split; [|discriminate]. intros _. eexists _, _.
    split; [apply handle_refused; exact Hpre | left; reflexivity]. }
  destruct (MAX_WINDOW_DAYS <? last - first + 1).
  { split; [|discriminate]. intros _. eexists _, _.
    split; [apply handle_refused; exact Hpre | right; reflexivity]. }
  split; [discriminate|]. intros _ response Hr. rewrite Hpre in Hr.
  destruct (falsy (GITHUB_REPO env)); [inversion Hr; reflexivity|].
  destruct (falsy (GITHUB_TOKEN env)); [inversion Hr; reflexivity|].
  discriminate.
Qed.

Lemma page_and_route_witness :
  (Page.generateBtn_disabled
     (Page.validateDates Scenario.utc_platform "2025-01-01" "2025-01-31") = true ->
   exists m status,
     handle (Scenario.quiet_env None None) 3
       (Some "2025-01-01") (Some "2025-01-31")
     = (Returned (buildErrorResponse m status), boot) /\
     (status = 400 \/ status = 413)) /\
  (Page.generateBtn_disabled
     (Page.validateDates Scenario.utc_platform "2025-01-01" "2025-01-31") = false ->
   forall response,
     preflight (Scenario.quiet_env None None)
       (Some "2025-01-01") (Some "2025-01-31") = inl response ->
     http_status response = 500).
Proof.
  exact (page_and_route_agree_on_windows Scenario.utc_platform
           (Scenario.quiet_env None None) 3 "2025-01-01" "2025-01-31"
           20089 20119 eq_refl eq_refl).
Defined.

(** The page on the 31 days of January: the button is disabled and the
    range message counts the days. *)
Example page_counts_days :
  Page.validateDates Scenario.utc_platform "2025-01-01" "2025-01-31"
  = {| Page.startDateError := EmptyString;
       Page.endDateError := EmptyString;
       Page.rangeError :=
         Some "Date range cannot exceed 30 days. You selected 31 days.";
       Page.generateBtn_disabled := true |}.
Proof. vm_compute. reflexivity. Qed.

(** ** The order of the fallback, on two days *)

Lemma two_days_distinct : NoDup (map fst [("2025-01-03", @nil CommitSummary);
                                          ("2025-01-02", @nil CommitSummary)]).
Proof.
  simpl. constructor.
  - intros [H | []]. discriminate.
  - constructor; [intros [] | constructor].
Qed.

Lemma sort_by_key_unique_witness :
  [("2025-01-02", @nil CommitSummary); ("2025-01-03", @nil CommitSummary)]
  = sort_by_key [("2025-01-03", []); ("2025-01-02", [])].
Proof.
  apply (sort_by_key_unique
           [("2025-01-03", []); ("2025-01-02", [])]
           [("2025-01-02", []); ("2025-01-03", [])]).
  - exact two_days_distinct.
  - apply perm_swap.
  - repeat constructor.
Defined.
